(** * Solid-State-Battery-Safety-Audit: the calculation scripts, embedded

    The repository is a set of independent Python scripts that evaluate
    closed-form physics formulas.  This development embeds the functions
    the specification talks about and proves (or refutes) what it says.

    Number model.  Python [float] and numpy [float64] values are modelled
    as real numbers ([R]): every arithmetic operation is the exact one.
    Rounding, overflow to infinity and underflow to zero are therefore
    outside the model.  What Python does beyond arithmetic is kept:
    - [/] on Python floats raises [ZeroDivisionError] on a zero divisor;
    - [**] with a negative base and a fractional exponent, and [sqrt] of a
      negative number, leave the real numbers (complex, nan): the model
      reports [NotReal] there and says nothing further about such a run;
    - the one infinite value the code builds on purpose, [float('inf')],
      is a constructor of its own ([PosInf]).
    Python [int] is [Z]; an int meeting a float is converted by [IZR].

    Effects.  A function that can raise returns a [result].  Console
    output and the drawing of figures are not modelled; the files the
    verification suite reads are a record of optional parsed contents, and
    the report it writes is part of the outcome of [main].  The random
    generator is a function from the number of the draw to its value. *)

From Stdlib Require Import Reals Lra Lia ZArith List String Bool.
Import ListNotations.
Open Scope string_scope.
Open Scope list_scope.
Open Scope R_scope.

(** ** Exceptions and the error monad *)

Inductive exn : Type :=
| ZeroDivisionError
| ValueError
| IndexError
| FileNotFoundError (path : string)
| UnboundLocalError
| NotReal.

Inductive result (A : Type) : Type :=
| Ok (a : A)
| Raise (e : exn).
Arguments Ok {A} a.
Arguments Raise {A} e.

Definition bind {A B : Type} (m : result A) (k : A -> result B) : result B :=
  match m with
  | Ok a => k a
  | Raise e => Raise e
  end.

Notation "x <- m ;; k" := (bind m (fun x => k))
  (at level 61, m at next level, right associativity).

(** ** Comparisons and the partial operators of Python on floats *)

Definition Rltb (x y : R) : bool := if Rlt_dec x y then true else false.
Definition Rleb (x y : R) : bool := if Rle_dec x y then true else false.
Definition Rgtb (x y : R) : bool := Rltb y x.
Definition Rgeb (x y : R) : bool := Rleb y x.

(** [x / y] on Python floats. *)
Definition truediv (x y : R) : result R :=
  if Req_dec_T y 0 then Raise ZeroDivisionError else Ok (x / y).

(** [x ** y] with a float exponent.  A positive base gives [exp (y ln x)].
    A zero base gives 0 for a positive exponent and 1 for exponent 0, and
    raises for a negative one.  A negative base gives a real number only
    when the exponent is a whole number; otherwise the value is complex in
    Python and nan in numpy, and the model reports [NotReal]. *)
Definition float_pow (x y : R) : result R :=
  if Rlt_dec 0 x then Ok (Rpower x y)
  else if Req_dec_T x 0 then
    if Rlt_dec 0 y then Ok 0
    else if Req_dec_T y 0 then Ok 1
    else Raise ZeroDivisionError
  else if Req_dec_T y (IZR (Int_part y)) then Ok (powerRZ x (Int_part y))
  else Raise NotReal.

(** [np.sqrt]: nan on a negative argument. *)
Definition np_sqrt (x : R) : result R :=
  if Rle_dec 0 x then Ok (sqrt x) else Raise NotReal.

(** [np.clip(x, lo, hi)] is [minimum(maximum(x, lo), hi)]. *)
Definition np_clip (x lo hi : R) : R := Rmin (Rmax x lo) hi.

(** A float that may be the literal [float('inf')]. *)
Inductive xfloat : Type :=
| Finite (r : R)
| PosInf.

(** ** born_solvation_quantum_sieve.py *)

Module Born.

Definition N_A : R := 6.02214076e23.
Definition E_CHARGE : R := 1.602176634e-19.
Definition EPSILON_0 : R := 8.854187817e-12.
Definition K_B : R := 1.380649e-23.

Definition NM_TO_M : R := 1e-9.
Definition ANGSTROM_TO_M : R := 1e-10.
Definition J_TO_KJ : R := 1e-3.

Record IonSpecies : Type := mkIon {
  name : string;
  formula : string;
  bare_radius_nm : R;
  solvated_radius_nm : R;
  charge : Z;
  coordination_number : Z;
  hydration_enthalpy_kJ_mol : R;
  description : string
}.

Definition Li_plus : IonSpecies := {|
  name := "Li⁺ (bare)";
  formula := "Li+";
  bare_radius_nm := 0.076;
  solvated_radius_nm := 0.382;
  charge := 1;
  coordination_number := 4;
  hydration_enthalpy_kJ_mol := 520;
  description := "Target transport species"
|}.

Definition Na_plus : IonSpecies := {|
  name := "Na⁺ (bare)";
  formula := "Na+";
  bare_radius_nm := 0.102;
  solvated_radius_nm := 0.358;
  charge := 1;
  coordination_number := 6;
  hydration_enthalpy_kJ_mol := 405;
  description := "Reference alkali ion"
|}.

Definition Li_EC4 : IonSpecies := {|
  name := "Li⁺(EC)₄ (solvated)";
  formula := "Li(EC)4+";
  bare_radius_nm := 0.076;
  solvated_radius_nm := 0.450;
  charge := 1;
  coordination_number := 4;
  hydration_enthalpy_kJ_mol := 520;
  description := "Solvated complex - MUST BE BLOCKED"
|}.

Definition Li_H2O4 : IonSpecies := {|
  name := "Li⁺(H₂O)₄ (hydrated)";
  formula := "Li(H2O)4+";
  bare_radius_nm := 0.076;
  solvated_radius_nm := 0.340;
  charge := 1;
  coordination_number := 4;
  hydration_enthalpy_kJ_mol := 520;
  description := "Hydrated complex"
|}.

Definition dendrite_tip : IonSpecies := {|
  name := "Dendrite Tip";
  formula := "Li(metal)";
  bare_radius_nm := 50.0;
  solvated_radius_nm := 50.0;
  charge := 0;
  coordination_number := 0;
  hydration_enthalpy_kJ_mol := 0;
  description := "Metallic lithium protrusion - MUST BE BLOCKED"
|}.

(** The table [SPECIES], in the order the script writes it. *)
Definition SPECIES : list (string * IonSpecies) :=
  [ ("Li+", Li_plus); ("Na+", Na_plus); ("Li_EC4", Li_EC4);
    ("Li_H2O4", Li_H2O4); ("dendrite_tip", dendrite_tip) ].

Definition born_solvation_energy (z : Z) (r_eff_m epsilon_r : R) : result R :=
  if Rleb r_eff_m 0 || Rleb epsilon_r 0 then Ok 0.0
  else
    delta_G <- truediv (- (N_A * IZR (z ^ 2) * E_CHARGE ^ 2))
                       (8 * PI * EPSILON_0 * r_eff_m) ;;
    inv_eps <- truediv 1.0 epsilon_r ;;
    let delta_G := delta_G * (1.0 - inv_eps) in
    Ok (delta_G * J_TO_KJ).

Definition epsilon_vacuum_default : R := 2.0.
Definition d_critical_nm_default : R := 0.70.
Definition transition_width_nm_default : R := 0.10.

Definition confined_dielectric_constant
    (pore_diameter_nm epsilon_bulk epsilon_vacuum d_critical_nm
     transition_width_nm : R) : result R :=
  x <- truediv (pore_diameter_nm - d_critical_nm) transition_width_nm ;;
  let x := np_clip x (-50) 50 in
  let sigmoid := 1.0 / (1.0 + exp (- x)) in
  let epsilon_eff :=
    epsilon_vacuum + (epsilon_bulk - epsilon_vacuum) * sigmoid in
  Ok epsilon_eff.

Definition dehydration_enthalpy
    (pore_diameter_nm : R) (ion : IonSpecies) (epsilon_bulk : R)
    : result xfloat :=
  let solvated_diameter_nm := 2.0 * solvated_radius_nm ion in
  if Rltb pore_diameter_nm (solvated_diameter_nm * 0.8) then Ok PosInf
  else
    let r_eff := bare_radius_nm ion * NM_TO_M in
    G_bulk <- born_solvation_energy (charge ion) r_eff epsilon_bulk ;;
    epsilon_pore <- confined_dielectric_constant pore_diameter_nm epsilon_bulk
                      epsilon_vacuum_default d_critical_nm_default
                      transition_width_nm_default ;;
    G_pore <- born_solvation_energy (charge ion) r_eff epsilon_pore ;;
    let delta_H := G_pore - G_bulk in
    Ok (Finite delta_H).

End Born.

(** ** physics_cycle_life.py *)

(** [round(x, ndigits)]: to the nearest multiple of [10 ^ -ndigits], a tie
    going to the even neighbour. *)
Definition py_round (x : R) (ndigits : nat) : R :=
  let y := x * 10 ^ ndigits in
  let f := Int_part y in
  let frac := y - IZR f in
  let q := if Rltb frac 0.5 then f
           else if Rltb 0.5 frac then (f + 1)%Z
           else if Z.even f then f else (f + 1)%Z in
  IZR q / 10 ^ ndigits.

Module CycleLife.

Definition K_B_EV : R := 8.617e-5.
Definition K_B_J : R := 1.381e-23.
Definition FARADAY : R := 96485.0.
Definition R_GAS : R := 8.314.

Record Architecture : Type := mkArchitecture {
  name : string;
  K_constraint_GPa : R;
  E_separator_GPa : R;
  porosity : R;
  contact_area_fraction : R;
  stress_concentration_factor : R;
  strut_thickness_um : R;
  unit_cell_um : R
}.

(** A method of the dataclass: it is handed [self] and hands the object
    back, as it is after the call, next to the value it returns. *)
Definition method (A : Type) : Type := Architecture -> A * Architecture.

Definition cycling_stress_amplitude_MPa : method R := fun self =>
  let sigma_yield_Li := 2.0 in
  let sigma := sigma_yield_Li * stress_concentration_factor self in
  (sigma, self).

Definition dendrite_barrier_MPa : method R := fun self =>
  let epsilon_misfit := 0.05 in
  let W := 0.5 * K_constraint_GPa self * 1000 * epsilon_misfit ^ 2 in
  (W, self).

Definition GENESIS : Architecture := {|
  name := "Genesis (Gyroid Lattice)";
  K_constraint_GPa := 6.7;
  E_separator_GPa := 22.5;
  porosity := 0.40;
  contact_area_fraction := 0.60;
  stress_concentration_factor := 2.0;
  strut_thickness_um := 2.5;
  unit_cell_um := 10.0
|}.

Definition BASELINE : Architecture := {|
  name := "Baseline (Dense LLZO + Clamps)";
  K_constraint_GPa := 0.0;
  E_separator_GPa := 150.0;
  porosity := 0.0;
  contact_area_fraction := 0.95;
  stress_concentration_factor := 7.0;
  strut_thickness_um := 0.0;
  unit_cell_um := 0.0
|}.

Definition T_celsius_default : R := 25.0.
Definition C_rate_default : R := 0.33.
Definition DoD_default : R := 0.80.
Definition current_density_mA_cm2_default : R := 1.0.

Definition sei_growth_per_cycle
    (architecture : Architecture) (cycle_num : Z) (T_celsius C_rate : R)
    : result R :=
  let T := T_celsius + 273.15 in
  q <- truediv 3600 C_rate ;;
  let t_cycle_s := q * 2 in
  let D_SEI_base := 8e-22 in
  let E_a_SEI := 0.35 in
  let T_ref := 298.15 in
  inv_T <- truediv 1 T ;;
  let arrhenius := exp (- E_a_SEI / K_B_EV * (inv_T - 1 / T_ref)) in
  let '(sigma, architecture) := cycling_stress_amplitude_MPa architecture in
  let sigma_ref := 5.0 in
  p <- float_pow (sigma / sigma_ref) 1.5 ;;
  let stress_factor := 1.0 + p in
  let D_SEI := D_SEI_base * arrhenius * stress_factor in
  let total_time := t_cycle_s * IZR (cycle_num + 1) in
  L_m <- np_sqrt (2 * D_SEI * total_time) ;;
  let L_nm := L_m * 1e9 in
  Ok L_nm.

Definition fatigue_damage_per_cycle
    (architecture : Architecture) (cycle_num : Z) (T_celsius DoD : R)
    : result R :=
  let C_paris := 1e-12 in
  let m_paris := 15.0 in
  let '(sigma, architecture) := cycling_stress_amplitude_MPa architecture in
  let delta_sigma := sigma * DoD in
  let delta_sigma_local :=
    delta_sigma * stress_concentration_factor architecture in
  let a0 := 5e-6 in
  let delta_K := delta_sigma_local * sqrt (PI * a0) in
  let K_IC := 1.0 in
  da_dN <- (if Rgtb delta_K 0 && Rltb delta_K K_IC then
              p <- float_pow (delta_K / K_IC) m_paris ;;
              Ok (C_paris * p)
            else if Rgeb delta_K K_IC then Ok 1e-3
            else Ok 0.0) ;;
  let a_cumulative := a0 + da_dN * IZR (cycle_num + 1) in
  let a_critical := 100e-6 in
  let damage := Rmin (a_cumulative / a_critical) 1.0 in
  Ok damage.

Definition dendrite_nucleation_probability
    (architecture : Architecture) (T_celsius current_density_mA_cm2 : R)
    : result R :=
  let T := T_celsius + 273.15 in
  let P0 := 0.001 * (current_density_mA_cm2 / 0.33) in
  let '(W_barrier, architecture) := dendrite_barrier_MPa architecture in
  let Omega := 13.0e-6 in
  let W_per_atom_J := W_barrier * 1e6 * Omega / 6.022e23 in
  let W_per_atom_eV := W_per_atom_J / 1.602e-19 in
  suppression <- (if Rgtb W_per_atom_eV 0 then
                    q <- truediv (- W_per_atom_eV) (K_B_EV * T) ;;
                    Ok (exp q)
                  else Ok 1.0) ;;
  let P := P0 * suppression in
  Ok P.

(** One row of the recorded history. *)
Record HistoryEntry : Type := mkHistoryEntry {
  cycle : Z;
  capacity_retention : R;
  sei_thickness_nm : R;
  fatigue_damage : R;
  h_dendrite_events : Z;
  cap_loss_sei_pct : R;
  cap_loss_fatigue_pct : R;
  cap_loss_dendrite_pct : R
}.

(** The variables the loop body binds; unbound before the first pass. *)
Record BodyLocals : Type := mkBodyLocals {
  n_var : Z;
  sei_nm_var : R;
  fatigue_var : R
}.

(** The accumulators of the simulation loop.  [capacity_log] is not a
    variable of the script: it records the value of [capacity] at the end
    of each pass, latest first, so that statements about every pass can be
    made. *)
Record LoopState : Type := mkLoopState {
  history : list HistoryEntry;
  dendrite_events : Z;
  capacity : R;
  locals : option BodyLocals;
  capacity_log : list R
}.

Definition initial_state : LoopState := {|
  history := [];
  dendrite_events := 0;
  capacity := 1.0;
  locals := None;
  capacity_log := []
|}.

(** The body of [for n in range(n_cycles)], up to the end-of-life test.
    [draw] is the value [np.random.random()] returns in this pass. *)
Definition loop_body
    (architecture : Architecture) (T_celsius C_rate DoD : R)
    (n : Z) (draw : R) (st : LoopState) : result LoopState :=
  sei_nm <- sei_growth_per_cycle architecture n T_celsius C_rate ;;
  let cap_loss_sei := 0.0002 * sei_nm in
  fatigue <- fatigue_damage_per_cycle architecture n T_celsius DoD ;;
  let cap_loss_fatigue := 0.3 * fatigue in
  p_dendrite <- dendrite_nucleation_probability architecture T_celsius
                  current_density_mA_cm2_default ;;
  let dendrite_events :=
    if Rltb draw p_dendrite then (dendrite_events st + 1)%Z
    else dendrite_events st in
  let cap_loss_dendrite := 0.02 * IZR dendrite_events in
  let capacity := 1.0 - cap_loss_sei - cap_loss_fatigue - cap_loss_dendrite in
  let capacity := Rmax 0.0 capacity in
  let history :=
    if (n mod 50 =? 0)%Z then
      history st ++ [ {|
        cycle := n;
        capacity_retention := py_round capacity 6;
        sei_thickness_nm := py_round sei_nm 4;
        fatigue_damage := py_round fatigue 6;
        h_dendrite_events := dendrite_events;
        cap_loss_sei_pct := py_round (cap_loss_sei * 100) 4;
        cap_loss_fatigue_pct := py_round (cap_loss_fatigue * 100) 4;
        cap_loss_dendrite_pct := py_round (cap_loss_dendrite * 100) 4
      |} ]
    else history st in
  Ok {| history := history;
        dendrite_events := dendrite_events;
        capacity := capacity;
        locals := Some {| n_var := n; sei_nm_var := sei_nm;
                          fatigue_var := fatigue |};
        capacity_log := capacity :: capacity_log st |}.

(** [for n in range(start, start + count)] with the [break] on end of life.
    [rng k] is the [k]-th value of the random generator. *)
Fixpoint for_range
    (architecture : Architecture) (T_celsius C_rate DoD : R)
    (rng : nat -> R) (count : nat) (n : Z) (st : LoopState)
    : result LoopState :=
  match count with
  | O => Ok st
  | S count' =>
      st' <- loop_body architecture T_celsius C_rate DoD n
               (rng (Z.to_nat n)) st ;;
      if Rltb (capacity st') 0.70 then Ok st'
      else for_range architecture T_celsius C_rate DoD rng count' (n + 1) st'
  end.

Definition run_loop
    (architecture : Architecture) (n_cycles : Z) (T_celsius C_rate DoD : R)
    (rng : nat -> R) : result LoopState :=
  for_range architecture T_celsius C_rate DoD rng (Z.to_nat n_cycles) 0
    initial_state.

(** The dictionary [run_cycle_life] returns. *)
Record CycleLifeResult : Type := mkCycleLifeResult {
  r_architecture : string;
  r_K_constraint_GPa : R;
  r_cycling_stress_MPa : R;
  r_dendrite_barrier_MPa : R;
  r_n_cycles_tested : Z;
  r_final_capacity : R;
  r_cycles_to_80_pct : Z;
  r_total_dendrites : Z;
  r_final_sei_nm : R;
  r_final_fatigue : R;
  r_history : list HistoryEntry;
  r_physics_basis : list (string * string)
}.

Definition run_cycle_life
    (architecture : Architecture) (n_cycles : Z) (T_celsius C_rate DoD : R)
    (rng : nat -> R) : result CycleLifeResult :=
  (* the banner printed first formats [1/C_rate] *)
  _ <- truediv 1 C_rate ;;
  st <- run_loop architecture n_cycles T_celsius C_rate DoD rng ;;
  let cycles_to_80 :=
    match find (fun entry => Rltb (capacity_retention entry) 0.80)
               (history st) with
    | Some entry => cycle entry
    | None => n_cycles
    end in
  let '(stress, architecture) := cycling_stress_amplitude_MPa architecture in
  let '(barrier, architecture) := dendrite_barrier_MPa architecture in
  match locals st with
  | None => Raise UnboundLocalError
  | Some l =>
      Ok {| r_architecture := name architecture;
            r_K_constraint_GPa := K_constraint_GPa architecture;
            r_cycling_stress_MPa := py_round stress 2;
            r_dendrite_barrier_MPa := py_round barrier 2;
            r_n_cycles_tested := (n_var l + 1)%Z;
            r_final_capacity := py_round (capacity st) 6;
            r_cycles_to_80_pct := cycles_to_80;
            r_total_dendrites := dendrite_events st;
            r_final_sei_nm := py_round (sei_nm_var l) 4;
            r_final_fatigue := py_round (fatigue_var l) 6;
            r_history := history st;
            r_physics_basis :=
              [ ("sei_model", "Parabolic (Pinson & Bazant 2013)");
                ("fatigue_model", "Paris Law (Paris & Erdogan 1963)");
                ("dendrite_model",
                 "Boltzmann nucleation (Monroe & Newman 2005)");
                ("architecture_connection",
                 "K_constraint → stress amplitude → degradation rates") ] |}
  end.

(** *** Vocabulary of the statements about this script *)

(** The base probability [P0] of the docstring. *)
Definition P0 (current_density_mA_cm2 : R) : R :=
  0.001 * (current_density_mA_cm2 / 0.33).

(** The barrier per atom, in eV, as the function computes it. *)
Definition barrier_eV (a : Architecture) : R :=
  fst (dendrite_barrier_MPa a) * 1e6 * 13.0e-6 / 6.022e23 / 1.602e-19.

(** What the specification says of the nucleation probability, for one
    pair of architectures, one temperature and one current density. *)
Definition nucleation_claim (a1 a2 : Architecture) (T cd : R) : Prop :=
  exists p1 p2,
    dendrite_nucleation_probability a1 T cd = Ok p1
    /\ dendrite_nucleation_probability a2 T cd = Ok p2
    /\ 0 < p1 <= P0 cd /\ 0 < p2 <= P0 cd
    /\ p2 <= p1
    /\ (K_constraint_GPa a1 = 0 -> p1 = P0 cd).

(** The same with the closed range [0, P0]: a probability may be 0. *)
Definition nucleation_bounds (a1 a2 : Architecture) (T cd : R) : Prop :=
  exists p1 p2,
    dendrite_nucleation_probability a1 T cd = Ok p1
    /\ dendrite_nucleation_probability a2 T cd = Ok p2
    /\ 0 <= p1 <= P0 cd /\ 0 <= p2 <= P0 cd
    /\ p2 <= p1
    /\ (K_constraint_GPa a1 = 0 -> p1 = P0 cd).

(** [capacity_log] read from the latest pass back: every recorded value
    lies in [0, 1] and is at most the value recorded before it, which is
    the starting value 1.0 for the first pass. *)
Fixpoint log_ok (log : list R) : Prop :=
  match log with
  | [] => True
  | c :: older => 0 <= c <= 1 /\ c <= hd 1.0 older /\ log_ok older
  end.

(** Whatever the pass numbered [n] computes is at most the current value
    of [capacity]: the invariant that links one pass to the next. *)
Definition next_below
    (a : Architecture) (T_celsius C_rate DoD : R)
    (n : Z) (st : LoopState) : Prop :=
  forall s f ev,
    sei_growth_per_cycle a n T_celsius C_rate = Ok s ->
    fatigue_damage_per_cycle a n T_celsius DoD = Ok f ->
    (dendrite_events st <= ev)%Z ->
    Rmax 0 (1 - 0.0002 * s - 0.3 * f - 0.02 * IZR ev) <= capacity st.

End CycleLife.

(** ** numpy arrays, as far as the plotting scripts use them *)

Fixpoint mapM {A B : Type} (f : A -> result B) (l : list A) : result (list B) :=
  match l with
  | [] => Ok []
  | x :: l' => y <- f x ;; ys <- mapM f l' ;; Ok (y :: ys)
  end.

(** [np.linspace(start, stop, num)]. *)
Definition np_linspace (start stop : R) (num : nat) : list R :=
  let step := (stop - start) / INR (num - 1) in
  map (fun i => start + INR i * step) (seq 0 num).

(** [np.logspace(start, stop, num)]: 10.0 to the powers
    [np.linspace(start, stop, num)]. *)
Definition np_logspace (start stop : R) (num : nat) : result (list R) :=
  mapM (fun y => float_pow 10.0 y) (np_linspace start stop num).

Definition np_zeros_like (a : list R) : list R := map (fun _ => 0) a.

(** [a[mask]] for a boolean array [mask]: the elements where it is True. *)
Fixpoint mask_select (a : list R) (mask : list bool) : list R :=
  match a, mask with
  | x :: a', true :: mask' => x :: mask_select a' mask'
  | _ :: a', false :: mask' => mask_select a' mask'
  | _, _ => []
  end.

(** [a[mask] = vals]: the values go, in order, to the places where the
    mask is True; numpy raises when their number does not fit. *)
Fixpoint mask_assign (a : list R) (mask : list bool) (vals : list R)
    : result (list R) :=
  match a, mask with
  | [], [] => match vals with [] => Ok [] | _ :: _ => Raise ValueError end
  | x :: a', true :: mask' =>
      match vals with
      | v :: vals' => r <- mask_assign a' mask' vals' ;; Ok (v :: r)
      | [] => Raise ValueError
      end
  | x :: a', false :: mask' => r <- mask_assign a' mask' vals ;; Ok (x :: r)
  | _, _ => Raise IndexError
  end.

(** ** generate_plots.py *)

Module Plots.

(** The array [failure_prob] that [plot_failure_probability] draws, as a
    function of the array [pressure]. *)
Definition failure_prob_of (pressure : list R) : result (list R) :=
  let threshold := 15.0 in
  let scale := 25.0 in
  let shape := 3.5 in
  powed <- mapM (fun p => float_pow (Rmax (p - threshold) 0 / scale) shape)
                pressure ;;
  let failure_prob := map (fun w => 1 - exp (- w)) powed in
  let failure_prob := map (fun x => x * 100) failure_prob in
  Ok failure_prob.

Definition plot_failure_probability : result (list R) :=
  let pressure := np_linspace 0 100 1000 in
  failure_prob_of pressure.

(** The arrays [rate_low] and [rate_high] that [plot_creep_rate] draws, as
    a function of the array [pressure]. *)
Definition creep_rates_of (pressure : list R) : result (list R * list R) :=
  cubes <- mapM (fun p => float_pow p 3) pressure ;;
  let rate_low := map (fun x => 1e-9 * x) cubes in
  powers <- mapM (fun p => float_pow p 4.5) pressure ;;
  let rate_high := map (fun x => 1e-8 * x) powers in
  Ok (rate_low, rate_high).

(** The pressures and the two rates of the plot. *)
Definition plot_creep_rate : result (list R * (list R * list R)) :=
  pressure <- np_logspace 0 2.5 100 ;;
  rates <- creep_rates_of pressure ;;
  Ok (pressure, rates).

End Plots.

(** ** generate_all_figures.py *)

Module Figures.

(** The array [failure_prob] that [generate_pressure_failure_curve] draws,
    as a function of the array [pressure]. *)
Definition failure_prob_of (pressure : list R) : result (list R) :=
  let threshold := 15.0 in
  let scale := 25.0 in
  let weibull_mod := 3.5 in
  let failure_prob := np_zeros_like pressure in
  let above_threshold := map (fun p => Rgtb p threshold) pressure in
  powed <- mapM (fun p => float_pow ((p - threshold) / scale) weibull_mod)
                (mask_select pressure above_threshold) ;;
  failure_prob <- mask_assign failure_prob above_threshold
                    (map (fun w => 1 - exp (- w)) powed) ;;
  let failure_prob := map (fun x => x * 100) failure_prob in
  Ok failure_prob.

Definition generate_pressure_failure_curve : result (list R) :=
  let pressure := np_linspace 0 100 1000 in
  failure_prob_of pressure.

(** The arrays [rate_low], [rate_high] and [rate_mid] that
    [generate_creep_rate_curve] draws, as a function of the array
    [pressure]. *)
Definition creep_rates_of (pressure : list R)
    : result (list R * list R * list R) :=
  let A_low := 1e-9 in
  let A_high := 1e-8 in
  let n_low := 3.0 in
  let n_high := 4.5 in
  lows <- mapM (fun p => float_pow p n_low) pressure ;;
  let rate_low := map (fun x => A_low * x) lows in
  highs <- mapM (fun p => float_pow p n_high) pressure ;;
  let rate_high := map (fun x => A_high * x) highs in
  rate_mid <- mapM np_sqrt (map (fun lh => fst lh * snd lh)
                                (combine rate_low rate_high)) ;;
  Ok (rate_low, rate_high, rate_mid).

(** The pressures and the three rates of the figure. *)
Definition generate_creep_rate_curve
    : result (list R * (list R * list R * list R)) :=
  pressure <- np_logspace 0 2.5 200 ;;
  rates <- creep_rates_of pressure ;;
  Ok (pressure, rates).

End Figures.

(** The Weibull failure probability in percent, written as a formula.
    [x ^ 3.5] for [x >= 0] is 0 at 0 and [exp (3.5 ln x)] above. *)
Definition pow_3_5 (x : R) : R :=
  if Req_dec_T x 0 then 0 else Rpower x 3.5.

Definition weibull_percent (sigma : R) : R :=
  100 * (1 - exp (- pow_3_5 (Rmax (sigma - 15) 0 / 25))).

(** ** verification_suite.py *)

(** [a.max()] of an integer array: numpy raises on an empty one. *)
Definition np_max (a : list Z) : result Z :=
  match a with
  | [] => Raise ValueError
  | x :: a' => Ok (fold_left Z.max a' x)
  end.

(** [np.argmin(a)]: the first index of the least element. *)
Fixpoint argmin_from (best_i : nat) (best : Z) (i : nat) (a : list Z) : nat :=
  match a with
  | [] => best_i
  | x :: a' =>
      if (x <? best)%Z then argmin_from i x (S i) a'
      else argmin_from best_i best (S i) a'
  end.

Definition np_argmin (a : list Z) : result nat :=
  match a with
  | [] => Raise ValueError
  | x :: a' => Ok (argmin_from 0 x 1 a')
  end.

(** [a[i]] for an index that is not negative. *)
Definition index {A : Type} (a : list A) (i : nat) : result A :=
  match nth_error a i with
  | Some x => Ok x
  | None => Raise IndexError
  end.

(** [np.diff(a)]. *)
Fixpoint np_diff (a : list R) : list R :=
  match a with
  | x :: ((y :: _) as a') => (y - x) :: np_diff a'
  | _ => []
  end.

Module Verification.

Definition FARADAY : R := 96485.0.
Definition GAS_CONSTANT : R := 8.314.
Definition BOLTZMANN : R := 1.381e-23.
Definition ELEMENTARY_CHARGE : R := 1.602e-19.
Definition AVOGADRO : R := 6.022e23.

Definition LI_MOLAR_VOLUME : R := 13.0e-6.
Definition LLZO_FRACTURE_TOUGHNESS : R := 1.0.
Definition LLZO_SHEAR_MODULUS : R := 55.0.
Definition STRESS_CONCENTRATION_FACTOR : R := 7.0.

Definition DATA_DIR : string := "validation_data".
Definition OUTPUT_DIR : string := "verification_output".

Definition path_join (dir file : string) : string := dir ++ "/" ++ file.

(** A piece of an f-string: literal text, or a number with its format. *)
Inductive fpiece : Type :=
| Text (s : string)
| Num (x : R) (format_spec : string).

Record VerificationResult : Type := mkVerificationResult {
  name : string;
  expected_value : R;
  calculated_value : R;
  tolerance_percent : R;
  unit : string;
  passed : bool;
  notes : list fpiece
}.

(** *** The input files, as parsed *)

(** [data[case]['results']] of dendrite_suppression_results.json. *)
Record CaseResults : Type := mkCaseResults {
  max_deflection_nm : R;
  dendrite_penetration_percent : R
}.

Record DendriteData : Type := mkDendriteData {
  baseline_case_results : CaseResults;
  genesis_case_results : CaseResults;
  improvement_metrics_dendrite_suppression_factor : R
}.

(** The entries of conductivity_results.json the suite reads. *)
Record ConductivityData : Type := mkConductivityData {
  results_diffusion_coefficient_value : R;
  results_ionic_conductivity_temperature_K : R;
  results_ionic_conductivity_value : R;
  simulation_parameters_composition_lithium : R;
  simulation_parameters_volume_nm3 : R;
  results_msd_analysis_r_squared : R
}.

(** A row of zero_pressure_cycling.csv as the loader sees it: one it skips
    (empty, a comment, the header), one it reads ([int(row[0])] and
    [float(row[2])]), or one on which those conversions raise. *)
Inductive csv_row : Type :=
| SkippedRow
| DataRow (cycle : Z) (retention : R)
| BadRow (e : exn).

(** The directory validation_data: a file is there, parsed, or it is not. *)
Record Files : Type := mkFiles {
  dendrite_suppression_results_json : option DendriteData;
  conductivity_results_json : option ConductivityData;
  zero_pressure_cycling_csv : option (list csv_row)
}.

Definition open_read {A : Type} (file : option A) (filepath : string)
    : result A :=
  match file with
  | Some content => Ok content
  | None => Raise (FileNotFoundError filepath)
  end.

Definition load_dendrite_data (fs : Files) : result DendriteData :=
  let filepath := path_join DATA_DIR "dendrite_suppression_results.json" in
  open_read (dendrite_suppression_results_json fs) filepath.

Definition load_conductivity_data (fs : Files) : result ConductivityData :=
  let filepath := path_join DATA_DIR "conductivity_results.json" in
  open_read (conductivity_results_json fs) filepath.

Fixpoint read_rows (rows : list csv_row) (cycles : list Z) (retention : list R)
    : result (list Z * list R) :=
  match rows with
  | [] => Ok (cycles, retention)
  | SkippedRow :: rows' => read_rows rows' cycles retention
  | DataRow c r :: rows' => read_rows rows' (cycles ++ [c]) (retention ++ [r])
  | BadRow e :: _ => Raise e
  end.

Definition load_cycling_data (fs : Files) : result (list Z * list R) :=
  let filepath := path_join DATA_DIR "zero_pressure_cycling.csv" in
  reader <- open_read (zero_pressure_cycling_csv fs) filepath ;;
  read_rows reader [] [].

(** *** The cycling table as [csv.reader] yields it *)

(** [load_cycling_data] once more, on the rows as lists of cells.  The
    built-in conversions [int] and [float] of a string are parameters:
    nothing is assumed of them. *)
Section CsvReader.

Variable int_of : string -> result Z.
Variable float_of : string -> result R.

(** [s.startswith(prefix)]. *)
Definition startswith (s prefix : string) : bool := String.prefix prefix s.

(** The test [not row or row[0].startswith('#') or row[0] == 'cycle']. *)
Definition skip_row (row : list string) : bool :=
  match row with
  | [] => true
  | row_0 :: _ => startswith row_0 "#" || String.eqb row_0 "cycle"
  end.

(** One pass of the loop [for row in reader]. *)
Definition read_row (row : list string) (cycles : list Z) (retention : list R)
    : result (list Z * list R) :=
  if skip_row row then Ok (cycles, retention)
  else
    row_0 <- index row 0 ;;
    c <- int_of row_0 ;;
    let cycles := cycles ++ [c] in
    row_2 <- index row 2 ;;
    r <- float_of row_2 ;;
    let retention := retention ++ [r] in
    Ok (cycles, retention).

Fixpoint read_csv (reader : list (list string))
    (cycles : list Z) (retention : list R) : result (list Z * list R) :=
  match reader with
  | [] => Ok (cycles, retention)
  | row :: reader' =>
      lists <- read_row row cycles retention ;;
      read_csv reader' (fst lists) (snd lists)
  end.

Definition load_cycling_data_csv (file : option (list (list string)))
    : result (list Z * list R) :=
  let filepath := path_join DATA_DIR "zero_pressure_cycling.csv" in
  reader <- open_read file filepath ;;
  read_csv reader [] [].

(** The row as the suite's model above takes it. *)
Definition parse_row (row : list string) : csv_row :=
  if skip_row row then SkippedRow
  else
    match (row_0 <- index row 0 ;; int_of row_0) with
    | Raise e => BadRow e
    | Ok c =>
        match (row_2 <- index row 2 ;; float_of row_2) with
        | Raise e => BadRow e
        | Ok r => DataRow c r
        end
    end.

End CsvReader.

(** *** The checks *)

Definition verify_dendrite_suppression (data : DendriteData)
    : result (list VerificationResult) :=
  let results := [] in
  let baseline_deflection := max_deflection_nm (baseline_case_results data) in
  let genesis_deflection := max_deflection_nm (genesis_case_results data) in
  let baseline_penetration :=
    dendrite_penetration_percent (baseline_case_results data) in
  let genesis_penetration :=
    dendrite_penetration_percent (genesis_case_results data) in
  let claimed_suppression :=
    improvement_metrics_dendrite_suppression_factor data in
  calculated_suppression <- truediv baseline_deflection genesis_deflection ;;
  rel <- truediv (Rabs (calculated_suppression - claimed_suppression))
                 claimed_suppression ;;
  let results := results ++ [ {|
    name := "Dendrite Suppression Factor";
    expected_value := claimed_suppression;
    calculated_value := calculated_suppression;
    tolerance_percent := 1.0;
    unit := "×";
    passed := Rltb rel 0.01;
    notes := [ Text "Calculated from deflection ratio: ";
               Num baseline_deflection ".1f"; Text " nm / ";
               Num genesis_deflection ".1f"; Text " nm" ]
  |} ] in
  let claimed_reduction := 85.0 in
  let calculated_reduction := baseline_penetration - genesis_penetration in
  let results := results ++ [ {|
    name := "Penetration Reduction";
    expected_value := claimed_reduction;
    calculated_value := calculated_reduction;
    tolerance_percent := 1.0;
    unit := "%";
    passed := Rltb (Rabs (calculated_reduction - claimed_reduction)
                    / claimed_reduction) 0.01;
    notes := [ Text "Calculated from: "; Num baseline_penetration "";
               Text "% - "; Num genesis_penetration ""; Text "%" ]
  |} ] in
  let overpotential := 0.050 in
  let required_W := FARADAY * overpotential / LI_MOLAR_VOLUME in
  let required_W_MPa := required_W / 1e6 in
  let results := results ++ [ {|
    name := "Strain Energy Trap Threshold";
    expected_value := 370.0;
    calculated_value := required_W_MPa;
    tolerance_percent := 5.0;
    unit := "MPa";
    passed := Rltb (Rabs (required_W_MPa - 370.0) / 370.0) 0.05;
    notes := [ Text "From W > F·η/Ω: "; Num FARADAY ".0f"; Text " × ";
               Num overpotential ""; Text " / "; Num LI_MOLAR_VOLUME ".2e" ]
  |} ] in
  Ok results.

Definition verify_ionic_conductivity (data : ConductivityData)
    : result (list VerificationResult) :=
  let results := [] in
  let D := results_diffusion_coefficient_value data in
  let T := results_ionic_conductivity_temperature_K data in
  let claimed_conductivity := results_ionic_conductivity_value data in
  let n_ions := simulation_parameters_composition_lithium data in
  let volume_nm3 := simulation_parameters_volume_nm3 data in
  let volume_m3 := volume_nm3 * 1e-27 in
  n <- truediv n_ions volume_m3 ;;
  sigma_S_m <- truediv (n * ELEMENTARY_CHARGE ^ 2 * D) (BOLTZMANN * T) ;;
  let sigma_mS_cm := sigma_S_m * 10.0 in
  rel <- truediv (Rabs (sigma_mS_cm - claimed_conductivity))
                 claimed_conductivity ;;
  let results := results ++ [ {|
    name := "Ionic Conductivity (Nernst-Einstein)";
    expected_value := claimed_conductivity;
    calculated_value := sigma_mS_cm;
    tolerance_percent := 5.0;
    unit := "mS/cm";
    passed := Rltb rel 0.05;
    notes := [ Text "Using D = "; Num D ".2e"; Text " m²/s, T = "; Num T "";
               Text " K, n = "; Num n ".2e"; Text " ions/m³" ]
  |} ] in
  let D_reasonable := Rltb 1e-14 D && Rltb D 1e-11 in
  let results := results ++ [ {|
    name := "Diffusion Coefficient (Physical Range)";
    expected_value := 1.0e-13;
    calculated_value := D;
    tolerance_percent := 1000.0;
    unit := "m²/s";
    passed := D_reasonable;
    notes := [ Text "Literature range: 10⁻¹⁴ to 10⁻¹¹ m²/s for LLZO" ]
  |} ] in
  let r_squared := results_msd_analysis_r_squared data in
  let results := results ++ [ {|
    name := "MSD Linear Fit Quality (R²)";
    expected_value := 0.90;
    calculated_value := r_squared;
    tolerance_percent := 10.0;
    unit := "";
    passed := Rgtb r_squared 0.90;
    notes := [ Text "R² > 0.90 indicates valid diffusive regime" ]
  |} ] in
  Ok results.

Definition verify_cycle_life (cycles : list Z) (retention : list R)
    : result (list VerificationResult) :=
  let results := [] in
  max_cycles <- np_max cycles ;;
  let results := results ++ [ {|
    name := "Maximum Cycle Count";
    expected_value := 1000.0;
    calculated_value := IZR max_cycles;
    tolerance_percent := 0.1;
    unit := "cycles";
    passed := (max_cycles >=? 1000)%Z;
    notes := [ Text "Target: ≥1000 cycles demonstrated" ]
  |} ] in
  idx_1000 <- np_argmin (map (fun c => Z.abs (c - 1000)) cycles) ;;
  retention_at_1000 <- index retention idx_1000 ;;
  let results := results ++ [ {|
    name := "Capacity Retention at 1000 Cycles";
    expected_value := 95.0;
    calculated_value := retention_at_1000;
    tolerance_percent := 1.0;
    unit := "%";
    passed := Rgeb retention_at_1000 95.0;
    notes := [ Text "Target: ≥95% retention at 1000 cycles" ]
  |} ] in
  let retention_diff := np_diff retention in
  let is_monotonic := forallb (fun d => Rleb d 0.1) retention_diff in
  let results := results ++ [ {|
    name := "Monotonic Degradation";
    expected_value := 1.0;
    calculated_value := if is_monotonic then 1.0 else 0.0;
    tolerance_percent := 0.0;
    unit := "(bool)";
    passed := is_monotonic;
    notes := [ Text "No anomalous capacity gains detected" ]
  |} ] in
  let fade_rate := (100.0 - retention_at_1000) / (1000 / 100) in
  let results := results ++ [ {|
    name := "Capacity Fade Rate";
    expected_value := 0.5;
    calculated_value := fade_rate;
    tolerance_percent := 50.0;
    unit := "% / 100 cycles";
    passed := Rltb fade_rate 1.0;
    notes := [ Text "Low fade rate indicates stable architecture" ]
  |} ] in
  Ok results.

Definition verify_critical_pressure : result (list VerificationResult) :=
  let results := [] in
  let K_IC := LLZO_FRACTURE_TOUGHNESS in
  let K_t := STRESS_CONCENTRATION_FACTOR in
  let a := 10e-6 in
  let sigma_critical := K_IC / sqrt (PI * a) in
  let P_critical := sigma_critical / K_t in
  let results := results ++ [ {|
    name := "Critical Pressure Threshold";
    expected_value := 25.0;
    calculated_value := P_critical;
    tolerance_percent := 10.0;
    unit := "MPa";
    passed := Rltb (Rabs (P_critical - 25.0) / 25.0) 0.10;
    notes := [ Text "From σ_crit / K_t = "; Num sigma_critical ".1f";
               Text " / "; Num K_t "" ]
  |} ] in
  let results := results ++ [ {|
    name := "Stress Concentration Factor";
    expected_value := 7.0;
    calculated_value := K_t;
    tolerance_percent := 30.0;
    unit := "";
    passed := Rltb 5.0 K_t && Rltb K_t 10.0;
    notes := [ Text "Literature range: 5-10 for polycrystalline ceramics" ]
  |} ] in
  Ok results.

(** *** The main routine *)

(** The body of the [try] block of [run_full_verification]. *)
Definition load_data_files (fs : Files)
    : result (DendriteData * ConductivityData * (list Z * list R)) :=
  dendrite_data <- load_dendrite_data fs ;;
  conductivity_data <- load_conductivity_data fs ;;
  cycling <- load_cycling_data fs ;;
  Ok (dendrite_data, conductivity_data, cycling).

Definition run_full_verification (verbose : bool) (fs : Files)
    : result (list VerificationResult * bool) :=
  let all_results := [] in
  match load_data_files fs with
  | Raise e => Ok ([], false)
  | Ok (dendrite_data, conductivity_data, (cycles, retention)) =>
      dendrite_results <- verify_dendrite_suppression dendrite_data ;;
      let all_results := all_results ++ dendrite_results in
      conductivity_results <- verify_ionic_conductivity conductivity_data ;;
      let all_results := all_results ++ conductivity_results in
      cycle_results <- verify_cycle_life cycles retention ;;
      let all_results := all_results ++ cycle_results in
      pressure_results <- verify_critical_pressure ;;
      let all_results := all_results ++ pressure_results in
      let passed_count := List.length (filter passed all_results) in
      let total := List.length all_results in
      let all_passed := Nat.eqb passed_count total in
      Ok (all_results, all_passed)
  end.

(** What [generate_verification_report] writes. *)
Record Report : Type := mkReport {
  total_checks : nat;
  passed_checks : nat;
  failed_checks : nat;
  entries : list (nat * VerificationResult)
}.

Definition generate_verification_report (results : list VerificationResult)
    : Report := {|
  total_checks := List.length results;
  passed_checks := List.length (filter passed results);
  failed_checks := List.length (filter (fun r => negb (passed r)) results);
  entries := combine (seq 1 (List.length results)) results
|}.

(** How the script ends: [sys.exit(status)] after the report is written to
    verification_output/verification_report.txt, or an exception nobody
    caught. *)
Inductive outcome : Type :=
| Exit (status : Z) (report : Report)
| Uncaught (e : exn).

Definition main (fs : Files) : outcome :=
  match run_full_verification true fs with
  | Raise e => Uncaught e
  | Ok (results, all_passed) =>
      let report := generate_verification_report results in
      Exit (if all_passed then 0 else 1)%Z report
  end.

(** The exit status of the process; the interpreter ends with status 1 on
    an uncaught exception. *)
Definition exit_status (o : outcome) : Z :=
  match o with
  | Exit status _ => status
  | Uncaught _ => 1
  end.

(** *** Vocabulary of the statements about this script *)

(** The calculated value matches the expected one within the stated
    tolerance: the reading of [passed] the specification gives. *)
Definition within_tolerance (r : VerificationResult) : Prop :=
  Rabs (calculated_value r - expected_value r) / expected_value r
  <= tolerance_percent r / 100.

(** The same with a strict comparison, as the checks against a claimed
    value are written. *)
Definition strictly_within_tolerance (r : VerificationResult) : Prop :=
  Rabs (calculated_value r - expected_value r) / expected_value r
  < tolerance_percent r / 100.

Definition passed_means_within_tolerance (rs : list VerificationResult)
    : Prop :=
  forall r, In r rs -> (passed r = true <-> within_tolerance r).

Definition some_file_missing (fs : Files) : Prop :=
  dendrite_suppression_results_json fs = None
  \/ conductivity_results_json fs = None
  \/ zero_pressure_cycling_csv fs = None.

(** A missing file ends the run by an uncaught exception: what the
    specification says of the suite. *)
Definition missing_file_aborts (fs : Files) : Prop :=
  some_file_missing fs -> exists e, main fs = Uncaught e.

(** One of the five divisors the checks read from the JSON files is 0. *)
Definition zero_divisor (d : DendriteData) (c : ConductivityData) : Prop :=
  max_deflection_nm (genesis_case_results d) = 0
  \/ improvement_metrics_dendrite_suppression_factor d = 0
  \/ simulation_parameters_volume_nm3 c = 0
  \/ results_ionic_conductivity_temperature_K c = 0
  \/ results_ionic_conductivity_value c = 0.

Definition no_files : Files := {|
  dendrite_suppression_results_json := None;
  conductivity_results_json := None;
  zero_pressure_cycling_csv := None
|}.

(** A cycling table that runs to 2000 cycles. *)
Definition sample_cycles : list Z := [0; 1000; 2000]%Z.
Definition sample_retention : list R := [100.0; 96.2; 91.6].

(** A data room on which every check passes. *)
Definition sample_dendrite : DendriteData := {|
  baseline_case_results :=
    {| max_deflection_nm := 127.0; dendrite_penetration_percent := 100.0 |};
  genesis_case_results :=
    {| max_deflection_nm := 10.0; dendrite_penetration_percent := 15.0 |};
  improvement_metrics_dendrite_suppression_factor := 12.7
|}.

Definition sample_conductivity : ConductivityData := {|
  results_diffusion_coefficient_value := 3.474e-13;
  results_ionic_conductivity_temperature_K := 300;
  results_ionic_conductivity_value := 0.5485;
  simulation_parameters_composition_lithium := 448;
  simulation_parameters_volume_nm3 := 17.576;
  results_msd_analysis_r_squared := 0.99
|}.

Definition sample_files : Files := {|
  dendrite_suppression_results_json := Some sample_dendrite;
  conductivity_results_json := Some sample_conductivity;
  zero_pressure_cycling_csv :=
    Some [ SkippedRow; SkippedRow;
           DataRow 0 100.0; DataRow 1000 96.2; DataRow 2000 91.6 ]
|}.

(** A table of five rows, and conversions that read its cells. *)
Definition sample_reader : list (list string) :=
  [ ["# zero-pressure cycling"]; []; ["cycle"; "capacity"; "retention"];
    ["0"; "1.00"; "100.0"]; ["1000"; "0.96"; "96.2"] ].

Definition sample_int_of (s : string) : result Z :=
  if String.eqb s "0" then Ok 0%Z
  else if String.eqb s "1000" then Ok 1000%Z
  else Raise ValueError.

Definition sample_float_of (s : string) : result R :=
  if String.eqb s "100.0" then Ok 100.0
  else if String.eqb s "96.2" then Ok 96.2
  else Raise ValueError.

End Verification.

(** ** born_solvation_quantum_sieve.py: the profile and the selectivity *)

(** [np.argmin(a)] on a float array: the first index of the least element. *)
Fixpoint argmin_from_R (best_i : nat) (best : R) (i : nat) (a : list R) : nat :=
  match a with
  | [] => best_i
  | x :: a' =>
      if Rltb x best then argmin_from_R i x (S i) a'
      else argmin_from_R best_i best (S i) a'
  end.

Definition np_argmin_R (a : list R) : result nat :=
  match a with
  | [] => Raise ValueError
  | x :: a' => Ok (argmin_from_R 0 x 1 a')
  end.

(** [enumerate(l)]. *)
Definition enumerate {A : Type} (l : list A) : list (nat * A) :=
  combine (seq 0 (List.length l)) l.

Definition is_some {A : Type} (o : option A) : bool :=
  match o with Some _ => true | None => false end.

(** A lookup [d[key]] that comes before everything else a function does:
    the value found, or the KeyError. *)
Inductive lookup (A : Type) : Type :=
| Found (a : A)
| KeyError (key : string).
Arguments Found {A} a.
Arguments KeyError {A} key.

Fixpoint dict_get {A : Type} (d : list (string * A)) (key : string)
    : option A :=
  match d with
  | [] => None
  | (k, v) :: d' => if String.eqb k key then Some v else dict_get d' key
  end.

Module Sieve.
Import Born.

(** The entry of one species in [results["species"]].  An entry of the
    profile is [None] where the pore is sterically blocked; a barrier that
    the script writes as the text "INFINITE", and a pore it writes as
    "NEVER", are [None] here. *)
Record SpeciesResult : Type := mkSpeciesResult {
  s_name : string;
  s_formula : string;
  s_bare_radius_nm : R;
  s_solvated_radius_nm : R;
  s_charge : Z;
  s_coordination_number : Z;
  lit_hydration_enthalpy_kJ_mol : R;
  barrier_at_0_7nm_kJ_mol : option R;
  min_passable_pore_nm : option R;
  status_at_0_7nm : string;
  enthalpy_profile_kJ_mol : list (option R)
}.

Record ProfileResults : Type := mkProfileResults {
  pore_diameters_nm : list R;
  species : list (string * SpeciesResult)
}.

(** What the inner loop appends for one pore. *)
Definition profile_entry (dH : xfloat) : option R :=
  match dH with
  | PosInf => None
  | Finite h => Some (py_round h 2)
  end.

(** The body of the loop over [SPECIES.items()]. *)
Definition species_entry
    (key : string) (ion : IonSpecies) (pore_range_nm : list R)
    (epsilon_bulk : R) : result SpeciesResult :=
  dHs <- mapM (fun d => dehydration_enthalpy d ion epsilon_bulk)
              pore_range_nm ;;
  let profile := map profile_entry dHs in
  let passable_indices :=
    map fst (filter (fun iv => is_some (snd iv)) (enumerate profile)) in
  min_pore <- match passable_indices with
              | i0 :: _ =>
                  min_pore <- index pore_range_nm i0 ;;
                  p0 <- index pore_range_nm i0 ;;
                  barrier_at_07 <- (if Rleb p0 0.71
                                    then v <- index profile i0 ;; Ok v
                                    else Ok None) ;;
                  Ok (Finite min_pore)
              | [] => Ok PosInf
              end ;;
  idx_07 <- np_argmin_R (map (fun d => Rabs (d - 0.70)) pore_range_nm) ;;
  barrier_at_critical <- index profile idx_07 ;;
  let bare_diameter := 2.0 * bare_radius_nm ion in
  let solvated_diameter := 2.0 * solvated_radius_nm ion in
  let status :=
    if Rltb bare_diameter 0.70
       && match barrier_at_critical with
          | None => true
          | Some b => Rgtb b 200
          end
    then "BLOCKED (steric)"
    else if Rltb bare_diameter 0.70
            && match barrier_at_critical with
               | None => false
               | Some b => Rltb b 50
               end
    then "PASSES (low barrier)"
    else if Rltb bare_diameter 0.70 && is_some barrier_at_critical
    then "PARTIALLY BLOCKED (energetic)"
    else "BLOCKED (steric)" in
  let status :=
    if (String.eqb key "Li+" || String.eqb key "Na+")
       && Rltb bare_diameter 0.70
    then "PASSES" else status in
  Ok {| s_name := name ion;
        s_formula := formula ion;
        s_bare_radius_nm := bare_radius_nm ion;
        s_solvated_radius_nm := solvated_radius_nm ion;
        s_charge := charge ion;
        s_coordination_number := coordination_number ion;
        lit_hydration_enthalpy_kJ_mol := hydration_enthalpy_kJ_mol ion;
        barrier_at_0_7nm_kJ_mol := barrier_at_critical;
        min_passable_pore_nm :=
          match min_pore with
          | Finite m => Some (py_round m 3)
          | PosInf => None
          end;
        status_at_0_7nm := status;
        enthalpy_profile_kJ_mol := profile |}.

(** [pore_range_nm = None] stands for the default argument. *)
Definition compute_dehydration_profile
    (pore_range_nm : option (list R)) (epsilon_bulk : R)
    : result ProfileResults :=
  let pore_range_nm :=
    match pore_range_nm with
    | None => np_linspace 0.3 3.0 500
    | Some a => a
    end in
  (* the banner formats [pore_range_nm[0]] and [pore_range_nm[-1]] *)
  _ <- index pore_range_nm 0 ;;
  _ <- index (rev pore_range_nm) 0 ;;
  entries <- mapM (fun '(key, ion) =>
                     e <- species_entry key ion pore_range_nm epsilon_bulk ;;
                     Ok (key, e))
                  SPECIES ;;
  Ok {| pore_diameters_nm := pore_range_nm; species := entries |}.

(** *** compute_selectivity *)

(** A piece of a formatted string. *)
Inductive spiece : Type :=
| SText (s : string)
| SFloat (x : R) (format_spec : string)
| SInt (k : Z).

Record SelectivityEntry : Type := mkSelectivityEntry {
  e_name : string;
  barrier_kJ_mol : list spiece;
  selectivity_value : xfloat;
  selectivity : list spiece;
  status : string
}.

Record SelectivityResults : Type := mkSelectivityResults {
  target_pore_nm : R;
  temperature_K : R;
  RT_kJ_mol : R;
  Li_barrier_kJ_mol : R;
  species_selectivity : list (string * SelectivityEntry)
}.

Definition T_selectivity : R := 300.0.
Definition RT : R := K_B * T_selectivity * N_A / 1000.

(** [int(x)]: truncation toward zero. *)
Definition py_int (x : R) : Z :=
  if Rle_dec 0 x then Int_part x else (- Int_part (- x))%Z.

(** The body of the loop over [results["species"].items()], for a barrier
    already read from the profile.  [selectivity_value] is the local
    variable [selectivity], which the script computes and does not store.
    [li_barrier if li_barrier else 0] is [li_barrier]: the only falsy
    float is 0.0. *)
Definition selectivity_entry
    (species_name : string) (barrier : option R) (li_barrier : R)
    : SelectivityEntry :=
  let '(selectivity, selectivity_str, status) :=
    match barrier with
    | None => (PosInf, [SText "INFINITE"], "⛔ BLOCKED")
    | Some barrier =>
        let delta_barrier := barrier - li_barrier in
        if Rgtb delta_barrier 100 then
          (PosInf,
           [SText ">10^"; SInt (py_int (delta_barrier / (2.303 * RT)))],
           "⛔ BLOCKED")
        else if Rgtb delta_barrier 20 then
          let selectivity := exp (delta_barrier / RT) in
          (Finite selectivity, [SFloat selectivity ".1e"], "⛔ BLOCKED")
        else if Rgtb delta_barrier 5 then
          let selectivity := exp (delta_barrier / RT) in
          (Finite selectivity, [SFloat selectivity ".0f"; SText ":1"],
           "⚠ PARTIAL")
        else (Finite 1.0, [SText "1:1 (passes)"], "✅ PASS")
    end in
  let barrier_str :=
    match barrier with
    | Some b => [SFloat b ".1f"]
    | None => [SText "INFINITE"]
    end in
  {| e_name := species_name;
     barrier_kJ_mol := barrier_str;
     selectivity_value := selectivity;
     selectivity := selectivity_str;
     status := status |}.

Definition compute_selectivity (results : ProfileResults) (target_pore_nm : R)
    : lookup (result SelectivityResults) :=
  match dict_get (species results) "Li+" with
  | None => KeyError "Li+"
  | Some li_data =>
      Found (
        let pore_array := pore_diameters_nm results in
        idx <- np_argmin_R (map (fun d => Rabs (d - target_pore_nm))
                                pore_array) ;;
        li_barrier <- index (enthalpy_profile_kJ_mol li_data) idx ;;
        let li_barrier :=
          match li_barrier with
          | None => 0.0
          | Some b => b
          end in
        entries <- mapM (fun '(key, species_data) =>
                           barrier <- index (enthalpy_profile_kJ_mol
                                               species_data) idx ;;
                           Ok (key, selectivity_entry (s_name species_data)
                                      barrier li_barrier))
                        (species results) ;;
        Ok {| target_pore_nm := target_pore_nm;
              temperature_K := T_selectivity;
              RT_kJ_mol := py_round RT 3;
              Li_barrier_kJ_mol := li_barrier;
              species_selectivity := entries |})
  end.

(** *** Vocabulary of the statements about this script *)

(** The pore is narrower than 0.8 x the solvated diameter of the ion. *)
Definition blocked (ion : IonSpecies) (d : R) : Prop :=
  d < 0.8 * (2 * solvated_radius_nm ion).

(** How an entry of the profile relates to its pore. *)
Definition entry_of (ion : IonSpecies) (eb d : R) (v : option R) : Prop :=
  (blocked ion d /\ v = None)
  \/ (~ blocked ion d
      /\ exists h, dehydration_enthalpy d ion eb = Ok (Finite h)
                   /\ v = Some (py_round h 2)).

(** The order on selectivities, with the infinite one on top. *)
Definition xle (x y : xfloat) : Prop :=
  match x, y with
  | _, PosInf => True
  | Finite a, Finite b => a <= b
  | PosInf, Finite _ => False
  end.

End Sieve.

(** * Properties *)

(** ** The array helpers on small inputs *)

Example np_max_example : np_max [0; 1000; 2000]%Z = Ok 2000%Z.
Proof. reflexivity. Qed.

Example np_max_empty : np_max [] = Raise ValueError.
Proof. reflexivity. Qed.

Example np_argmin_first_of_ties : np_argmin [3; 1; 2; 1]%Z = Ok 1%nat.
Proof. reflexivity. Qed.

Example np_diff_example (x y z : R) : np_diff [x; y; z] = [y - x; z - y].
Proof. reflexivity. Qed.

Example mask_select_example (x y z : R) :
  mask_select [x; y; z] [true; false; true] = [x; z].
Proof. reflexivity. Qed.

Example mask_assign_example (x y z u v : R) :
  mask_assign [x; y; z] [true; false; true] [u; v] = Ok [u; y; v].
Proof. reflexivity. Qed.

Example mask_assign_too_few (x y z u : R) :
  mask_assign [x; y; z] [true; false; true] [u] = Raise ValueError.
Proof. reflexivity. Qed.

Example read_rows_example :
  Verification.read_rows
    [ Verification.SkippedRow; Verification.DataRow 0 100;
      Verification.DataRow 50 99 ] [] []
  = Ok ([0; 50]%Z, [100; 99]).
Proof. reflexivity. Qed.

(** ** Comparisons and division *)

Lemma Rltb_true (x y : R) : Rltb x y = true <-> x < y.
Proof. unfold Rltb. destruct (Rlt_dec x y); split; intros; try easy. Qed.

Lemma Rltb_false (x y : R) : Rltb x y = false <-> y <= x.
Proof.
  unfold Rltb. destruct (Rlt_dec x y); split; intros; try easy; lra.
Qed.

Lemma Rleb_true (x y : R) : Rleb x y = true <-> x <= y.
Proof. unfold Rleb. destruct (Rle_dec x y); split; intros; try easy. Qed.

Lemma Rleb_false (x y : R) : Rleb x y = false <-> y < x.
Proof.
  unfold Rleb. destruct (Rle_dec x y); split; intros; try easy; lra.
Qed.

Lemma truediv_ok (x y : R) : y <> 0 -> truediv x y = Ok (x / y).
Proof. intros H. unfold truediv. destruct (Req_dec_T y 0); congruence. Qed.

Section BornEnergy.
Import Born.

(** The value on the formula branch, with the script's own names. *)
Lemma born_formula_branch (z : Z) (r_eff_m epsilon_r : R) :
  0 < r_eff_m -> 0 < epsilon_r ->
  born_solvation_energy z r_eff_m epsilon_r
  = Ok (- (N_A * IZR (z ^ 2) * E_CHARGE ^ 2) / (8 * PI * EPSILON_0 * r_eff_m)
        * (1 - 1 / epsilon_r) * J_TO_KJ).
Proof.
  intros Hr He. unfold born_solvation_energy.
  assert (G : Rleb r_eff_m 0 || Rleb epsilon_r 0 = false).
  { apply orb_false_iff. split; apply Rleb_false; assumption. }
  rewrite G.
  pose proof PI_RGT_0 as Hpi.
  rewrite truediv_ok.
  2:{ assert (0 < 8 * PI * EPSILON_0) by (unfold EPSILON_0; lra).
      apply Rgt_not_eq, Rmult_gt_0_compat; lra. }
  cbn [bind]. rewrite truediv_ok by lra. cbn [bind].
  replace 1.0 with 1 by lra. reflexivity.
Qed.

(** C4: with a non-positive radius or a non-positive dielectric constant
    the function returns 0.0, for every charge, and raises nothing; this
    guard is its only branch beside the formula. *)
Theorem born_guard_returns_zero (z : Z) (r_eff_m epsilon_r : R) :
  (r_eff_m <= 0 \/ epsilon_r <= 0 ->
   born_solvation_energy z r_eff_m epsilon_r = Ok 0)
  /\ (~ (r_eff_m <= 0 \/ epsilon_r <= 0) ->
      born_solvation_energy z r_eff_m epsilon_r
      = Ok (- (N_A * IZR (z ^ 2) * E_CHARGE ^ 2)
            / (8 * PI * EPSILON_0 * r_eff_m)
            * (1 - 1 / epsilon_r) * J_TO_KJ)).
Proof.
  split.
  - intros H. unfold born_solvation_energy.
    assert (G : Rleb r_eff_m 0 || Rleb epsilon_r 0 = true).
    { apply orb_true_iff. destruct H as [H | H]; [left | right];
        now apply Rleb_true. }
    rewrite G. f_equal. lra.
  - intros H. apply born_formula_branch; lra.
Qed.

Lemma born_guard_returns_zero_witness :
  born_solvation_energy 1 (-1) 30 = Ok 0
  /\ born_solvation_energy 2 (0.076 * NM_TO_M) 0 = Ok 0.
Proof.
  split.
  - apply (born_guard_returns_zero 1 (-1) 30). left. lra.
  - apply (born_guard_returns_zero 2 (0.076 * NM_TO_M) 0). right. lra.
Defined.

(** C3: for a positive radius and a positive dielectric constant the
    function returns the closed-form Born expression in kJ/mol, with the
    CODATA constants of the script. *)
Theorem born_closed_form (z : Z) (r_eff_m epsilon_r : R) :
  0 < r_eff_m -> 0 < epsilon_r ->
  born_solvation_energy z r_eff_m epsilon_r
  = Ok (- (6.02214076e23 * IZR z ^ 2 * 1.602176634e-19 ^ 2)
        / (8 * PI * 8.854187817e-12 * r_eff_m)
        * (1 - 1 / epsilon_r) * 1e-3).
Proof.
  intros Hr He. rewrite born_formula_branch by assumption.
  unfold N_A, E_CHARGE, EPSILON_0, J_TO_KJ.
  rewrite pow_IZR. change (Z.of_nat 2) with 2%Z. reflexivity.
Qed.

Lemma born_closed_form_witness :
  born_solvation_energy 1 (0.076 * NM_TO_M) 30
  = Ok (- (6.02214076e23 * IZR 1 ^ 2 * 1.602176634e-19 ^ 2)
        / (8 * PI * 8.854187817e-12 * (0.076 * NM_TO_M))
        * (1 - 1 / 30) * 1e-3).
Proof.
  apply (born_closed_form 1 (0.076 * NM_TO_M) 30); unfold NM_TO_M; lra.
Defined.

End BornEnergy.

(** ** The Architecture record and the nucleation probability *)

Section ArchitectureMethods.
Import CycleLife.

(** C8: the two derived methods hand the record back with every field
    unchanged, and what they return is a formula in its fields alone:
    2.0 x the stress concentration factor, and
    0.5 x K_constraint_GPa x 1000 x 0.05^2. *)
Theorem derived_methods_frame (a : Architecture) :
  (let a' := snd (cycling_stress_amplitude_MPa a) in
   name a' = name a
   /\ K_constraint_GPa a' = K_constraint_GPa a
   /\ E_separator_GPa a' = E_separator_GPa a
   /\ porosity a' = porosity a
   /\ contact_area_fraction a' = contact_area_fraction a
   /\ stress_concentration_factor a' = stress_concentration_factor a
   /\ strut_thickness_um a' = strut_thickness_um a
   /\ unit_cell_um a' = unit_cell_um a)
  /\ (let a' := snd (dendrite_barrier_MPa a) in
      name a' = name a
      /\ K_constraint_GPa a' = K_constraint_GPa a
      /\ E_separator_GPa a' = E_separator_GPa a
      /\ porosity a' = porosity a
      /\ contact_area_fraction a' = contact_area_fraction a
      /\ stress_concentration_factor a' = stress_concentration_factor a
      /\ strut_thickness_um a' = strut_thickness_um a
      /\ unit_cell_um a' = unit_cell_um a)
  /\ fst (cycling_stress_amplitude_MPa a) = 2.0 * stress_concentration_factor a
  /\ fst (dendrite_barrier_MPa a) = 0.5 * K_constraint_GPa a * 1000 * 0.05 ^ 2
  /\ (forall b,
        stress_concentration_factor b = stress_concentration_factor a ->
        fst (cycling_stress_amplitude_MPa b)
        = fst (cycling_stress_amplitude_MPa a))
  /\ (forall b,
        K_constraint_GPa b = K_constraint_GPa a ->
        fst (dendrite_barrier_MPa b) = fst (dendrite_barrier_MPa a)).
Proof.
  repeat apply conj; try reflexivity.
  - intros b Hb. cbn [fst cycling_stress_amplitude_MPa]. now rewrite Hb.
  - intros b Hb. cbn [fst dendrite_barrier_MPa]. now rewrite Hb.
Qed.

Lemma derived_methods_frame_witness :
  fst (cycling_stress_amplitude_MPa GENESIS) = 2.0 * 2.0
  /\ fst (dendrite_barrier_MPa GENESIS) = 0.5 * 6.7 * 1000 * 0.05 ^ 2
  /\ snd (dendrite_barrier_MPa (snd (cycling_stress_amplitude_MPa GENESIS)))
     = GENESIS
  /\ fst (dendrite_barrier_MPa BASELINE)
     = fst (dendrite_barrier_MPa
              {| name := "no constraint"; K_constraint_GPa := 0.0;
                 E_separator_GPa := 1; porosity := 0;
                 contact_area_fraction := 1;
                 stress_concentration_factor := 1;
                 strut_thickness_um := 0; unit_cell_um := 0 |}).
Proof.
  destruct (derived_methods_frame GENESIS) as (_ & _ & Hs & Hb & _ & _).
  destruct (derived_methods_frame BASELINE) as (_ & _ & _ & _ & _ & Hk).
  repeat apply conj.
  - exact Hs.
  - exact Hb.
  - reflexivity.
  - symmetry. apply Hk. reflexivity.
Defined.

Lemma barrier_eV_linear (a : Architecture) :
  barrier_eV a = K_constraint_GPa a * (0.5 * 1000 * 0.05 ^ 2 * 1e6 * 13.0e-6
                                       / 6.022e23 / 1.602e-19).
Proof. unfold barrier_eV. cbn [fst dendrite_barrier_MPa]. lra. Qed.

Lemma barrier_eV_sign (a : Architecture) :
  (0 < K_constraint_GPa a -> 0 < barrier_eV a)
  /\ (K_constraint_GPa a = 0 -> barrier_eV a = 0)
  /\ (K_constraint_GPa a <= 0 -> barrier_eV a <= 0).
Proof. rewrite barrier_eV_linear. repeat split; intros; nra. Qed.

Lemma barrier_eV_mono (a1 a2 : Architecture) :
  K_constraint_GPa a1 <= K_constraint_GPa a2 -> barrier_eV a1 <= barrier_eV a2.
Proof. rewrite !barrier_eV_linear. intros; nra. Qed.

Lemma exp_nonpos_le_1 (x : R) : x <= 0 -> exp x <= 1.
Proof.
  intros [H | ->].
  - left. rewrite <- exp_0. now apply exp_increasing.
  - rewrite exp_0. lra.
Qed.

Lemma exp_le_mono (x y : R) : x <= y -> exp x <= exp y.
Proof.
  intros [H | ->].
  - left. now apply exp_increasing.
  - lra.
Qed.

(** Above absolute zero and with a non-negative stiffness the function
    returns [P0] times one Boltzmann factor. *)
Lemma nucleation_probability_value (a : Architecture) (T cd : R) :
  -273.15 < T -> 0 <= K_constraint_GPa a ->
  dendrite_nucleation_probability a T cd
  = Ok (P0 cd * exp (- barrier_eV a / (K_B_EV * (T + 273.15)))).
Proof.
  intros HT HK. unfold dendrite_nucleation_probability.
  cbn [dendrite_barrier_MPa].
  change (0.5 * K_constraint_GPa a * 1000 * 0.05 ^ 2 * 1e6 * 13.0e-6
          / 6.022e23 / 1.602e-19) with (barrier_eV a).
  destruct (barrier_eV_sign a) as (Hpos & Hzero & _).
  unfold Rgtb. destruct (Rltb 0 (barrier_eV a)) eqn:E.
  - rewrite truediv_ok by (unfold K_B_EV; nra). reflexivity.
  - apply Rltb_false in E.
    assert (K_constraint_GPa a = 0) as HK0.
    { destruct HK as [HK | HK]; [specialize (Hpos HK); lra | easy]. }
    rewrite (Hzero HK0). cbn [bind]. f_equal. unfold P0.
    replace (- 0 / (K_B_EV * (T + 273.15))) with 0
      by (unfold K_B_EV; field; lra).
    rewrite exp_0. lra.
Qed.

(** C7 (amended): an architecture of stiffness 0 gets exactly P0, at any
    temperature and current density; above absolute zero and for a
    current density that is not negative, the probability lies in
    [0, P0] and the stiffer architecture gets the smaller or equal
    value. *)
Theorem nucleation_probability_bounds :
  (forall a T cd,
     K_constraint_GPa a = 0 ->
     dendrite_nucleation_probability a T cd = Ok (P0 cd))
  /\ (forall a1 a2 T cd,
        -273.15 < T -> 0 <= cd ->
        0 <= K_constraint_GPa a1 <= K_constraint_GPa a2 ->
        nucleation_bounds a1 a2 T cd).
Proof.
  split.
  { intros a T cd HK. unfold dendrite_nucleation_probability.
    cbn [dendrite_barrier_MPa]. rewrite HK.
    assert (E : Rgtb (0.5 * 0 * 1000 * 0.05 ^ 2 * 1e6 * 13.0e-6
                      / 6.022e23 / 1.602e-19) 0 = false).
    { unfold Rgtb. apply Rltb_false. lra. }
    rewrite E. cbn [bind]. f_equal. unfold P0. lra. }
  intros a1 a2 T cd.
  intros HT Hcd [HK1 HK12].
  assert (HK2 : 0 <= K_constraint_GPa a2) by lra.
  set (kT := K_B_EV * (T + 273.15)).
  assert (HkT : 0 < kT) by (unfold kT, K_B_EV; nra).
  assert (HP0 : 0 <= P0 cd) by (unfold P0; lra).
  exists (P0 cd * exp (- barrier_eV a1 / kT)),
         (P0 cd * exp (- barrier_eV a2 / kT)).
  assert (Hneg : forall a, 0 <= K_constraint_GPa a -> - barrier_eV a / kT <= 0).
  { intros a Ha. destruct (barrier_eV_sign a) as (Hp & Hz & _).
    assert (0 <= barrier_eV a)
      by (destruct Ha as [Ha | Ha]; [left; auto | rewrite Hz; auto; lra]).
    unfold Rdiv. rewrite <- Ropp_mult_distr_l.
    assert (0 < / kT) by now apply Rinv_0_lt_compat.
    nra. }
  assert (Hb : forall a, 0 <= K_constraint_GPa a ->
               0 <= P0 cd * exp (- barrier_eV a / kT) <= P0 cd).
  { intros a Ha. pose proof (exp_pos (- barrier_eV a / kT)).
    pose proof (exp_nonpos_le_1 _ (Hneg a Ha)). nra. }
  repeat split.
  - now apply nucleation_probability_value.
  - now apply nucleation_probability_value.
  - apply Hb, HK1.
  - apply Hb, HK1.
  - apply Hb, HK2.
  - apply Hb, HK2.
  - apply Rmult_le_compat_l; [lra |]. apply exp_le_mono.
    pose proof (barrier_eV_mono a1 a2 HK12).
    assert (0 < / kT) by now apply Rinv_0_lt_compat.
    unfold Rdiv. nra.
  - intros HK0. destruct (barrier_eV_sign a1) as (_ & Hz & _).
    rewrite (Hz HK0).
    replace (- 0 / kT) with 0 by (field; lra).
    rewrite exp_0. lra.
Qed.

Lemma nucleation_probability_bounds_witness :
  nucleation_bounds BASELINE GENESIS 25 1.
Proof.
  apply (proj2 nucleation_probability_bounds BASELINE GENESIS 25 1);
    cbn [K_constraint_GPa BASELINE GENESIS]; lra.
Defined.

(** C7 as stated fails: with current density 0 the function returns 0,
    which is not in the half-open range (0, P0]; and below absolute zero
    the Boltzmann factor exceeds 1, so the value exceeds P0. *)
Lemma nucleation_claim_fails :
  ~ nucleation_claim BASELINE BASELINE 25 0
  /\ ~ nucleation_claim GENESIS GENESIS (-300) 1.
Proof.
  split.
  - intros (p1 & p2 & H1 & _ & [Hp _] & _).
    rewrite nucleation_probability_value in H1
      by (cbn [K_constraint_GPa BASELINE]; lra).
    injection H1 as <-. unfold P0 in Hp. lra.
  - intros (p1 & p2 & H1 & _ & [_ Hp] & _).
    unfold dendrite_nucleation_probability in H1.
    cbn [dendrite_barrier_MPa K_constraint_GPa GENESIS] in H1.
    unfold Rgtb in H1.
    match type of H1 with context [Rltb 0 ?w] =>
      assert (Hw : 0 < w) by lra;
      apply Rltb_true in Hw; rewrite Hw in H1 end.
    rewrite truediv_ok in H1 by (unfold K_B_EV; lra).
    injection H1 as <-.
    match type of Hp with context [exp ?x] =>
      assert (Hx : 0 < x) by (unfold K_B_EV; lra);
      pose proof (exp_ineq1 x (Rgt_not_eq _ _ Hx)) end.
    unfold P0 in Hp. nra.
Qed.

End ArchitectureMethods.

(** ** The cycle-life loop *)

Section CycleLifeLoop.
Import CycleLife.

Variable a : Architecture.
Variables T_celsius C_rate DoD : R.

Lemma float_pow_nonneg (x y v : R) :
  0 <= x -> float_pow x y = Ok v -> 0 <= v.
Proof.
  unfold float_pow. intros Hx H.
  destruct (Rlt_dec 0 x).
  - injection H as <-. left. apply exp_pos.
  - destruct (Req_dec_T x 0); [| lra].
    destruct (Rlt_dec 0 y); [injection H as <-; lra |].
    destruct (Req_dec_T y 0); [injection H as <-; lra | discriminate].
Qed.

Lemma float_pow_total (x y : R) :
  0 <= x -> 0 < y -> exists v, float_pow x y = Ok v.
Proof.
  intros Hx Hy. unfold float_pow.
  destruct (Rlt_dec 0 x); [eauto |].
  destruct (Req_dec_T x 0); [| lra].
  destruct (Rlt_dec 0 y); [eauto | lra].
Qed.

(** The SEI thickness is [sqrt (rate * (n + 1))], in nm, for a rate that
    does not depend on the cycle number. *)
Lemma sei_shape :
  exists rate : result R,
    forall n, sei_growth_per_cycle a n T_celsius C_rate
              = (q <- rate ;; L <- np_sqrt (q * IZR (n + 1)) ;; Ok (L * 1e9)).
Proof.
  exists (q <- truediv 3600 C_rate ;;
          inv_T <- truediv 1 (T_celsius + 273.15) ;;
          p <- float_pow (2.0 * stress_concentration_factor a / 5.0) 1.5 ;;
          Ok (2 * (8e-22 * exp (- (0.35) / K_B_EV * (inv_T - 1 / 298.15))
                   * (1.0 + p)) * (q * 2))).
  intros n. unfold sei_growth_per_cycle.
  destruct (truediv 3600 C_rate) as [q |]; [| reflexivity].
  destruct (truediv 1 (T_celsius + 273.15)) as [inv_T |]; [| reflexivity].
  cbn [bind cycling_stress_amplitude_MPa].
  destruct (float_pow _ 1.5) as [p |]; [| reflexivity].
  cbn [bind]. rewrite <- Rmult_assoc. reflexivity.
Qed.

Lemma sei_nonneg (n : Z) (s : R) :
  sei_growth_per_cycle a n T_celsius C_rate = Ok s -> 0 <= s.
Proof.
  destruct sei_shape as [rate Hs]. rewrite Hs.
  destruct rate as [q |]; [| discriminate]. cbn [bind].
  unfold np_sqrt. destruct (Rle_dec 0 _); [| discriminate]. cbn [bind].
  intros H. injection H as <-.
  pose proof (sqrt_pos (q * IZR (n + 1))). lra.
Qed.

Lemma sei_mono (n : Z) (s s' : R) :
  (0 <= n)%Z ->
  sei_growth_per_cycle a n T_celsius C_rate = Ok s ->
  sei_growth_per_cycle a (n + 1) T_celsius C_rate = Ok s' ->
  s <= s'.
Proof.
  intros Hn. destruct sei_shape as [rate Hs]. rewrite !Hs.
  destruct rate as [q |]; [| discriminate]. cbn [bind].
  unfold np_sqrt.
  destruct (Rle_dec 0 (q * IZR (n + 1))) as [H1 |]; [| discriminate].
  destruct (Rle_dec 0 (q * IZR (n + 1 + 1))) as [H2 |]; [| discriminate].
  cbn [bind]. intros E E'. injection E as <-. injection E' as <-.
  assert (1 <= IZR (n + 1)) by (apply IZR_le; lia).
  assert (IZR (n + 1 + 1) = IZR (n + 1) + 1)
    by (rewrite <- plus_IZR; reflexivity).
  assert (q * IZR (n + 1) <= q * IZR (n + 1 + 1)) by nra.
  pose proof (sqrt_le_1 _ _ H1 H2 H3). lra.
Qed.

(** The fatigue damage is [min((a0 + rate * (n + 1)) / a_critical, 1.0)]
    for a crack growth rate that does not depend on the cycle number and
    is never negative. *)
Lemma fatigue_shape :
  exists rate : result R,
    (forall v, rate = Ok v -> 0 <= v)
    /\ forall n, fatigue_damage_per_cycle a n T_celsius DoD
                 = (v <- rate ;;
                    Ok (Rmin ((5e-6 + v * IZR (n + 1)) / 100e-6) 1.0)).
Proof.
  unfold fatigue_damage_per_cycle. cbn [cycling_stress_amplitude_MPa].
  match goal with |- context [bind ?m _] => exists m end.
  split; [| reflexivity].
  intros v.
  match goal with |- context [Rgtb ?k 0 && Rltb ?k 1.0] => set (dK := k) end.
  destruct (Rgtb dK 0 && Rltb dK 1.0) eqn:Eb.
  - apply andb_true_iff in Eb as [Eb _]. unfold Rgtb in Eb.
    apply Rltb_true in Eb.
    destruct (float_pow _ 15.0) as [p |] eqn:E; [| discriminate].
    cbn [bind]. intros H. injection H as <-.
    apply float_pow_nonneg in E; nra.
  - destruct (Rgeb _ 1.0); intros H; injection H as <-; lra.
Qed.

Lemma fatigue_total (n : Z) :
  exists v, fatigue_damage_per_cycle a n T_celsius DoD = Ok v.
Proof.
  unfold fatigue_damage_per_cycle. cbn [cycling_stress_amplitude_MPa].
  match goal with |- context [Rgtb ?k 0 && Rltb ?k 1.0] => set (dK := k) end.
  destruct (Rgtb dK 0 && Rltb dK 1.0) eqn:E.
  - apply andb_true_iff in E as [E _]. unfold Rgtb in E.
    apply Rltb_true in E.
    destruct (float_pow_total (dK / 1.0) 15.0) as [p Hp]; [nra | lra |].
    rewrite Hp. cbn [bind]. eauto.
  - destruct (Rgeb dK 1.0); cbn [bind]; eauto.
Qed.

Lemma fatigue_bounds (n : Z) (f : R) :
  (0 <= n)%Z ->
  fatigue_damage_per_cycle a n T_celsius DoD = Ok f -> 0 <= f <= 1.
Proof.
  intros Hn. destruct fatigue_shape as (rate & Hr & Hf). rewrite Hf.
  destruct rate as [v |]; [| discriminate]. cbn [bind].
  intros H. injection H as <-.
  specialize (Hr v eq_refl).
  assert (1 <= IZR (n + 1)) by (apply IZR_le; lia).
  assert (0 <= (5e-6 + v * IZR (n + 1)) / 100e-6).
  { apply Rmult_le_pos; [nra | lra]. }
  unfold Rmin. destruct (Rle_dec _ _); lra.
Qed.

Lemma fatigue_mono (n : Z) (f f' : R) :
  (0 <= n)%Z ->
  fatigue_damage_per_cycle a n T_celsius DoD = Ok f ->
  fatigue_damage_per_cycle a (n + 1) T_celsius DoD = Ok f' ->
  f <= f'.
Proof.
  intros Hn. destruct fatigue_shape as (rate & Hr & Hf). rewrite !Hf.
  destruct rate as [v |]; [| discriminate]. cbn [bind].
  intros E E'. injection E as <-. injection E' as <-.
  specialize (Hr v eq_refl).
  assert (IZR (n + 1 + 1) = IZR (n + 1) + 1)
    by (rewrite <- plus_IZR; reflexivity).
  assert ((5e-6 + v * IZR (n + 1)) / 100e-6
          <= (5e-6 + v * IZR (n + 1 + 1)) / 100e-6).
  { apply Rmult_le_compat_r; [lra | nra]. }
  apply Rle_min_compat_r. assumption.
Qed.

Lemma sei_total (n : Z) :
  0 <= stress_concentration_factor a -> 0 < C_rate ->
  T_celsius + 273.15 <> 0 -> (0 <= n)%Z ->
  exists s, sei_growth_per_cycle a n T_celsius C_rate = Ok s.
Proof.
  intros Hk HC HT Hn. unfold sei_growth_per_cycle.
  rewrite truediv_ok by lra. cbn [bind].
  rewrite truediv_ok by assumption.
  cbn [bind cycling_stress_amplitude_MPa].
  destruct (float_pow_total (2.0 * stress_concentration_factor a / 5.0) 1.5)
    as [p Hp]; [lra | lra |].
  rewrite Hp. cbn [bind].
  assert (Hp0 : 0 <= p) by (apply float_pow_nonneg in Hp; lra).
  unfold np_sqrt.
  match goal with |- context [Rle_dec 0 ?x] =>
    destruct (Rle_dec 0 x) as [| Hneg];
      [cbn [bind]; eauto | exfalso; apply Hneg]
  end.
  assert (0 < 3600 / C_rate) by (apply Rdiv_lt_0_compat; lra).
  assert (1 <= IZR (n + 1)) by (apply IZR_le; lia).
  match goal with |- context [exp ?x] => pose proof (exp_pos x) end.
  repeat apply Rmult_le_pos; lra.
Qed.

Lemma nucleation_total (cd : R) :
  T_celsius + 273.15 <> 0 ->
  exists p, dendrite_nucleation_probability a T_celsius cd = Ok p.
Proof.
  intros HT. unfold dendrite_nucleation_probability.
  cbn [dendrite_barrier_MPa].
  destruct (Rgtb _ 0); cbn [bind]; [| eauto].
  rewrite truediv_ok; [cbn [bind]; eauto |].
  unfold K_B_EV. nra.
Qed.

(** *** One pass of the loop *)

Lemma loop_body_spec (n : Z) (draw : R) (st st' : LoopState) :
  loop_body a T_celsius C_rate DoD n draw st = Ok st' ->
  exists s f,
    sei_growth_per_cycle a n T_celsius C_rate = Ok s
    /\ fatigue_damage_per_cycle a n T_celsius DoD = Ok f
    /\ (dendrite_events st <= dendrite_events st')%Z
    /\ capacity st' = Rmax 0 (1 - 0.0002 * s - 0.3 * f
                              - 0.02 * IZR (dendrite_events st'))
    /\ capacity_log st' = capacity st' :: capacity_log st.
Proof.
  unfold loop_body.
  destruct (sei_growth_per_cycle a n T_celsius C_rate) as [s |];
    [| discriminate].
  destruct (fatigue_damage_per_cycle a n T_celsius DoD) as [f |];
    [| discriminate].
  destruct (dendrite_nucleation_probability a T_celsius _) as [p |];
    [| discriminate].
  cbn [bind]. intros H. injection H as <-.
  cbn [dendrite_events capacity capacity_log].
  exists s, f. repeat split.
  - destruct (Rltb draw p); lia.
  - f_equal; lra.
Qed.

Lemma loop_body_total (n : Z) (draw : R) (st : LoopState) :
  0 <= stress_concentration_factor a -> 0 < C_rate ->
  T_celsius + 273.15 <> 0 -> (0 <= n)%Z ->
  exists st', loop_body a T_celsius C_rate DoD n draw st = Ok st'.
Proof.
  intros Hk HC HT Hn. unfold loop_body.
  destruct (sei_total n Hk HC HT Hn) as [s ->].
  destruct (fatigue_total n) as [f ->].
  destruct (nucleation_total current_density_mA_cm2_default HT) as [p ->].
  cbn [bind]. eauto.
Qed.

Lemma next_below_initial :
  next_below a T_celsius C_rate DoD 0 initial_state.
Proof.
  intros s f ev Hs Hf Hev. cbn [capacity dendrite_events initial_state] in *.
  apply sei_nonneg in Hs. apply fatigue_bounds in Hf; [| lia].
  apply IZR_le in Hev. apply Rmax_lub; lra.
Qed.

Lemma next_below_step (n : Z) (draw : R) (st st' : LoopState) :
  (0 <= n)%Z ->
  loop_body a T_celsius C_rate DoD n draw st = Ok st' ->
  next_below a T_celsius C_rate DoD (n + 1) st'.
Proof.
  intros Hn Hb s' f' ev' Hs' Hf' Hev'.
  destruct (loop_body_spec _ _ _ _ Hb) as (s & f & Hs & Hf & _ & -> & _).
  pose proof (sei_mono n s s' Hn Hs Hs').
  pose proof (fatigue_mono n f f' Hn Hf Hf').
  apply IZR_le in Hev'.
  apply Rle_max_compat_l. lra.
Qed.

Variable rng : nat -> R.

Lemma for_range_invariant (count : nat) :
  forall (n : Z) (st st_end : LoopState),
    (0 <= n)%Z ->
    (0 <= dendrite_events st)%Z ->
    next_below a T_celsius C_rate DoD n st ->
    log_ok (capacity_log st) ->
    capacity st = hd 1.0 (capacity_log st) ->
    for_range a T_celsius C_rate DoD rng count n st = Ok st_end ->
    log_ok (capacity_log st_end)
    /\ capacity st_end = hd 1.0 (capacity_log st_end)
    /\ (List.length (capacity_log st) <= List.length (capacity_log st_end))%nat
    /\ (count <> O -> capacity_log st_end <> capacity_log st).
Proof.
  induction count as [| count IH]; intros n st st_end Hn Hev Hnext Hlog Hcap.
  - cbn [for_range]. intros H. injection H as <-.
    repeat split; auto.
  - cbn [for_range].
    destruct (loop_body a T_celsius C_rate DoD n (rng (Z.to_nat n)) st)
      as [st' |] eqn:Hb; [| discriminate].
    cbn [bind].
    destruct (loop_body_spec _ _ _ _ Hb) as (s & f & Hs & Hf & Hev' & Hc & Hl).
    assert (Hlog' : log_ok (capacity_log st')).
    { rewrite Hl. cbn [log_ok]. repeat split.
      - rewrite Hc. apply Rmax_l.
      - rewrite Hc. apply sei_nonneg in Hs. apply fatigue_bounds in Hf; [| lia].
        assert (0 <= IZR (dendrite_events st')) by (apply IZR_le; lia).
        apply Rmax_lub; lra.
      - rewrite <- Hcap, Hc. apply (Hnext s f _ Hs Hf Hev').
      - assumption. }
    assert (Hcap' : capacity st' = hd 1.0 (capacity_log st')).
    { rewrite Hl. reflexivity. }
    assert (Hneq : capacity_log st' <> capacity_log st).
    { rewrite Hl. intros E. apply (f_equal (@List.length R)) in E.
      cbn [List.length] in E. lia. }
    assert (Hlen : (List.length (capacity_log st)
                    <= List.length (capacity_log st'))%nat).
    { rewrite Hl. cbn [List.length]. lia. }
    destruct (Rltb (capacity st') 0.70).
    + intros H. injection H as <-. auto.
    + intros H.
      destruct (IH (n + 1)%Z st' st_end) as (H1 & H2 & H3 & H4);
        try assumption; try lia.
      { eapply next_below_step; eassumption. }
      repeat split; try assumption; try lia.
      intros _ E. rewrite E in H3. rewrite Hl in H3.
      cbn [List.length] in H3. lia.
Qed.

Lemma for_range_total (count : nat) :
  0 <= stress_concentration_factor a -> 0 < C_rate ->
  T_celsius + 273.15 <> 0 ->
  forall (n : Z) (st : LoopState),
    (0 <= n)%Z ->
    exists st_end, for_range a T_celsius C_rate DoD rng count n st = Ok st_end.
Proof.
  intros Hk HC HT. induction count as [| count IH]; intros n st Hn.
  - cbn [for_range]. eauto.
  - cbn [for_range].
    destruct (loop_body_total n (rng (Z.to_nat n)) st Hk HC HT Hn) as [st' ->].
    cbn [bind]. destruct (Rltb (capacity st') 0.70); [eauto |].
    apply IH. lia.
Qed.

End CycleLifeLoop.

(** C5: in every run of the simulation loop the accumulator [capacity],
    which starts at 1.0, lies in [0, 1] at the end of every pass and is at
    most its value at the end of the pass before; with [n_cycles >= 1] at
    least one pass is made. *)
Theorem capacity_bounded_nonincreasing
    (a : CycleLife.Architecture) (n_cycles : Z) (T_celsius C_rate DoD : R)
    (rng : nat -> R) (st : CycleLife.LoopState) :
  CycleLife.run_loop a n_cycles T_celsius C_rate DoD rng = Ok st ->
  CycleLife.log_ok (CycleLife.capacity_log st)
  /\ CycleLife.capacity st = hd 1.0 (CycleLife.capacity_log st)
  /\ ((1 <= n_cycles)%Z -> CycleLife.capacity_log st <> []).
Proof.
  unfold CycleLife.run_loop. intros H.
  destruct (for_range_invariant a T_celsius C_rate DoD rng
              (Z.to_nat n_cycles) 0 CycleLife.initial_state st)
    as (H1 & H2 & _ & H4); try assumption.
  - lia.
  - cbn. lia.
  - apply next_below_initial.
  - exact I.
  - reflexivity.
  - repeat split; try assumption.
    intros Hn. apply H4. lia.
Qed.

Lemma capacity_bounded_nonincreasing_witness :
  exists st,
    CycleLife.run_loop CycleLife.GENESIS 2000 25.0 0.33 0.80 (fun _ => 0.5)
    = Ok st
    /\ CycleLife.log_ok (CycleLife.capacity_log st)
    /\ CycleLife.capacity st = hd 1.0 (CycleLife.capacity_log st)
    /\ CycleLife.capacity_log st <> [].
Proof.
  destruct (for_range_total CycleLife.GENESIS 25.0 0.33 0.80 (fun _ => 0.5)
              (Z.to_nat 2000)) with (n := 0%Z) (st := CycleLife.initial_state)
    as [st Hst].
  - cbn. lra.
  - lra.
  - lra.
  - lia.
  - exists st. split; [exact Hst |].
    destruct (capacity_bounded_nonincreasing CycleLife.GENESIS 2000 25.0 0.33
                0.80 (fun _ => 0.5) st Hst) as (H1 & H2 & H3).
    repeat split; try assumption. apply H3. lia.
Defined.

(** ** Dehydration enthalpy *)

Section Dehydration.
Import Born.


(** The Born prefactor is never positive. *)
Lemma born_prefactor_nonpos (z : Z) (r : R) :
  0 < r ->
  - (N_A * IZR (z ^ 2) * E_CHARGE ^ 2) / (8 * PI * EPSILON_0 * r) <= 0.
Proof.
  intros Hr. pose proof PI_RGT_0 as Hpi.
  assert (0 <= IZR (z ^ 2)) by (apply IZR_le; nia).
  assert (0 <= N_A * IZR (z ^ 2) * E_CHARGE ^ 2).
  { assert (0 < N_A) by (unfold N_A; lra).
    assert (0 < E_CHARGE ^ 2) by (unfold E_CHARGE; lra).
    apply Rmult_le_pos; [apply Rmult_le_pos |]; lra. }
  assert (0 < 8 * PI * EPSILON_0 * r).
  { assert (0 < 8 * PI * EPSILON_0) by (unfold EPSILON_0; lra).
    apply Rmult_lt_0_compat; lra. }
  unfold Rdiv. rewrite <- Ropp_mult_distr_l.
  assert (0 < / (8 * PI * EPSILON_0 * r)) by now apply Rinv_0_lt_compat.
  nra.
Qed.



End Dehydration.

(** ** The two Weibull curves *)

Section Weibull.

Lemma mapM_pointwise {A B : Type} (g : A -> result B) (f : A -> B)
    (l : list A) :
  (forall x, In x l -> g x = Ok (f x)) -> mapM g l = Ok (map f l).
Proof.
  induction l as [| x l IH]; intros H; [reflexivity |].
  cbn [mapM map]. rewrite (H x) by (left; reflexivity). cbn [bind].
  rewrite IH by (intros y Hy; apply H; right; exact Hy). reflexivity.
Qed.

(** The power the scripts take, on the bases they can meet. *)
Lemma float_pow_3_5 (x : R) : 0 <= x -> float_pow x 3.5 = Ok (pow_3_5 x).
Proof.
  intros Hx. unfold float_pow, pow_3_5.
  destruct (Rlt_dec 0 x).
  - destruct (Req_dec_T x 0); [lra | reflexivity].
  - destruct (Req_dec_T x 0); [| lra].
    destruct (Rlt_dec 0 3.5); [reflexivity | lra].
Qed.

Lemma weibull_percent_below (sigma : R) :
  sigma <= 15 -> weibull_percent sigma = 0.
Proof.
  intros H. unfold weibull_percent.
  rewrite Rmax_right by lra.
  replace (0 / 25) with 0 by lra.
  unfold pow_3_5. destruct (Req_dec_T 0 0); [| lra].
  rewrite Ropp_0, exp_0. lra.
Qed.

(** Selecting by a mask, computing, and writing back under the same mask
    is a conditional map. *)
Lemma mask_roundtrip (test : R -> bool) (h : R -> R) (pressure : list R) :
  mask_assign (np_zeros_like pressure) (map test pressure)
    (map h (mask_select pressure (map test pressure)))
  = Ok (map (fun p => if test p then h p else 0) pressure).
Proof.
  induction pressure as [| p l IH]; [reflexivity |].
  cbn [np_zeros_like map mask_select mask_assign] in *.
  destruct (test p); cbn [map]; unfold np_zeros_like in IH; rewrite IH;
    reflexivity.
Qed.

Lemma mask_select_In (test : R -> bool) (pressure : list R) (x : R) :
  In x (mask_select pressure (map test pressure)) -> test x = true.
Proof.
  induction pressure as [| p l IH]; cbn [map mask_select]; [easy |].
  destruct (test p) eqn:E; [| exact IH].
  intros [<- | H]; [exact E | exact (IH H)].
Qed.

Lemma plots_curve (pressure : list R) :
  Plots.failure_prob_of pressure = Ok (map weibull_percent pressure).
Proof.
  unfold Plots.failure_prob_of.
  rewrite (mapM_pointwise _ (fun p => pow_3_5 (Rmax (p - 15.0) 0 / 25.0))).
  2:{ intros p _. apply float_pow_3_5.
      pose proof (Rmax_r (p - 15.0) 0). lra. }
  cbn [bind]. rewrite !map_map. f_equal.
  apply map_ext. intros p. unfold weibull_percent.
  replace 15.0 with 15 by lra. replace 25.0 with 25 by lra. lra.
Qed.

Lemma figures_curve (pressure : list R) :
  Figures.failure_prob_of pressure = Ok (map weibull_percent pressure).
Proof.
  unfold Figures.failure_prob_of.
  rewrite (mapM_pointwise _ (fun p => pow_3_5 ((p - 15.0) / 25.0))).
  2:{ intros p Hp. apply mask_select_In in Hp. unfold Rgtb in Hp.
      apply Rltb_true in Hp. apply float_pow_3_5. lra. }
  cbn [bind]. rewrite map_map, mask_roundtrip. cbn [bind].
  rewrite map_map. f_equal. apply map_ext. intros p.
  unfold Rgtb. destruct (Rltb 15.0 p) eqn:E.
  - apply Rltb_true in E. unfold weibull_percent.
    rewrite Rmax_left by lra.
    replace 15.0 with 15 by lra. replace 25.0 with 25 by lra. lra.
  - apply Rltb_false in E. rewrite weibull_percent_below by lra. lra.
Qed.

(** C9: on every pressure array the curve of generate_plots.py (clip) and
    the curve of generate_all_figures.py (mask) are the same array, namely
    100 x (1 - exp(-(max(sigma - 15, 0) / 25)^3.5)) at each pressure sigma,
    which is 0 wherever sigma <= 15. *)
Theorem weibull_curves_agree (pressure : list R) :
  Plots.failure_prob_of pressure = Ok (map weibull_percent pressure)
  /\ Figures.failure_prob_of pressure = Ok (map weibull_percent pressure)
  /\ Plots.failure_prob_of pressure = Figures.failure_prob_of pressure
  /\ Plots.plot_failure_probability = Figures.generate_pressure_failure_curve
  /\ (forall sigma, sigma <= 15 -> weibull_percent sigma = 0).
Proof.
  repeat split.
  - apply plots_curve.
  - apply figures_curve.
  - now rewrite plots_curve, figures_curve.
  - unfold Plots.plot_failure_probability,
      Figures.generate_pressure_failure_curve.
    now rewrite plots_curve, figures_curve.
  - apply weibull_percent_below.
Qed.

Lemma weibull_curves_agree_witness :
  Plots.failure_prob_of [0; 15; 40] = Figures.failure_prob_of [0; 15; 40]
  /\ Figures.failure_prob_of [0; 15; 40]
     = Ok [0; 0; weibull_percent 40]
  /\ weibull_percent 15 = 0.
Proof.
  destruct (weibull_curves_agree [0; 15; 40]) as (_ & Hf & Heq & _ & Hz).
  repeat apply conj.
  - exact Heq.
  - rewrite Hf. cbn [map]. now rewrite !Hz by lra.
  - apply Hz. lra.
Defined.

End Weibull.

(** ** The verification suite *)

Lemma truediv_inv (x y q : R) : truediv x y = Ok q -> y <> 0 /\ q = x / y.
Proof.
  unfold truediv. destruct (Req_dec_T y 0); [discriminate |].
  intros H. injection H as <-. auto.
Qed.

Section VerificationChecks.
Import Verification.

(** The run of the cycle-life checks on the sample table. *)
Lemma sample_cycle_life_run :
  exists r2 r3 r4,
    verify_cycle_life sample_cycles sample_retention
    = Ok [ {| name := "Maximum Cycle Count";
              expected_value := 1000.0;
              calculated_value := 2000;
              tolerance_percent := 0.1;
              unit := "cycles";
              passed := true;
              notes := [ Text "Target: ≥1000 cycles demonstrated" ] |};
           r2; r3; r4 ].
Proof.
  unfold verify_cycle_life, sample_cycles, sample_retention.
  cbn [np_max fold_left bind map np_argmin].
  change (argmin_from 0 (Z.abs (0 - 1000)) 1
            [Z.abs (1000 - 1000); Z.abs (2000 - 1000)]) with 1%nat.
  change (Z.max (Z.max 0 1000) 2000) with 2000%Z.
  cbn [index nth_error bind app].
  change (2000 >=? 1000)%Z with true.
  do 3 eexists. reflexivity.
Qed.

(** C1 as stated fails: on a cycling table that reaches 2000 cycles the
    check "Maximum Cycle Count" passes (2000 >= 1000) although 2000 is
    not within 0.1 % of the expected 1000. *)
Lemma passed_is_not_tolerance :
  ~ (forall rs,
       verify_cycle_life sample_cycles sample_retention = Ok rs ->
       passed_means_within_tolerance rs).
Proof.
  intros H. destruct sample_cycle_life_run as (r2 & r3 & r4 & Hrun).
  specialize (H _ Hrun _ (or_introl eq_refl)).
  destruct H as [H _]. specialize (H eq_refl).
  unfold within_tolerance in H.
  cbn [calculated_value expected_value tolerance_percent] in H.
  rewrite Rabs_right in H by lra. lra.
Qed.

(** C1 (amended): the checks against a claimed value pass exactly when
    the relative deviation is strictly below the stated tolerance; every
    other check passes on a threshold or range test of the calculated
    value in which the tolerance plays no part. *)
Theorem passed_flag_meaning :
  (forall data rs,
     verify_dendrite_suppression data = Ok rs ->
     exists r1 r2 r3,
       rs = [r1; r2; r3]
       /\ (passed r1 = true <-> strictly_within_tolerance r1)
       /\ (passed r2 = true <-> strictly_within_tolerance r2)
       /\ (passed r3 = true <-> strictly_within_tolerance r3))
  /\ (forall data rs,
        verify_ionic_conductivity data = Ok rs ->
        exists r1 r2 r3,
          rs = [r1; r2; r3]
          /\ (passed r1 = true <-> strictly_within_tolerance r1)
          /\ (passed r2 = true
              <-> 1e-14 < calculated_value r2 /\ calculated_value r2 < 1e-11)
          /\ (passed r3 = true <-> calculated_value r3 > 0.90))
  /\ (forall cycles retention rs,
        verify_cycle_life cycles retention = Ok rs ->
        exists r1 r2 r3 r4,
          rs = [r1; r2; r3; r4]
          /\ (passed r1 = true <-> calculated_value r1 >= 1000)
          /\ (passed r2 = true <-> calculated_value r2 >= 95.0)
          /\ (passed r3 = true <-> calculated_value r3 = expected_value r3)
          /\ (passed r3 = true
              <-> forall d, In d (np_diff retention) -> d <= 0.1)
          /\ (passed r4 = true <-> calculated_value r4 < 1.0))
  /\ (forall rs,
        verify_critical_pressure = Ok rs ->
        exists r1 r2,
          rs = [r1; r2]
          /\ (passed r1 = true <-> strictly_within_tolerance r1)
          /\ (passed r2 = true
              <-> 5.0 < calculated_value r2 /\ calculated_value r2 < 10.0)).
Proof.
  repeat apply conj.
  - intros data rs. unfold verify_dendrite_suppression.
    destruct (truediv _ _) as [calc |]; [| discriminate]. cbn [bind].
    destruct (truediv _ _) as [rel |] eqn:Erel; [| discriminate]. cbn [bind].
    apply truediv_inv in Erel as [Hnz ->].
    intros H. injection H as <-. cbn [app].
    do 3 eexists. split; [reflexivity |].
    unfold strictly_within_tolerance.
    cbn [passed calculated_value expected_value tolerance_percent].
    rewrite !Rltb_true. repeat split; lra.
  - intros data rs. unfold verify_ionic_conductivity.
    destruct (truediv _ _) as [n |]; [| discriminate]. cbn [bind].
    destruct (truediv _ _) as [sigma |]; [| discriminate]. cbn [bind].
    destruct (truediv _ _) as [rel |] eqn:Erel; [| discriminate]. cbn [bind].
    apply truediv_inv in Erel as [Hnz ->].
    intros H. injection H as <-. cbn [app].
    do 3 eexists. split; [reflexivity |].
    unfold strictly_within_tolerance, Rgtb.
    cbn [passed calculated_value expected_value tolerance_percent].
    rewrite andb_true_iff, !Rltb_true. repeat split; try lra; tauto.
  - intros cycles retention rs. unfold verify_cycle_life.
    destruct (np_max cycles) as [m |]; [| discriminate]. cbn [bind].
    destruct (np_argmin _) as [i |]; [| discriminate]. cbn [bind].
    destruct (index retention i) as [r1000 |]; [| discriminate]. cbn [bind].
    intros H. injection H as <-. cbn [app].
    do 4 eexists. split; [reflexivity |].
    unfold Rgeb.
    cbn [passed calculated_value expected_value].
    rewrite Z.geb_le, Rleb_true, Rltb_true.
    remember (forallb (fun d => Rleb d 0.1) (np_diff retention)) as b eqn:Eb.
    symmetry in Eb.
    repeat split; try lra.
    + intros Hm. apply Rle_ge, IZR_le, Hm.
    + intros Hm. apply le_IZR, Rge_le, Hm.
    + intros ->. reflexivity.
    + destruct b; [reflexivity | lra].
    + intros -> d Hd. rewrite forallb_forall in Eb. apply Rleb_true, Eb, Hd.
    + intros H. rewrite <- Eb. apply forallb_forall.
      intros d Hd. apply Rleb_true, H, Hd.
  - intros rs. unfold verify_critical_pressure.
    intros H. injection H as <-. cbn [app].
    do 2 eexists. split; [reflexivity |].
    unfold strictly_within_tolerance, STRESS_CONCENTRATION_FACTOR.
    cbn [passed calculated_value expected_value tolerance_percent].
    rewrite andb_true_iff, !Rltb_true. repeat split; try lra; tauto.
Qed.

Lemma passed_flag_meaning_witness :
  exists r1 r2 r3 r4,
    verify_cycle_life sample_cycles sample_retention = Ok [r1; r2; r3; r4]
    /\ (passed r1 = true <-> calculated_value r1 >= 1000)
    /\ (passed r4 = true <-> calculated_value r4 < 1.0).
Proof.
  destruct sample_cycle_life_run as (r2 & r3 & r4 & Hrun).
  destruct passed_flag_meaning as (_ & _ & Hcyc & _).
  destruct (Hcyc sample_cycles sample_retention _ Hrun)
    as (q1 & q2 & q3 & q4 & E & H1 & _ & _ & _ & H4).
  exists q1, q2, q3, q4. rewrite Hrun, E. auto.
Defined.

End VerificationChecks.

(** ** The main routine of the suite and its exit status *)

Section VerificationMain.
Import Verification.

(** [passed == total] holds exactly when every check passed. *)
Lemma count_equals_total {A : Type} (f : A -> bool) (l : list A) :
  Nat.eqb (List.length (filter f l)) (List.length l) = true
  <-> forall x, In x l -> f x = true.
Proof.
  rewrite Nat.eqb_eq. induction l as [| x l IH]; cbn [filter List.length In].
  - split; [intros _ y [] | reflexivity].
  - pose proof (filter_length_le f l) as Hle.
    destruct (f x) eqn:E; cbn [List.length].
    + split.
      * intros H y [<- | Hy]; [exact E |].
        apply IH; [lia | exact Hy].
      * intros H. f_equal. apply IH. intros y Hy. apply H. now right.
    + split; [lia |].
      intros H. specialize (H x (or_introl eq_refl)). congruence.
Qed.

Lemma run_after_load (fs : Files) (data : _) (rs : list VerificationResult)
    (all_passed : bool) :
  load_data_files fs = Ok data ->
  run_full_verification true fs = Ok (rs, all_passed) ->
  (all_passed = true <-> forall r, In r rs -> passed r = true).
Proof.
  intros Hload. unfold run_full_verification. rewrite Hload.
  destruct data as [[d c] [cycles retention]].
  destruct (verify_dendrite_suppression d) as [r1 |]; [| discriminate].
  destruct (verify_ionic_conductivity c) as [r2 |]; [| discriminate].
  destruct (verify_cycle_life cycles retention) as [r3 |]; [| discriminate].
  destruct verify_critical_pressure as [r4 |]; [| discriminate].
  cbn [bind]. intros H. injection H as <- <-.
  apply count_equals_total.
Qed.

Lemma run_after_failed_load (fs : Files) (e : exn) :
  load_data_files fs = Raise e ->
  run_full_verification true fs = Ok ([], false).
Proof. intros H. unfold run_full_verification. now rewrite H. Qed.

Lemma missing_file_fails_load (fs : Files) :
  some_file_missing fs -> exists e, load_data_files fs = Raise e.
Proof.
  unfold some_file_missing, load_data_files, load_dendrite_data,
    load_conductivity_data, load_cycling_data.
  destruct (dendrite_suppression_results_json fs) as [d |];
    [| cbn; eauto].
  destruct (conductivity_results_json fs) as [c |]; [| cbn; eauto].
  destruct (zero_pressure_cycling_csv fs) as [rows |]; [| cbn; eauto].
  intros [H | [H | H]]; discriminate.
Qed.

(** C2: the script ends with status 0 or 1, and with 0 exactly when the
    data files were loaded and every check of the aggregate list passed;
    a failed load gives the empty list flagged unsuccessful, and status 1. *)
Theorem exit_status_contract (fs : Files) :
  (exit_status (main fs) = 0 \/ exit_status (main fs) = 1)%Z
  /\ (exit_status (main fs) = 0%Z
      <-> exists data rs all_passed,
            load_data_files fs = Ok data
            /\ run_full_verification true fs = Ok (rs, all_passed)
            /\ forall r, In r rs -> passed r = true)
  /\ (forall e,
        load_data_files fs = Raise e ->
        run_full_verification true fs = Ok ([], false)
        /\ exit_status (main fs) = 1%Z).
Proof.
  repeat apply conj.
  - unfold main. destruct (run_full_verification true fs) as [[rs ap] | e];
      [destruct ap |]; cbn; auto.
  - intros H.
    destruct (load_data_files fs) as [data | e] eqn:Hload.
    + unfold main in H.
      destruct (run_full_verification true fs) as [[rs ap] | e] eqn:Hrun;
        [| discriminate].
      destruct ap; [| discriminate].
      exists data, rs, true. repeat split.
      now apply (run_after_load fs data rs true Hload Hrun).
    + unfold main in H. rewrite (run_after_failed_load fs e Hload) in H.
      discriminate.
  - intros (data & rs & ap & Hload & Hrun & Hall).
    apply (run_after_load fs data rs ap Hload Hrun) in Hall. subst ap.
    unfold main. now rewrite Hrun.
  - intros e Hload. split; [now apply run_after_failed_load with e |].
    unfold main. now rewrite (run_after_failed_load fs e Hload).
Qed.

(** *** A run on which every check passes *)

Lemma Rabs_lt_intro (x b : R) : - b < x < b -> Rabs x < b.
Proof. intros H. apply Rabs_def1; lra. Qed.

Lemma sample_dendrite_passes :
  exists rs,
    verify_dendrite_suppression sample_dendrite = Ok rs
    /\ forall r, In r rs -> passed r = true.
Proof.
  unfold verify_dendrite_suppression, sample_dendrite.
  cbn [max_deflection_nm dendrite_penetration_percent baseline_case_results
       genesis_case_results improvement_metrics_dendrite_suppression_factor].
  repeat (rewrite truediv_ok by lra; cbn [bind]). cbn [app].
  eexists. split; [reflexivity |].
  intros r [<- | [<- | [<- | []]]]; cbn [passed]; apply Rltb_true.
  - replace (127.0 / 10.0 - 12.7) with 0 by lra. rewrite Rabs_R0. lra.
  - replace (100.0 - 15.0 - 85.0) with 0 by lra. rewrite Rabs_R0. lra.
  - unfold FARADAY, LI_MOLAR_VOLUME.
    apply Rmult_lt_reg_r with 370.0; [lra |].
    unfold Rdiv at 1. rewrite Rmult_assoc, Rinv_l, Rmult_1_r by lra.
    apply Rabs_lt_intro. lra.
Qed.

Lemma sample_conductivity_passes :
  exists rs,
    verify_ionic_conductivity sample_conductivity = Ok rs
    /\ forall r, In r rs -> passed r = true.
Proof.
  unfold verify_ionic_conductivity, sample_conductivity.
  cbn [results_diffusion_coefficient_value
       results_ionic_conductivity_temperature_K
       results_ionic_conductivity_value
       simulation_parameters_composition_lithium
       simulation_parameters_volume_nm3 results_msd_analysis_r_squared].
  repeat (rewrite truediv_ok by (unfold BOLTZMANN; lra); cbn [bind]).
  cbn [app].
  eexists. split; [reflexivity |].
  intros r [<- | [<- | [<- | []]]]; cbn [passed].
  - apply Rltb_true. unfold ELEMENTARY_CHARGE, BOLTZMANN.
    apply Rmult_lt_reg_r with 0.5485; [lra |].
    unfold Rdiv at 1. rewrite Rmult_assoc, Rinv_l, Rmult_1_r by lra.
    apply Rabs_lt_intro. lra.
  - apply andb_true_iff. split; apply Rltb_true; lra.
  - unfold Rgtb. apply Rltb_true. lra.
Qed.

Lemma sample_cycle_life_passes :
  exists rs,
    verify_cycle_life sample_cycles sample_retention = Ok rs
    /\ forall r, In r rs -> passed r = true.
Proof.
  unfold verify_cycle_life, sample_cycles, sample_retention.
  cbn [np_max fold_left bind map np_argmin].
  change (argmin_from 0 (Z.abs (0 - 1000)) 1
            [Z.abs (1000 - 1000); Z.abs (2000 - 1000)]) with 1%nat.
  cbn [index nth_error bind app np_diff forallb].
  eexists. split; [reflexivity |].
  intros r [<- | [<- | [<- | [<- | []]]]]; cbn [passed].
  - reflexivity.
  - unfold Rgeb. apply Rleb_true. lra.
  - rewrite !andb_true_iff. repeat split; apply Rleb_true; lra.
  - apply Rltb_true. lra.
Qed.

(** The critical pressure 1 / sqrt(pi x 10 um) / 7 lies between 22.5 and
    27.5 MPa. *)
Lemma critical_pressure_bounds :
  22.5 < LLZO_FRACTURE_TOUGHNESS / sqrt (PI * 10e-6)
         / STRESS_CONCENTRATION_FACTOR < 27.5.
Proof.
  pose proof PI2_3_2 as Hlo. pose proof PI_4 as Hhi.
  assert (Hpos : 0 <= PI * 10e-6) by lra.
  pose proof (sqrt_sqrt _ Hpos) as Hsq.
  pose proof (sqrt_pos (PI * 10e-6)) as Hs0.
  set (s := sqrt (PI * 10e-6)) in *.
  assert (Hs : 0.0052 < s < 0.00633) by (split; nra).
  assert (Ht : / s * s = 1) by (apply Rinv_l; lra).
  assert (Ht0 : 0 < / s) by (apply Rinv_0_lt_compat; lra).
  unfold LLZO_FRACTURE_TOUGHNESS, STRESS_CONCENTRATION_FACTOR, Rdiv.
  set (t := / s) in *. split; nra.
Qed.

Lemma critical_pressure_passes :
  exists rs,
    verify_critical_pressure = Ok rs
    /\ forall r, In r rs -> passed r = true.
Proof.
  unfold verify_critical_pressure. cbn [app].
  eexists. split; [reflexivity |].
  pose proof critical_pressure_bounds as HP.
  intros r [<- | [<- | []]]; cbn [passed].
  - apply Rltb_true.
    apply Rmult_lt_reg_r with 25.0; [lra |].
    unfold Rdiv at 1. rewrite Rmult_assoc, Rinv_l, Rmult_1_r by lra.
    apply Rabs_lt_intro. lra.
  - unfold STRESS_CONCENTRATION_FACTOR.
    apply andb_true_iff. split; apply Rltb_true; lra.
Qed.

Lemma sample_load :
  load_data_files sample_files
  = Ok (sample_dendrite, sample_conductivity,
        (sample_cycles, sample_retention)).
Proof. reflexivity. Qed.

Lemma sample_run :
  exists rs,
    run_full_verification true sample_files = Ok (rs, true)
    /\ forall r, In r rs -> passed r = true.
Proof.
  unfold run_full_verification. rewrite sample_load.
  destruct sample_dendrite_passes as (r1 & -> & H1).
  destruct sample_conductivity_passes as (r2 & -> & H2).
  destruct sample_cycle_life_passes as (r3 & -> & H3).
  destruct critical_pressure_passes as (r4 & -> & H4).
  cbn [bind].
  assert (Hall : forall r, In r (((([] ++ r1) ++ r2) ++ r3) ++ r4) ->
                 passed r = true).
  { intros r Hr. rewrite !in_app_iff in Hr.
    destruct Hr as [[[[[] | Hr] | Hr] | Hr] | Hr]; auto. }
  eexists. split; [| exact Hall].
  do 2 f_equal. now apply count_equals_total.
Qed.

Lemma exit_status_contract_witness :
  exit_status (main sample_files) = 0%Z
  /\ exit_status (main no_files) = 1%Z.
Proof.
  split.
  - apply (exit_status_contract sample_files).
    destruct sample_run as (rs & Hrun & Hall).
    exists (sample_dendrite, sample_conductivity,
            (sample_cycles, sample_retention)), rs, true.
    repeat split; [exact Hrun | exact Hall].
  - apply (exit_status_contract no_files)
      with (e := FileNotFoundError
                   "validation_data/dendrite_suppression_results.json").
    reflexivity.
Defined.

(** C6 as stated fails: with the data files missing the suite still
    returns, and the script ends by [sys.exit], not by an exception. *)
Lemma missing_file_does_not_abort : ~ missing_file_aborts no_files.
Proof.
  intros H. destruct H as [e He].
  - left. reflexivity.
  - discriminate He.
Qed.

(** C6 (amended): a missing data file is caught inside
    [run_full_verification], which returns the empty list flagged
    unsuccessful; the script then writes a report of zero checks and ends
    with status 1. *)
Theorem missing_file_is_caught (fs : Files) :
  some_file_missing fs ->
  run_full_verification true fs = Ok ([], false)
  /\ main fs = Exit 1 (generate_verification_report [])
  /\ total_checks (generate_verification_report []) = 0%nat.
Proof.
  intros H. destruct (missing_file_fails_load fs H) as [e He].
  pose proof (run_after_failed_load fs e He) as Hrun.
  repeat split; [exact Hrun |].
  unfold main. now rewrite Hrun.
Qed.

Lemma missing_file_is_caught_witness :
  run_full_verification true no_files = Ok ([], false)
  /\ main no_files = Exit 1 (generate_verification_report [])
  /\ total_checks (generate_verification_report []) = 0%nat.
Proof.
  apply (missing_file_is_caught no_files). left. reflexivity.
Defined.

End VerificationMain.

(** * Further properties of the scripts *)

(** ** The sigmoid of the confined dielectric constant *)

Section ConfinedDielectric.
Import Born.

Lemma np_clip_mono (x y lo hi : R) :
  x <= y -> np_clip x lo hi <= np_clip y lo hi.
Proof.
  intros H. unfold np_clip.
  apply Rle_min_compat_r, Rle_max_compat_r, H.
Qed.

Lemma sigmoid_range (x : R) : 0 < 1.0 / (1.0 + exp (- x)) < 1.
Proof.
  pose proof (exp_pos (- x)) as He. split.
  - apply Rdiv_lt_0_compat; lra.
  - apply Rmult_lt_reg_r with (1.0 + exp (- x)); [lra |].
    unfold Rdiv. rewrite Rmult_assoc, Rinv_l by lra. lra.
Qed.

Lemma sigmoid_mono (x y : R) :
  x <= y -> 1.0 / (1.0 + exp (- x)) <= 1.0 / (1.0 + exp (- y)).
Proof.
  intros H.
  pose proof (exp_pos (- x)) as Hx. pose proof (exp_pos (- y)) as Hy.
  assert (exp (- y) <= exp (- x)) by (apply exp_le_mono; lra).
  unfold Rdiv. apply Rmult_le_compat_l; [lra |].
  apply Rinv_le_contravar; lra.
Qed.

Lemma confined_value (d eb ev dc w : R) :
  w <> 0 ->
  confined_dielectric_constant d eb ev dc w
  = Ok (ev + (eb - ev)
             * (1.0 / (1.0 + exp (- np_clip ((d - dc) / w) (-50) 50)))).
Proof.
  intros Hw. unfold confined_dielectric_constant.
  now rewrite truediv_ok by assumption.
Qed.

(** X1: with a positive transition width and a vacuum limit not above the
    bulk value, the confined dielectric constant never leaves the interval
    between the two limits and never decreases when the pore widens. *)
Theorem confined_dielectric_monotone (d1 d2 eb ev dc w : R) :
  0 < w -> ev <= eb -> d1 <= d2 ->
  exists e1 e2,
    confined_dielectric_constant d1 eb ev dc w = Ok e1
    /\ confined_dielectric_constant d2 eb ev dc w = Ok e2
    /\ ev <= e1 /\ e1 <= e2 /\ e2 <= eb.
Proof.
  intros Hw Hev Hd.
  rewrite !confined_value by lra.
  do 2 eexists. repeat split; try reflexivity.
  - pose proof (sigmoid_range (np_clip ((d1 - dc) / w) (-50) 50)). nra.
  - apply Rplus_le_compat_l, Rmult_le_compat_l; [lra |].
    apply sigmoid_mono, np_clip_mono.
    apply Rmult_le_compat_r; [| lra].
    left. now apply Rinv_0_lt_compat.
  - pose proof (sigmoid_range (np_clip ((d2 - dc) / w) (-50) 50)). nra.
Qed.

Lemma confined_dielectric_monotone_witness :
  exists e1 e2,
    confined_dielectric_constant 0.5 30 2 0.70 0.10 = Ok e1
    /\ confined_dielectric_constant 0.9 30 2 0.70 0.10 = Ok e2
    /\ 2 <= e1 /\ e1 <= e2 /\ e2 <= 30.
Proof.
  apply (confined_dielectric_monotone 0.5 0.9 30 2 0.70 0.10); lra.
Defined.

(** X2: at the critical diameter the confined dielectric constant is the
    mean of the two limits, whatever the nonzero transition width; a zero
    width raises ZeroDivisionError at every diameter. *)
Theorem confined_dielectric_midpoint (d eb ev dc w : R) :
  (w <> 0 ->
   confined_dielectric_constant dc eb ev dc w = Ok ((ev + eb) / 2))
  /\ (w = 0 ->
      confined_dielectric_constant d eb ev dc w = Raise ZeroDivisionError).
Proof.
  split.
  - intros Hw. rewrite confined_value by assumption. f_equal.
    replace ((dc - dc) / w) with 0 by (field; assumption).
    unfold np_clip. rewrite Rmax_left by lra. rewrite Rmin_left by lra.
    rewrite Ropp_0, exp_0. lra.
  - intros ->. unfold confined_dielectric_constant, truediv.
    destruct (Req_dec_T 0 0); [reflexivity | lra].
Qed.

Lemma confined_dielectric_midpoint_witness :
  confined_dielectric_constant 0.70 30 2 0.70 0.10 = Ok 16
  /\ confined_dielectric_constant 1 30 2 0.70 0 = Raise ZeroDivisionError.
Proof.
  split.
  - replace 16 with ((2 + 30) / 2) by lra.
    apply (confined_dielectric_midpoint 0 30 2 0.70 0.10). lra.
  - apply (confined_dielectric_midpoint 1 30 2 0.70 0). reflexivity.
Defined.

(** X3: the clip at +-50 makes the function constant far from the critical
    diameter: beyond 50 transition widths above it the value is that at 50
    widths, and likewise below. *)
Theorem confined_dielectric_saturates (d eb ev dc w : R) :
  0 < w ->
  (dc + 50 * w <= d ->
   confined_dielectric_constant d eb ev dc w
   = confined_dielectric_constant (dc + 50 * w) eb ev dc w)
  /\ (d <= dc - 50 * w ->
      confined_dielectric_constant d eb ev dc w
      = confined_dielectric_constant (dc - 50 * w) eb ev dc w).
Proof.
  intros Hw.
  assert (Hi : 0 < / w) by now apply Rinv_0_lt_compat.
  assert (Hup : (dc + 50 * w - dc) / w = 50) by (field; lra).
  assert (Hdn : (dc - 50 * w - dc) / w = -50) by (field; lra).
  split; intros Hd; rewrite !confined_value by lra; do 3 f_equal.
  - rewrite Hup. unfold np_clip.
    assert (50 <= (d - dc) / w).
    { rewrite <- Hup. apply Rmult_le_compat_r; lra. }
    rewrite !Rmax_left by lra. rewrite Rmin_right by lra.
    rewrite Rmin_right by lra. reflexivity.
  - rewrite Hdn. unfold np_clip.
    assert ((d - dc) / w <= -50).
    { rewrite <- Hdn. apply Rmult_le_compat_r; lra. }
    rewrite Rmax_right by lra. rewrite Rmax_left by lra.
    reflexivity.
Qed.

Lemma confined_dielectric_saturates_witness :
  confined_dielectric_constant 9 30 2 0.70 0.10
  = confined_dielectric_constant (0.70 + 50 * 0.10) 30 2 0.70 0.10.
Proof.
  apply (confined_dielectric_saturates 9 30 2 0.70 0.10); lra.
Defined.

End ConfinedDielectric.

(** ** The Born energy as a function of its arguments *)

Section BornShape.
Import Born.

Lemma born_prefactor_even (z : Z) : IZR ((- z) ^ 2) = IZR (z ^ 2).
Proof. f_equal. nia. Qed.

(** X4: for a positive radius the energy does not depend on the sign of
    the charge, vanishes for charge 0, is never positive in a medium with
    dielectric constant at least 1 and never negative with one in (0, 1]. *)
Theorem born_energy_sign (z : Z) (r_eff_m epsilon_r : R) :
  0 < r_eff_m -> 0 < epsilon_r ->
  exists g,
    born_solvation_energy z r_eff_m epsilon_r = Ok g
    /\ born_solvation_energy (- z) r_eff_m epsilon_r = Ok g
    /\ (z = 0%Z -> g = 0)
    /\ (1 <= epsilon_r -> g <= 0)
    /\ (epsilon_r <= 1 -> 0 <= g).
Proof.
  intros Hr He.
  rewrite !born_formula_branch by assumption.
  rewrite born_prefactor_even.
  eexists. repeat split.
  - intros ->. change (IZR (0 ^ 2)) with 0. unfold Rdiv.
    rewrite Rmult_0_r, Rmult_0_l, Ropp_0. lra.
  - intros H1. pose proof (born_prefactor_nonpos z _ Hr) as HA.
    assert (0 <= 1 - 1 / epsilon_r).
    { assert (1 / epsilon_r <= 1); [| lra].
      apply Rmult_le_reg_r with epsilon_r; [lra |].
      unfold Rdiv. rewrite Rmult_assoc, Rinv_l by lra. lra. }
    unfold J_TO_KJ. nra.
  - intros H1. pose proof (born_prefactor_nonpos z _ Hr) as HA.
    assert (1 - 1 / epsilon_r <= 0).
    { assert (1 <= 1 / epsilon_r); [| lra].
      apply Rmult_le_reg_r with epsilon_r; [lra |].
      unfold Rdiv. rewrite Rmult_assoc, Rinv_l by lra. lra. }
    unfold J_TO_KJ. nra.
Qed.

Lemma born_energy_sign_witness :
  exists g,
    born_solvation_energy 1 (0.076 * NM_TO_M) 30 = Ok g
    /\ born_solvation_energy (-1) (0.076 * NM_TO_M) 30 = Ok g
    /\ g <= 0.
Proof.
  destruct (born_energy_sign 1 (0.076 * NM_TO_M) 30)
    as (g & H1 & H2 & _ & H3 & _);
    [unfold NM_TO_M; lra | lra |].
  exists g. repeat split; [exact H1 | exact H2 | apply H3; lra].
Defined.

(** X5: the energy is quadratic in the charge and inversely proportional
    to the radius: a charge k times larger gives k^2 times the energy, a
    radius c times larger gives the energy divided by c. *)
Theorem born_energy_scaling (k z : Z) (c r_eff_m epsilon_r : R) :
  0 < r_eff_m -> 0 < epsilon_r -> 0 < c ->
  exists g,
    born_solvation_energy z r_eff_m epsilon_r = Ok g
    /\ born_solvation_energy (k * z) r_eff_m epsilon_r = Ok (IZR k ^ 2 * g)
    /\ born_solvation_energy z (c * r_eff_m) epsilon_r = Ok (g / c).
Proof.
  intros Hr He Hc. pose proof PI_RGT_0 as Hpi.
  assert (Hcr : 0 < c * r_eff_m) by now apply Rmult_lt_0_compat.
  rewrite !born_formula_branch by assumption.
  eexists. repeat split; f_equal.
  - replace (IZR ((k * z) ^ 2)) with (IZR k ^ 2 * IZR (z ^ 2)).
    + field. unfold EPSILON_0. repeat split; lra.
    + rewrite pow_IZR, <- mult_IZR. f_equal.
      change (Z.of_nat 2) with 2%Z. nia.
  - field. unfold EPSILON_0. repeat split; lra.
Qed.

Lemma born_energy_scaling_witness :
  exists g,
    born_solvation_energy 1 (0.076 * NM_TO_M) 30 = Ok g
    /\ born_solvation_energy (2 * 1) (0.076 * NM_TO_M) 30 = Ok (2 ^ 2 * g)
    /\ born_solvation_energy 1 (2 * (0.076 * NM_TO_M)) 30 = Ok (g / 2).
Proof.
  apply (born_energy_scaling 2 1 2 (0.076 * NM_TO_M) 30);
    unfold NM_TO_M; lra.
Defined.

(** X6: for a positive radius, a larger dielectric constant never gives a
    larger (less favourable) energy. *)
Theorem born_energy_antitone_in_epsilon (z : Z) (r_eff_m e1 e2 : R) :
  0 < r_eff_m -> 0 < e1 -> e1 <= e2 ->
  exists g1 g2,
    born_solvation_energy z r_eff_m e1 = Ok g1
    /\ born_solvation_energy z r_eff_m e2 = Ok g2
    /\ g2 <= g1.
Proof.
  intros Hr H1 H12.
  rewrite !born_formula_branch by lra.
  do 2 eexists. repeat split.
  pose proof (born_prefactor_nonpos z _ Hr) as HA.
  assert (/ e2 <= / e1) by (apply Rinv_le_contravar; lra).
  unfold J_TO_KJ, Rdiv at 2 4. nra.
Qed.

Lemma born_energy_antitone_in_epsilon_witness :
  exists g1 g2,
    born_solvation_energy 1 (0.076 * NM_TO_M) 2 = Ok g1
    /\ born_solvation_energy 1 (0.076 * NM_TO_M) 30 = Ok g2
    /\ g2 <= g1.
Proof.
  apply (born_energy_antitone_in_epsilon 1 (0.076 * NM_TO_M) 2 30);
    unfold NM_TO_M; lra.
Defined.

End BornShape.

(** ** The dehydration barrier along the pore axis *)

Section DehydrationShape.
Import Born.

(** The barrier of an unblocked ion, written out. *)
Lemma dehydration_value (d eb : R) (ion : IonSpecies) :
  0 < bare_radius_nm ion -> 2 <= eb ->
  ~ d < 0.8 * (2 * solvated_radius_nm ion) ->
  exists eps,
    confined_dielectric_constant d eb epsilon_vacuum_default
      d_critical_nm_default transition_width_nm_default = Ok eps
    /\ 2 <= eps <= eb
    /\ dehydration_enthalpy d ion eb
       = Ok (Finite
               (- (N_A * IZR (charge ion ^ 2) * E_CHARGE ^ 2)
                / (8 * PI * EPSILON_0 * (bare_radius_nm ion * NM_TO_M))
                * (1 - 1 / eps) * J_TO_KJ
                - - (N_A * IZR (charge ion ^ 2) * E_CHARGE ^ 2)
                  / (8 * PI * EPSILON_0 * (bare_radius_nm ion * NM_TO_M))
                  * (1 - 1 / eb) * J_TO_KJ)).
Proof.
  intros Hbare Heb Hge.
  assert (Hr : 0 < bare_radius_nm ion * NM_TO_M) by (unfold NM_TO_M; nra).
  assert (Hw : transition_width_nm_default <> 0)
    by (unfold transition_width_nm_default; lra).
  eexists. split; [apply confined_value, Hw |].
  match goal with |- context [exp ?x] =>
    pose proof (sigmoid_range (- x)) as Hs; rewrite Ropp_involutive in Hs end.
  split; [unfold epsilon_vacuum_default; nra |].
  unfold dehydration_enthalpy.
  assert (E : Rltb d (2.0 * solvated_radius_nm ion * 0.8) = false)
    by (apply Rltb_false; lra).
  rewrite E, (born_formula_branch (charge ion) _ eb Hr) by lra.
  cbn [bind]. rewrite confined_value by exact Hw. cbn [bind].
  rewrite born_formula_branch;
    [reflexivity | exact Hr | unfold epsilon_vacuum_default; nra].
Qed.

(** X7: past the steric cut-off the barrier never rises when the pore
    widens, for any bulk dielectric constant of at least 2. *)
Theorem dehydration_enthalpy_antitone (d1 d2 eb : R) (ion : IonSpecies) :
  0 < bare_radius_nm ion -> 2 <= eb ->
  ~ d1 < 0.8 * (2 * solvated_radius_nm ion) -> d1 <= d2 ->
  exists h1 h2,
    dehydration_enthalpy d1 ion eb = Ok (Finite h1)
    /\ dehydration_enthalpy d2 ion eb = Ok (Finite h2)
    /\ 0 <= h2 <= h1.
Proof.
  intros Hbare Heb Hge Hd.
  assert (Hge2 : ~ d2 < 0.8 * (2 * solvated_radius_nm ion)) by lra.
  assert (Hr : 0 < bare_radius_nm ion * NM_TO_M) by (unfold NM_TO_M; nra).
  destruct (dehydration_value d1 eb ion Hbare Heb Hge)
    as (e1 & He1 & [Hlo1 Hhi1] & ->).
  destruct (dehydration_value d2 eb ion Hbare Heb Hge2)
    as (e2 & He2 & [Hlo2 Hhi2] & ->).
  assert (Hw : transition_width_nm_default <> 0)
    by (unfold transition_width_nm_default; lra).
  rewrite confined_value in He1, He2 by exact Hw.
  injection He1 as He1. injection He2 as He2.
  assert (He12 : e1 <= e2).
  { rewrite <- He1, <- He2.
    apply Rplus_le_compat_l, Rmult_le_compat_l;
      [unfold epsilon_vacuum_default; lra |].
    apply sigmoid_mono, np_clip_mono.
    apply Rmult_le_compat_r; [unfold transition_width_nm_default |]; lra. }
  do 2 eexists. repeat split.
  - pose proof (born_prefactor_nonpos (charge ion) _ Hr) as HA.
    assert (/ eb <= / e2) by (apply Rinv_le_contravar; lra).
    unfold J_TO_KJ, Rdiv at 2 4. nra.
  - pose proof (born_prefactor_nonpos (charge ion) _ Hr) as HA.
    assert (/ e2 <= / e1) by (apply Rinv_le_contravar; lra).
    unfold J_TO_KJ, Rdiv at 2 4 6 8. nra.
Qed.

Lemma dehydration_enthalpy_antitone_witness :
  exists h1 h2,
    dehydration_enthalpy 0.70 Li_plus 30 = Ok (Finite h1)
    /\ dehydration_enthalpy 1.5 Li_plus 30 = Ok (Finite h2)
    /\ 0 <= h2 <= h1.
Proof.
  apply (dehydration_enthalpy_antitone 0.70 1.5 30 Li_plus);
    cbn [bare_radius_nm solvated_radius_nm Li_plus]; lra.
Defined.

(** X8: the solvated radius only sets the steric cut-off: two species
    with the same bare radius and charges equal up to sign have the same
    barrier at every pore that blocks neither, and an uncharged species
    has barrier 0 there. *)
Theorem dehydration_enthalpy_bare_ion (d eb : R) (i1 i2 : IonSpecies) :
  0 < bare_radius_nm i1 -> 2 <= eb ->
  bare_radius_nm i2 = bare_radius_nm i1 ->
  (charge i2 = charge i1 \/ charge i2 = - charge i1)%Z ->
  ~ d < 0.8 * (2 * solvated_radius_nm i1) ->
  ~ d < 0.8 * (2 * solvated_radius_nm i2) ->
  exists h,
    dehydration_enthalpy d i1 eb = Ok (Finite h)
    /\ dehydration_enthalpy d i2 eb = Ok (Finite h)
    /\ (charge i1 = 0%Z -> h = 0).
Proof.
  intros Hbare Heb Hr Hz H1 H2.
  assert (Hbare2 : 0 < bare_radius_nm i2) by (rewrite Hr; exact Hbare).
  destruct (dehydration_value d eb i1 Hbare Heb H1) as (e1 & He1 & _ & ->).
  destruct (dehydration_value d eb i2 Hbare2 Heb H2) as (e2 & He2 & _ & ->).
  assert (e2 = e1) as -> by congruence.
  assert (Hq : IZR (charge i2 ^ 2) = IZR (charge i1 ^ 2)).
  { destruct Hz as [-> | ->]; [reflexivity | apply born_prefactor_even]. }
  rewrite Hr, Hq. eexists. repeat split.
  intros ->. change (IZR (0 ^ 2)) with 0. unfold Rdiv.
  rewrite Rmult_0_r, Rmult_0_l, Ropp_0. lra.
Qed.

Lemma dehydration_enthalpy_bare_ion_witness :
  exists h,
    dehydration_enthalpy 1.0 Li_plus 30 = Ok (Finite h)
    /\ dehydration_enthalpy 1.0 Li_EC4 30 = Ok (Finite h).
Proof.
  destruct (dehydration_enthalpy_bare_ion 1.0 30 Li_plus Li_EC4)
    as (h & H1 & H2 & _);
    [ cbn [bare_radius_nm Li_plus]; lra | lra | reflexivity
    | left; reflexivity
    | cbn [solvated_radius_nm Li_plus]; lra
    | cbn [solvated_radius_nm Li_EC4]; lra | ].
  exists h. split; assumption.
Defined.

End DehydrationShape.

(** ** The dehydration profile of a species *)

Section DehydrationProfile.
Import Born Sieve.

Lemma born_total (z : Z) (r e : R) :
  exists g, born_solvation_energy z r e = Ok g.
Proof.
  destruct (Rleb r 0 || Rleb e 0) eqn:G.
  - unfold born_solvation_energy. rewrite G. eauto.
  - apply orb_false_iff in G as [G1 G2]. apply Rleb_false in G1, G2.
    eexists. apply born_formula_branch; assumption.
Qed.

Lemma dehydration_total (d eb : R) (ion : IonSpecies) :
  (blocked ion d -> dehydration_enthalpy d ion eb = Ok PosInf)
  /\ (~ blocked ion d ->
      exists h, dehydration_enthalpy d ion eb = Ok (Finite h)).
Proof.
  unfold blocked, dehydration_enthalpy. split; intros H.
  - assert (E : Rltb d (2.0 * solvated_radius_nm ion * 0.8) = true)
      by (apply Rltb_true; lra).
    now rewrite E.
  - assert (E : Rltb d (2.0 * solvated_radius_nm ion * 0.8) = false)
      by (apply Rltb_false; lra).
    rewrite E.
    destruct (born_total (charge ion) (bare_radius_nm ion * NM_TO_M) eb)
      as [g1 ->].
    cbn [bind]. rewrite confined_value
      by (unfold transition_width_nm_default; lra).
    cbn [bind].
    match goal with |- context [born_solvation_energy ?z ?r ?e] =>
      destruct (born_total z r e) as [g2 ->] end.
    cbn [bind]. eauto.
Qed.

Lemma mapM_Forall2 {A B : Type} (f : A -> result B) (l : list A)
    (l' : list B) :
  mapM f l = Ok l' <-> Forall2 (fun x y => f x = Ok y) l l'.
Proof.
  revert l'. induction l as [| x l IH]; intros l'; cbn [mapM].
  - split; [intros H; injection H as <-; constructor |].
    intros H. inversion H. reflexivity.
  - split.
    + destruct (f x) as [y |] eqn:E; [| discriminate]. cbn [bind].
      destruct (mapM f l) as [ys |]; [| discriminate]. cbn [bind].
      intros H. injection H as <-. constructor; [exact E |].
      now apply IH.
    + intros H. inversion H as [| ? y ? ys Hx Hl]; subst.
      rewrite Hx. cbn [bind]. apply IH in Hl. rewrite Hl. reflexivity.
Qed.

Lemma mapM_total {A B : Type} (f : A -> result B) (l : list A) :
  (forall x, In x l -> exists y, f x = Ok y) -> exists l', mapM f l = Ok l'.
Proof.
  induction l as [| x l IH]; intros H; cbn [mapM]; [eauto |].
  destruct (H x (or_introl eq_refl)) as [y ->]. cbn [bind].
  destruct IH as [ys ->]; [intros z Hz; apply H; now right |].
  cbn [bind]. eauto.
Qed.

(** [np.argmin] returns the first position of a least element. *)
Lemma argmin_from_R_spec (a : list R) :
  forall (best_i : nat) (best : R) (i : nat),
    (argmin_from_R best_i best i a = best_i
     /\ Forall (fun x => best <= x) a)
    \/ (exists k v,
          argmin_from_R best_i best i a = (i + k)%nat
          /\ nth_error a k = Some v
          /\ v < best
          /\ Forall (fun x => v <= x) a
          /\ forall j x, (j < k)%nat -> nth_error a j = Some x -> v < x).
Proof.
  induction a as [| x a IH]; intros best_i best i; cbn [argmin_from_R].
  - left. split; [reflexivity | constructor].
  - destruct (Rltb x best) eqn:E.
    + apply Rltb_true in E. right.
      destruct (IH i x (S i))
        as [[Hr Hall] | (k & v & Hr & Hk & Hv & Hall & Hbefore)].
      * exists 0%nat, x. rewrite Hr, Nat.add_0_r.
        repeat split; try assumption; try reflexivity.
        -- constructor; [lra | assumption].
        -- intros j y Hj. lia.
      * exists (S k), v. rewrite Hr.
        repeat split; try assumption; try lia; try lra.
        -- constructor; [lra | assumption].
        -- intros [| j] y Hj Hy; cbn [nth_error] in Hy.
           ++ injection Hy as <-. assumption.
           ++ apply (Hbefore j); [lia | assumption].
    + apply Rltb_false in E.
      destruct (IH best_i best (S i))
        as [[Hr Hall] | (k & v & Hr & Hk & Hv & Hall & Hbefore)].
      * left. split; [assumption | constructor; assumption].
      * right. exists (S k), v. rewrite Hr.
        repeat split; try assumption; try lia.
        -- constructor; [lra | assumption].
        -- intros [| j] y Hj Hy; cbn [nth_error] in Hy.
           ++ injection Hy as <-. lra.
           ++ apply (Hbefore j); [lia | assumption].
Qed.

Lemma np_argmin_R_spec (a : list R) :
  a <> [] ->
  exists i v,
    np_argmin_R a = Ok i
    /\ nth_error a i = Some v
    /\ Forall (fun x => v <= x) a
    /\ forall j x, (j < i)%nat -> nth_error a j = Some x -> v < x.
Proof.
  destruct a as [| x a]; [congruence |]. intros _. cbn [np_argmin_R].
  destruct (argmin_from_R_spec a 0 x 1)
    as [[Hr Hall] | (k & v & Hr & Hk & Hv & Hall & Hbefore)].
  - exists 0%nat, x. rewrite Hr. repeat split.
    + constructor; [lra | assumption].
    + intros j y Hj. lia.
  - exists (S k), v. rewrite Hr. repeat split.
    + exact Hk.
    + constructor; [lra | assumption].
    + intros [| j] y Hj Hy; cbn [nth_error] in Hy.
      * injection Hy as <-. assumption.
      * apply (Hbefore j); [lia | assumption].
Qed.

Lemma profile_of_range (ion : IonSpecies) (eb : R) (range : list R) :
  exists dHs,
    mapM (fun d => dehydration_enthalpy d ion eb) range = Ok dHs
    /\ Forall2 (entry_of ion eb) range (map profile_entry dHs).
Proof.
  induction range as [| d range (dHs & Hm & Hf)]; cbn [mapM].
  - exists []. split; [reflexivity | constructor].
  - destruct (dehydration_total d eb ion) as [Hb Hn].
    destruct (Rlt_dec d (0.8 * (2 * solvated_radius_nm ion))) as [H | H].
    + rewrite (Hb H), Hm. cbn [bind]. eexists. split; [reflexivity |].
      cbn [map profile_entry]. constructor; [| exact Hf].
      left. split; [exact H | reflexivity].
    + destruct (Hn H) as [h Hh]. rewrite Hh, Hm. cbn [bind].
      eexists. split; [reflexivity |].
      cbn [map profile_entry]. constructor; [| exact Hf].
      right. split; [exact H |]. exists h. split; [exact Hh | reflexivity].
Qed.

(** The first index [enumerate] and the filter keep is that of the first
    entry that is not [None]. *)
Lemma first_passable_spec (profile : list (option R)) :
  forall s,
    match map fst (filter (fun iv => is_some (snd iv))
                          (combine (seq s (List.length profile)) profile)) with
    | [] => Forall (fun v => v = None) profile
    | i0 :: _ =>
        exists k x,
          i0 = (s + k)%nat
          /\ nth_error profile k = Some (Some x)
          /\ forall j, (j < k)%nat -> nth_error profile j = Some None
    end.
Proof.
  induction profile as [| v profile IH]; intros s;
    cbn [List.length seq combine filter map].
  - constructor.
  - destruct v as [x |]; cbn [snd is_some map fst].
    + exists 0%nat, x. repeat split; [lia |].
      intros j Hj. lia.
    + specialize (IH (S s)).
      destruct (map fst _) as [| i0 rest].
      * constructor; [reflexivity | exact IH].
      * destruct IH as (k & x & Hi & Hk & Hbefore).
        exists (S k), x. repeat split; [lia | exact Hk |].
        intros [| j] Hj; [reflexivity |]. cbn [nth_error].
        apply Hbefore. lia.
Qed.

Lemma Forall2_nth_error {A B : Type} (P : A -> B -> Prop) (l : list A)
    (l' : list B) (i : nat) (y : B) :
  Forall2 P l l' -> nth_error l' i = Some y ->
  exists x, nth_error l i = Some x /\ P x y.
Proof.
  intros H. revert i. induction H as [| x y' l l' Hxy _ IH]; intros i Hi.
  - destruct i; discriminate.
  - destruct i as [| i]; cbn [nth_error] in *.
    + injection Hi as ->. eauto.
    + apply IH, Hi.
Qed.

Lemma Forall2_nth_error_l {A B : Type} (P : A -> B -> Prop) (l : list A)
    (l' : list B) (i : nat) (x : A) :
  Forall2 P l l' -> nth_error l i = Some x ->
  exists y, nth_error l' i = Some y /\ P x y.
Proof.
  intros H. revert i. induction H as [| x' y l l' Hxy _ IH]; intros i Hi.
  - destruct i; discriminate.
  - destruct i as [| i]; cbn [nth_error] in *.
    + injection Hi as ->. eauto.
    + apply IH, Hi.
Qed.

(** What [species_entry] returns on a pore range that is not empty. *)
Lemma species_entry_spec (key : string) (ion : IonSpecies) (eb : R)
    (range : list R) :
  range <> [] ->
  exists e idx d,
    species_entry key ion range eb = Ok e
    /\ Forall2 (entry_of ion eb) range (enthalpy_profile_kJ_mol e)
    /\ nth_error range idx = Some d
    /\ nth_error (enthalpy_profile_kJ_mol e) idx
       = Some (barrier_at_0_7nm_kJ_mol e)
    /\ Forall (fun d' => Rabs (d - 0.70) <= Rabs (d' - 0.70)) range
    /\ ((min_passable_pore_nm e = None
         /\ Forall (fun v => v = None) (enthalpy_profile_kJ_mol e))
        \/ exists k p x,
             nth_error range k = Some p
             /\ nth_error (enthalpy_profile_kJ_mol e) k = Some (Some x)
             /\ (forall j, (j < k)%nat ->
                   nth_error (enthalpy_profile_kJ_mol e) j = Some None)
             /\ min_passable_pore_nm e = Some (py_round p 3)).
Proof.
  intros Hne. unfold species_entry.
  destruct (profile_of_range ion eb range) as (dHs & -> & Hf).
  cbn [bind]. set (profile := map profile_entry dHs) in *.
  destruct (np_argmin_R_spec (map (fun d => Rabs (d - 0.70)) range))
    as (idx & v & Hidx & Hv & Hmin & _).
  { destruct range; [congruence | discriminate]. }
  rewrite nth_error_map in Hv.
  destruct (nth_error range idx) as [d |] eqn:Hd; [| discriminate].
  cbn [option_map] in Hv. injection Hv as <-.
  destruct (Forall2_nth_error_l _ _ _ _ _ Hf Hd) as (b & Hb & _).
  pose proof (first_passable_spec profile 0) as Hfirst.
  unfold enumerate.
  destruct (map fst _) as [| i0 rest].
  - cbn [bind]. rewrite Hidx. cbn [bind]. unfold index. rewrite Hb.
    cbn [bind]. eexists _, idx, d. split; [reflexivity |].
    cbn [enthalpy_profile_kJ_mol barrier_at_0_7nm_kJ_mol
         min_passable_pore_nm].
    repeat split; try assumption.
    + rewrite Forall_map in Hmin. exact Hmin.
    + left. split; [reflexivity | exact Hfirst].
  - destruct Hfirst as (k & x & -> & Hk & Hbefore). cbn [Nat.add].
    destruct (Forall2_nth_error _ _ _ _ _ Hf Hk) as (p & Hp & _).
    unfold index at 1 2. rewrite Hp. cbn [bind].
    assert (Hdead : exists w,
               (if Rleb p 0.71 then v <- index profile k ;; Ok v
                else Ok None) = Ok w).
    { destruct (Rleb p 0.71); [| eauto].
      unfold index. rewrite Hk. cbn [bind]. eauto. }
    destruct Hdead as [w ->]. cbn [bind]. rewrite Hidx. cbn [bind].
    unfold index. rewrite Hb. cbn [bind].
    eexists _, idx, d. split; [reflexivity |].
    cbn [enthalpy_profile_kJ_mol barrier_at_0_7nm_kJ_mol
         min_passable_pore_nm].
    repeat split; try assumption.
    + rewrite Forall_map in Hmin. exact Hmin.
    + right. exists k, p, x. repeat split; assumption.
Qed.

Lemma born_gap_nonneg (A e1 e2 : R) :
  A <= 0 -> 0 < e1 -> e1 <= e2 ->
  0 <= A * (1 - 1 / e1) * J_TO_KJ - A * (1 - 1 / e2) * J_TO_KJ.
Proof.
  intros HA H1 H12.
  assert (/ e2 <= / e1) by (apply Rinv_le_contravar; lra).
  unfold J_TO_KJ, Rdiv. nra.
Qed.

Lemma py_round_nonneg (x : R) (ndigits : nat) :
  0 <= x -> 0 <= py_round x ndigits.
Proof.
  intros Hx. unfold py_round.
  assert (Hp : 0 < 10 ^ ndigits) by (apply pow_lt; lra).
  set (y := x * 10 ^ ndigits).
  assert (Hy : 0 <= y) by (unfold y; nra).
  destruct (base_Int_part y) as [_ Hlo].
  assert (Hf : (0 <= Int_part y)%Z).
  { assert (-1 < IZR (Int_part y)) by lra.
    apply lt_IZR in H. lia. }
  assert (Hq : forall q, (Int_part y <= q)%Z -> 0 <= IZR q / 10 ^ ndigits).
  { intros q Hq. apply Rmult_le_pos.
    - apply IZR_le. lia.
    - left. now apply Rinv_0_lt_compat. }
  destruct (Rltb _ 0.5); [apply Hq; lia |].
  destruct (Rltb 0.5 _); [apply Hq; lia |].
  destruct (Z.even _); apply Hq; lia.
Qed.

Lemma entry_of_blocked (ion : IonSpecies) (eb d : R) (v : option R) :
  entry_of ion eb d v -> (v = None <-> blocked ion d).
Proof.
  intros [[Hb ->] | (Hn & h & _ & ->)]; split; intros H;
    try reflexivity; try assumption; try discriminate; contradiction.
Qed.

(** X9: on a pore range that is not empty the profile of a species has one
    entry per pore, [None] exactly at the pores narrower than 0.8 x the
    solvated diameter; with a positive bare radius and a bulk dielectric
    constant of at least 2 no recorded barrier is negative. *)
Theorem profile_marks_blocked_pores (key : string) (ion : IonSpecies)
    (eb : R) (range : list R) :
  range <> [] ->
  exists e,
    species_entry key ion range eb = Ok e
    /\ List.length (enthalpy_profile_kJ_mol e) = List.length range
    /\ Forall2 (fun d v => v = None <-> blocked ion d)
               range (enthalpy_profile_kJ_mol e)
    /\ (0 < bare_radius_nm ion -> 2 <= eb ->
        Forall (fun v => forall x, v = Some x -> 0 <= x)
               (enthalpy_profile_kJ_mol e)).
Proof.
  intros Hne.
  destruct (species_entry_spec key ion eb range Hne)
    as (e & _ & _ & He & Hf & _).
  exists e. split; [exact He |]. split; [| split].
  - symmetry. eapply Forall2_length, Hf.
  - eapply Forall2_impl; [| exact Hf].
    intros d v. apply entry_of_blocked.
  - intros Hbare Heb. clear He Hne.
    induction Hf as [| d v range' prof' Hdv _ IH]; constructor.
    + intros x ->.
      destruct Hdv as [[_ Hv] | (Hn & h & Hh & Hv)]; [discriminate |].
      injection Hv as ->. apply py_round_nonneg.
      destruct (dehydration_value d eb ion Hbare Heb Hn)
        as (eps & _ & [Hlo Hhi] & Hval).
      rewrite Hval in Hh. injection Hh as <-.
      assert (Hr : 0 < bare_radius_nm ion * NM_TO_M)
        by (unfold NM_TO_M; nra).
      apply born_gap_nonneg; [| lra | lra].
      apply born_prefactor_nonpos, Hr.
    + exact IH.
Qed.

Lemma profile_marks_blocked_pores_witness :
  exists e,
    species_entry "Li+" Li_plus [0.5; 0.70; 1.0] 30 = Ok e
    /\ List.length (enthalpy_profile_kJ_mol e) = 3%nat
    /\ Forall (fun v => forall x, v = Some x -> 0 <= x)
              (enthalpy_profile_kJ_mol e).
Proof.
  destruct (profile_marks_blocked_pores "Li+" Li_plus 30 [0.5; 0.70; 1.0])
    as (e & He & Hlen & _ & Hpos); [discriminate |].
  exists e. repeat split; [exact He | exact Hlen |].
  apply Hpos; [cbn [bare_radius_nm Li_plus] |]; lra.
Defined.

(** X10: the minimum passable pore recorded for a species is the first
    pore of the range, in the order given, that is not sterically blocked,
    rounded to three decimals; it is recorded as "NEVER" exactly when
    every pore of the range is blocked. *)
Theorem min_passable_pore_is_first_unblocked (key : string)
    (ion : IonSpecies) (eb : R) (range : list R) :
  range <> [] ->
  exists e,
    species_entry key ion range eb = Ok e
    /\ (min_passable_pore_nm e = None <-> Forall (blocked ion) range)
    /\ forall m,
         min_passable_pore_nm e = Some m ->
         exists l1 p l2,
           range = l1 ++ p :: l2
           /\ Forall (blocked ion) l1
           /\ ~ blocked ion p
           /\ m = py_round p 3.
Proof.
  intros Hne.
  destruct (species_entry_spec key ion eb range Hne)
    as (e & _ & _ & He & Hf & _ & _ & _ & Hmin).
  exists e. split; [exact He |].
  assert (Hall : Forall (fun v => v = None) (enthalpy_profile_kJ_mol e) ->
                 Forall (blocked ion) range).
  { clear Hmin He Hne. intros Hnone.
    induction Hf as [| d v r' p' Hdv _ IH]; constructor.
    - apply (entry_of_blocked _ _ _ _ Hdv). now inversion Hnone.
    - apply IH. now inversion Hnone. }
  destruct Hmin as [[Hnever Hnone] | (k & p & x & Hp & Hk & Hbefore & Hm)].
  - split; [split; auto |]. intros m Hm. congruence.
  - destruct (Forall2_nth_error _ _ _ _ _ Hf Hk) as (p' & Hp' & Hent).
    assert (p' = p) as -> by congruence.
    assert (Hnb : ~ blocked ion p).
    { intros Hb. apply (entry_of_blocked _ _ _ _ Hent) in Hb. discriminate. }
    split.
    + split; [congruence |]. intros Hblocked. exfalso. apply Hnb.
      eapply Forall_forall; [exact Hblocked |].
      eapply nth_error_In, Hp.
    + intros m Hm'. rewrite Hm in Hm'. injection Hm' as <-.
      destruct (nth_error_split _ _ Hp) as (l1 & l2 & Hsplit & Hlen).
      exists l1, p, l2. repeat split; try assumption.
      apply Forall_forall. intros y Hy.
      apply In_nth_error in Hy. destruct Hy as [j Hj].
      assert (Hjk : (j < k)%nat).
      { rewrite <- Hlen. apply nth_error_Some. congruence. }
      assert (Hrj : nth_error range j = Some y).
      { rewrite Hsplit, nth_error_app1 by lia. exact Hj. }
      destruct (Forall2_nth_error_l _ _ _ _ _ Hf Hrj) as (v & Hv & Hyv).
      rewrite (Hbefore j Hjk) in Hv. injection Hv as <-.
      now apply (entry_of_blocked _ _ _ _ Hyv).
Qed.

Lemma min_passable_pore_is_first_unblocked_witness :
  exists e,
    species_entry "Li_EC4" Li_EC4 [0.5; 0.70; 1.0] 30 = Ok e
    /\ min_passable_pore_nm e = Some (py_round 1.0 3).
Proof.
  destruct (min_passable_pore_is_first_unblocked "Li_EC4" Li_EC4 30
              [0.5; 0.70; 1.0]) as (e & He & Hnone & Hsome);
    [discriminate |].
  exists e. split; [exact He |].
  destruct (min_passable_pore_nm e) as [m |] eqn:Hm.
  - destruct (Hsome m eq_refl) as (l1 & p & l2 & Hsplit & Hl1 & Hp & ->).
    unfold blocked in Hl1, Hp. cbn [solvated_radius_nm Li_EC4] in Hl1, Hp.
    destruct l1 as [| a [| b [| c l1]]]; cbn [app] in Hsplit.
    + injection Hsplit as <- _. lra.
    + injection Hsplit as _ <- _. lra.
    + injection Hsplit as _ _ <- _. reflexivity.
    + injection Hsplit as _ _ _ Hnil. destruct l1; discriminate.
  - exfalso. assert (Hb : Forall (blocked Li_EC4) [0.5; 0.70; 1.0])
      by now apply Hnone.
    inversion Hb as [| ? ? _ Hb1]. inversion Hb1 as [| ? ? _ Hb2].
    inversion Hb2 as [| ? ? Hlast _]. unfold blocked in Hlast.
    cbn [solvated_radius_nm Li_EC4] in Hlast. lra.
Defined.

(** X11: the value recorded as the barrier "at 0.7 nm" is the profile
    entry of the pore of the range nearest to 0.70 nm, which need not be
    0.70 itself: it is "INFINITE" exactly when that pore is sterically
    blocked. *)
Theorem barrier_at_critical_is_nearest (key : string) (ion : IonSpecies)
    (eb : R) (range : list R) :
  range <> [] ->
  exists e d,
    species_entry key ion range eb = Ok e
    /\ In d range
    /\ Forall (fun d' => Rabs (d - 0.70) <= Rabs (d' - 0.70)) range
    /\ entry_of ion eb d (barrier_at_0_7nm_kJ_mol e)
    /\ (barrier_at_0_7nm_kJ_mol e = None <-> blocked ion d).
Proof.
  intros Hne.
  destruct (species_entry_spec key ion eb range Hne)
    as (e & idx & d & He & Hf & Hd & Hb & Hnear & _).
  exists e, d. split; [exact He |].
  destruct (Forall2_nth_error_l _ _ _ _ _ Hf Hd) as (v & Hv & Hent).
  assert (v = barrier_at_0_7nm_kJ_mol e) as -> by congruence.
  repeat split; try assumption.
  - eapply nth_error_In, Hd.
  - apply (entry_of_blocked _ _ _ _ Hent).
  - apply (entry_of_blocked _ _ _ _ Hent).
Qed.

Lemma barrier_at_critical_is_nearest_witness :
  exists e d,
    species_entry "Li_H2O4" Li_H2O4 [0.5; 2.0] 30 = Ok e
    /\ In d [0.5; 2.0]
    /\ Forall (fun d' => Rabs (d - 0.70) <= Rabs (d' - 0.70)) [0.5; 2.0]
    /\ (barrier_at_0_7nm_kJ_mol e = None <-> blocked Li_H2O4 d).
Proof.
  destruct (barrier_at_critical_is_nearest "Li_H2O4" Li_H2O4 30 [0.5; 2.0])
    as (e & d & He & Hin & Hnear & _ & Hiff); [discriminate |].
  exists e, d. repeat split; try assumption; apply Hiff.
Defined.

(** *** The whole profile *)

Lemma species_entry_length (key : string) (ion : IonSpecies) (eb : R)
    (range : list R) :
  range <> [] ->
  exists e,
    species_entry key ion range eb = Ok e
    /\ List.length (enthalpy_profile_kJ_mol e) = List.length range.
Proof.
  intros Hne.
  destruct (species_entry_spec key ion eb range Hne)
    as (e & _ & _ & He & Hf & _).
  exists e. split; [exact He |]. symmetry. eapply Forall2_length, Hf.
Qed.

Lemma compute_profile_spec (eb : R) (range : list R) :
  range <> [] ->
  exists res,
    compute_dehydration_profile (Some range) eb = Ok res
    /\ pore_diameters_nm res = range
    /\ map fst (species res) = map fst SPECIES
    /\ Forall (fun ke => List.length (enthalpy_profile_kJ_mol (snd ke))
                         = List.length range) (species res).
Proof.
  intros Hne. unfold compute_dehydration_profile.
  assert (H0 : exists x, index range 0 = Ok x).
  { destruct range; [congruence |]. cbn. eauto. }
  assert (H1 : exists x, index (rev range) 0 = Ok x).
  { destruct (rev range) eqn:E; [| cbn; eauto].
    apply (f_equal (@rev R)) in E. rewrite rev_involutive in E.
    cbn in E. congruence. }
  destruct H0 as [x0 ->]. destruct H1 as [x1 ->]. cbn [bind].
  unfold SPECIES. cbn [mapM].
  destruct (species_entry_length "Li+" Li_plus eb range Hne) as (e1 & -> & L1).
  destruct (species_entry_length "Na+" Na_plus eb range Hne) as (e2 & -> & L2).
  destruct (species_entry_length "Li_EC4" Li_EC4 eb range Hne)
    as (e3 & -> & L3).
  destruct (species_entry_length "Li_H2O4" Li_H2O4 eb range Hne)
    as (e4 & -> & L4).
  destruct (species_entry_length "dendrite_tip" dendrite_tip eb range Hne)
    as (e5 & -> & L5).
  cbn [bind]. eexists. split; [reflexivity |].
  cbn [pore_diameters_nm species map fst]. repeat split.
  repeat constructor; assumption.
Qed.

Lemma np_linspace_length (start stop : R) (num : nat) :
  List.length (np_linspace start stop num) = num.
Proof. unfold np_linspace. now rewrite length_map, length_seq. Qed.

(** X12: an empty pore range raises IndexError; on any other range, and
    on the default one of 500 points, the profile is computed without an
    exception: the pore list is returned unchanged and there is one entry
    per species of the table, in its order, each with one profile value
    per pore. *)
Theorem compute_dehydration_profile_runs (eb : R) :
  compute_dehydration_profile (Some []) eb = Raise IndexError
  /\ (forall range,
        range <> [] ->
        exists res,
          compute_dehydration_profile (Some range) eb = Ok res
          /\ pore_diameters_nm res = range
          /\ map fst (species res)
             = ["Li+"; "Na+"; "Li_EC4"; "Li_H2O4"; "dendrite_tip"]
          /\ Forall (fun ke =>
                       List.length (enthalpy_profile_kJ_mol (snd ke))
                       = List.length range) (species res))
  /\ exists res,
       compute_dehydration_profile None eb = Ok res
       /\ List.length (pore_diameters_nm res) = 500%nat.
Proof.
  split; [reflexivity |]. split.
  - intros range Hne.
    destruct (compute_profile_spec eb range Hne) as (res & H1 & H2 & H3 & H4).
    exists res. repeat split; assumption.
  - assert (Hne : np_linspace 0.3 3.0 500 <> []).
    { intros E. apply (f_equal (@List.length R)) in E.
      rewrite np_linspace_length in E. discriminate. }
    destruct (compute_profile_spec eb _ Hne) as (res & H1 & H2 & _).
    exists res. split; [exact H1 |].
    rewrite H2. apply np_linspace_length.
Qed.

Lemma compute_dehydration_profile_runs_witness :
  exists res,
    compute_dehydration_profile (Some [0.5; 0.70; 1.0]) 30 = Ok res
    /\ pore_diameters_nm res = [0.5; 0.70; 1.0]
    /\ map fst (species res)
       = ["Li+"; "Na+"; "Li_EC4"; "Li_H2O4"; "dendrite_tip"].
Proof.
  destruct (compute_dehydration_profile_runs 30) as (_ & Hrun & _).
  destruct (Hrun [0.5; 0.70; 1.0]) as (res & H1 & H2 & H3 & _);
    [discriminate |].
  exists res. repeat split; assumption.
Defined.

End DehydrationProfile.

(** ** Selectivity against the reference ion *)

Section Selectivity.
Import Born Sieve.

Lemma RT_pos : 0 < RT.
Proof. unfold RT, K_B, T_selectivity, N_A. lra. Qed.

Lemma exp_ratio_gt_1 (x : R) : 0 < x -> 1 < exp (x / RT).
Proof.
  intros Hx. pose proof RT_pos as HRT.
  assert (0 < x / RT) by (apply Rdiv_lt_0_compat; assumption).
  pose proof (exp_ineq1 (x / RT) (Rgt_not_eq _ _ H)). lra.
Qed.

Lemma exp_ratio_mono (x y : R) : x <= y -> exp (x / RT) <= exp (y / RT).
Proof.
  intros H. apply exp_le_mono. pose proof RT_pos as HRT.
  apply Rmult_le_compat_r; [| exact H].
  left. now apply Rinv_0_lt_compat.
Qed.

(** The numeric selectivity, by the range of the barrier difference. *)
Lemma selectivity_value_cases (n : string) (b li : R) :
  let s := selectivity_value (selectivity_entry n (Some b) li) in
  (100 < b - li /\ s = PosInf)
  \/ (5 < b - li <= 100 /\ s = Finite (exp ((b - li) / RT)))
  \/ (b - li <= 5 /\ s = Finite 1).
Proof.
  unfold selectivity_entry, Rgtb.
  destruct (Rltb 100 (b - li)) eqn:E1.
  { apply Rltb_true in E1. left. split; [exact E1 | reflexivity]. }
  apply Rltb_false in E1.
  destruct (Rltb 20 (b - li)) eqn:E2.
  { apply Rltb_true in E2. right. left. split; [lra | reflexivity]. }
  apply Rltb_false in E2.
  destruct (Rltb 5 (b - li)) eqn:E3.
  { apply Rltb_true in E3. right. left. split; [lra | reflexivity]. }
  apply Rltb_false in E3. right. right.
  split; [exact E3 |]. cbn [selectivity_value]. f_equal. lra.
Qed.

(** X13: the selectivity computed for a species is at least 1, is infinite
    for a blocked species, and never decreases when the barrier of the
    species rises against the same reference barrier. *)
Theorem selectivity_monotone (n1 n2 : string) (b1 b2 li : R) :
  b1 <= b2 ->
  xle (Finite 1) (selectivity_value (selectivity_entry n1 (Some b1) li))
  /\ xle (selectivity_value (selectivity_entry n1 (Some b1) li))
         (selectivity_value (selectivity_entry n2 (Some b2) li))
  /\ selectivity_value (selectivity_entry n2 None li) = PosInf.
Proof.
  intros Hb.
  destruct (selectivity_value_cases n1 b1 li)
    as [[H1 ->] | [[H1 ->] | [H1 ->]]];
    destruct (selectivity_value_cases n2 b2 li)
      as [[H2 ->] | [[H2 ->] | [H2 ->]]];
    cbn [xle]; repeat split; try lra;
    try (left; apply exp_ratio_gt_1; lra);
    try (apply exp_ratio_mono; lra).
Qed.

Lemma selectivity_monotone_witness :
  xle (Finite 1) (selectivity_value (selectivity_entry "a" (Some 30) 10))
  /\ xle (selectivity_value (selectivity_entry "a" (Some 30) 10))
         (selectivity_value (selectivity_entry "b" (Some 500) 10)).
Proof.
  destruct (selectivity_monotone "a" "b" 30 500 10) as (H1 & H2 & _);
    [lra |].
  split; assumption.
Defined.

(** *** The whole function *)

Lemma index_in_range {A : Type} (a : list A) (i : nat) (d : A) :
  (i < List.length a)%nat -> index a i = Ok (nth i a d).
Proof.
  intros H. unfold index.
  destruct (nth_error a i) as [x |] eqn:E.
  - f_equal. symmetry. now apply nth_error_nth.
  - apply nth_error_None in E. lia.
Qed.

Lemma dict_get_In {A : Type} (d : list (string * A)) (key : string) (v : A) :
  dict_get d key = Some v -> In (key, v) d.
Proof.
  induction d as [| [k w] d IH]; cbn [dict_get]; [discriminate |].
  destruct (String.eqb k key) eqn:E.
  - apply String.eqb_eq in E. intros H. injection H as ->. subst. now left.
  - intros H. right. now apply IH.
Qed.

Lemma dict_get_map {A B : Type} (g : A -> B) (d : list (string * A))
    (key : string) :
  dict_get (map (fun kv => (fst kv, g (snd kv))) d) key
  = option_map g (dict_get d key).
Proof.
  induction d as [| [k w] d IH]; cbn [map dict_get fst snd]; [reflexivity |].
  destruct (String.eqb k key); [reflexivity | exact IH].
Qed.

(** The loop over the species, once the index is known to be in range. *)
Lemma selectivity_loop (idx : nat) (li_barrier : R)
    (l : list (string * SpeciesResult)) :
  Forall (fun ke => (idx < List.length (enthalpy_profile_kJ_mol (snd ke)))%nat)
         l ->
  mapM (fun '(key, species_data) =>
          barrier <- index (enthalpy_profile_kJ_mol species_data) idx ;;
          Ok (key, selectivity_entry (s_name species_data) barrier li_barrier))
       l
  = Ok (map (fun kv =>
               (fst kv,
                selectivity_entry (s_name (snd kv))
                  (nth idx (enthalpy_profile_kJ_mol (snd kv)) None)
                  li_barrier)) l).
Proof.
  induction 1 as [| [k sd] l Hk _ IH]; [reflexivity |].
  cbn [mapM map fst snd] in *.
  rewrite (index_in_range _ _ None Hk). cbn [bind].
  rewrite IH. reflexivity.
Qed.

(** X14: [compute_selectivity] ends with KeyError when the results have
    no entry "Li+".  When they have one, the pore list is not empty and
    every profile has one value per pore, it returns one entry per
    species, in the same order, and the entry of "Li+" itself is either
    PASS with selectivity 1 (its own barrier is finite) or BLOCKED with
    infinite selectivity (it is blocked at the target pore).  Results that
    [compute_dehydration_profile] returns always qualify. *)
Theorem compute_selectivity_runs (res : ProfileResults) (target : R) :
  (dict_get (species res) "Li+" = None ->
   compute_selectivity res target = KeyError "Li+")
  /\ (forall li,
        dict_get (species res) "Li+" = Some li ->
        pore_diameters_nm res <> [] ->
        Forall (fun ke => List.length (enthalpy_profile_kJ_mol (snd ke))
                          = List.length (pore_diameters_nm res))
               (species res) ->
        exists sel entry,
          compute_selectivity res target = Found (Ok sel)
          /\ map fst (species_selectivity sel) = map fst (species res)
          /\ dict_get (species_selectivity sel) "Li+" = Some entry
          /\ ((status entry = "✅ PASS"
               /\ selectivity_value entry = Finite 1)
              \/ (status entry = "⛔ BLOCKED"
                  /\ selectivity_value entry = PosInf)))
  /\ (forall range eb,
        range <> [] ->
        compute_dehydration_profile (Some range) eb = Ok res ->
        exists sel, compute_selectivity res target = Found (Ok sel)).
Proof.
  assert (Hmain : forall li,
    dict_get (species res) "Li+" = Some li ->
    pore_diameters_nm res <> [] ->
    Forall (fun ke => List.length (enthalpy_profile_kJ_mol (snd ke))
                      = List.length (pore_diameters_nm res))
           (species res) ->
    exists sel entry,
      compute_selectivity res target = Found (Ok sel)
      /\ map fst (species_selectivity sel) = map fst (species res)
      /\ dict_get (species_selectivity sel) "Li+" = Some entry
      /\ ((status entry = "✅ PASS" /\ selectivity_value entry = Finite 1)
          \/ (status entry = "⛔ BLOCKED"
              /\ selectivity_value entry = PosInf))).
  { intros li Hli Hne Hlen. unfold compute_selectivity. rewrite Hli.
    destruct (np_argmin_R_spec
                (map (fun d => Rabs (d - target)) (pore_diameters_nm res)))
      as (idx & v & Hidx & Hv & _).
    { destruct (pore_diameters_nm res); [congruence | discriminate]. }
    assert (Hi : (idx < List.length (pore_diameters_nm res))%nat).
    { rewrite <- (length_map (fun d => Rabs (d - target))).
      apply nth_error_Some. congruence. }
    assert (Hall : Forall (fun ke =>
              (idx < List.length (enthalpy_profile_kJ_mol (snd ke)))%nat)
              (species res)).
    { eapply Forall_impl; [| exact Hlen]. intros ke Hke. cbn beta in Hke.
      rewrite Hke. exact Hi. }
    pose proof (dict_get_In _ _ _ Hli) as Hin.
    pose proof (proj1 (Forall_forall _ _) Hall _ Hin) as Hli_len.
    cbn [snd] in Hli_len.
    rewrite Hidx. cbn [bind].
    rewrite (index_in_range _ _ None Hli_len). cbn [bind].
    rewrite (selectivity_loop idx _ _ Hall). cbn [bind].
    eexists _, _. split; [reflexivity |].
    cbn [species_selectivity]. split; [| split].
    - rewrite map_map. apply map_ext. intros [k sd]. reflexivity.
    - rewrite (dict_get_map
                 (fun sd => selectivity_entry (s_name sd)
                              (nth idx (enthalpy_profile_kJ_mol sd) None) _)).
      rewrite Hli. reflexivity.
    - destruct (nth idx (enthalpy_profile_kJ_mol li) None) as [b |].
      + left. unfold selectivity_entry, Rgtb.
        replace (b - b) with 0 by lra.
        assert (E1 : Rltb 100 0 = false) by (apply Rltb_false; lra).
        assert (E2 : Rltb 20 0 = false) by (apply Rltb_false; lra).
        assert (E3 : Rltb 5 0 = false) by (apply Rltb_false; lra).
        rewrite E1, E2, E3. split; [reflexivity |].
        cbn [selectivity_value]. f_equal. lra.
      + right. split; reflexivity. }
  split; [| split].
  - intros H. unfold compute_selectivity. now rewrite H.
  - exact Hmain.
  - intros range eb Hne Hrun.
    destruct (compute_profile_spec eb range Hne)
      as (res' & Hrun' & Hp & Hkeys & Hlen).
    assert (res' = res) as -> by congruence.
    assert (Hli : exists li, dict_get (species res) "Li+" = Some li).
    { destruct (species res) as [| [k e] rest]; [discriminate |].
      cbn [map fst SPECIES] in Hkeys. injection Hkeys as -> _.
      cbn [dict_get]. rewrite String.eqb_refl. eauto. }
    destruct Hli as [li Hli].
    destruct (Hmain li Hli) as (sel & _ & Hsel & _).
    + rewrite Hp. exact Hne.
    + rewrite Hp. exact Hlen.
    + eauto.
Qed.

Lemma compute_selectivity_runs_witness :
  exists res sel,
    compute_dehydration_profile (Some [0.5; 0.70; 1.0]) 30 = Ok res
    /\ compute_selectivity res 0.70 = Found (Ok sel).
Proof.
  destruct (compute_profile_spec 30 [0.5; 0.70; 1.0]) as (res & Hrun & _);
    [discriminate |].
  destruct (compute_selectivity_runs res 0.70) as (_ & _ & Hcomp).
  destruct (Hcomp [0.5; 0.70; 1.0] 30) as [sel Hsel];
    [discriminate | exact Hrun |].
  exists res, sel. split; assumption.
Defined.

End Selectivity.

(** ** Accounting of the cycle-life loop *)

Section CycleLifeAccounting.
Import CycleLife.

Variable a : Architecture.
Variables T_celsius C_rate DoD : R.
Variable rng : nat -> R.

(** The initial flaw alone is 5 % damage. *)
Lemma fatigue_at_least_initial (n : Z) (f : R) :
  (0 <= n)%Z ->
  fatigue_damage_per_cycle a n T_celsius DoD = Ok f -> 0.05 <= f.
Proof.
  intros Hn. destruct (fatigue_shape a T_celsius DoD) as (rate & Hr & Hs).
  rewrite Hs. destruct rate as [v |]; [| discriminate]. cbn [bind].
  intros H. injection H as <-. specialize (Hr v eq_refl).
  assert (1 <= IZR (n + 1)) by (apply IZR_le; lia).
  assert (0.05 <= (5e-6 + v * IZR (n + 1)) / 100e-6).
  { apply Rmult_le_reg_r with 100e-6; [lra |].
    unfold Rdiv. rewrite Rmult_assoc, Rinv_l, Rmult_1_r by lra. nra. }
  unfold Rmin. destruct (Rle_dec _ _); lra.
Qed.

(** What one pass does to the accumulators. *)
Lemma loop_body_accounting (n : Z) (draw : R) (st st' : LoopState) :
  (0 <= n)%Z ->
  loop_body a T_celsius C_rate DoD n draw st = Ok st' ->
  (dendrite_events st' = dendrite_events st
   \/ dendrite_events st' = (dendrite_events st + 1)%Z)
  /\ (exists l, locals st' = Some l /\ n_var l = n)
  /\ map cycle (history st')
     = map cycle (history st) ++ (if (n mod 50 =? 0)%Z then [n] else [])
  /\ capacity_log st' = capacity st' :: capacity_log st
  /\ ((0 <= dendrite_events st)%Z ->
      capacity st' <= Rmax 0 (0.985 - 0.02 * IZR (dendrite_events st'))).
Proof.
  intros Hn. unfold loop_body.
  destruct (sei_growth_per_cycle a n T_celsius C_rate) as [s |] eqn:Hs;
    [| discriminate].
  destruct (fatigue_damage_per_cycle a n T_celsius DoD) as [f |] eqn:Hf;
    [| discriminate].
  destruct (dendrite_nucleation_probability a T_celsius _) as [p |];
    [| discriminate].
  cbn [bind]. intros H. injection H as <-.
  cbn [dendrite_events locals history capacity capacity_log n_var].
  apply (sei_nonneg a T_celsius C_rate) in Hs.
  apply (fatigue_at_least_initial n f Hn) in Hf.
  repeat split.
  - destruct (Rltb draw p); auto.
  - eexists. split; reflexivity.
  - destruct (n mod 50 =? 0)%Z.
    + rewrite map_app. reflexivity.
    + now rewrite app_nil_r.
  - intros Hev. replace 0.0 with 0 by lra.
    apply Rle_max_compat_l. lra.
Qed.

(** The run of [count] passes from cycle [n]: how many passes were made,
    and what they left behind. *)
Lemma for_range_accounting (count : nat) :
  forall (n : Z) (st st_end : LoopState),
    (0 <= n)%Z ->
    (0 <= dendrite_events st)%Z ->
    for_range a T_celsius C_rate DoD rng count n st = Ok st_end ->
    exists (k : nat) (new : list R),
      (k <= count)%nat
      /\ capacity_log st_end = new ++ capacity_log st
      /\ List.length new = k
      /\ Forall (fun c => 0.70 <= c) (tl new)
      /\ ((k < count)%nat -> capacity st_end < 0.70)
      /\ (k = 0%nat -> st_end = st /\ count = 0%nat)
      /\ ((0 < k)%nat ->
          (exists l, locals st_end = Some l
                     /\ n_var l = (n + Z.of_nat k - 1)%Z)
          /\ capacity st_end
             <= Rmax 0 (0.985 - 0.02 * IZR (dendrite_events st_end)))
      /\ (dendrite_events st <= dendrite_events st_end
          <= dendrite_events st + Z.of_nat k)%Z
      /\ map cycle (history st_end)
         = map cycle (history st)
           ++ filter (fun c => (c mod 50 =? 0)%Z)
                     (map (fun i => (n + Z.of_nat i)%Z) (seq 0 k)).
Proof.
  induction count as [| count IH]; intros n st st_end Hn Hev;
    cbn [for_range].
  - intros H. injection H as <-. exists 0%nat, [].
    cbn [app List.length tl seq map filter]. rewrite app_nil_r.
    repeat split; auto; try lia.
  - destruct (loop_body a T_celsius C_rate DoD n (rng (Z.to_nat n)) st)
      as [st' |] eqn:Hb; [| discriminate].
    cbn [bind].
    destruct (loop_body_accounting n _ st st' Hn Hb)
      as (Hev' & (l & Hl & Hnl) & Hhist & Hlog & Hceil).
    specialize (Hceil Hev).
    destruct (Rltb (capacity st') 0.70) eqn:Ecap.
    + apply Rltb_true in Ecap. intros H. injection H as <-.
      exists 1%nat, [capacity st'].
      cbn [app List.length tl seq map filter].
      rewrite Z.add_0_r. repeat split; auto; try lia;
        try (exists l; split; [exact Hl | lia]);
        try (rewrite Hhist; destruct (n mod 50 =? 0)%Z; reflexivity).
    + apply Rltb_false in Ecap. intros H.
      destruct (IH (n + 1)%Z st' st_end) as
        (k & new & Hk & Hnew & Hlen & Htl & Hstop & Hzero & Hpos & Hevs & Hh);
        [lia | lia | exact H |].
      exists (S k), (new ++ [capacity st']).
      repeat split.
      * lia.
      * rewrite Hnew, Hlog, <- app_assoc. reflexivity.
      * rewrite length_app. cbn [List.length]. lia.
      * destruct new as [| c new]; cbn [app tl] in *; [constructor |].
        apply Forall_app. split; [exact Htl |].
        constructor; [exact Ecap | constructor].
      * intros Hlt. apply Hstop. lia.
      * discriminate.
      * discriminate.
      * destruct k as [| k].
        -- destruct (Hzero eq_refl) as [-> _].
           exists l. split; [exact Hl | lia].
        -- destruct Hpos as [(l' & Hl' & Hnl') _]; [lia |].
           exists l'. split; [exact Hl' | lia].
      * destruct k as [| k].
        -- destruct (Hzero eq_refl) as [-> _]. exact Hceil.
        -- apply Hpos. lia.
      * lia.
      * lia.
      * rewrite Hh, Hhist, <- app_assoc. f_equal.
        cbn [seq map filter]. rewrite Z.add_0_r.
        rewrite <- seq_shift, map_map.
        assert (E : map (fun i => (n + 1 + Z.of_nat i)%Z) (seq 0 k)
                    = map (fun i => (n + Z.of_nat (S i))%Z) (seq 0 k)).
        { apply map_ext. intros i. lia. }
        rewrite E. destruct (n mod 50 =? 0)%Z; reflexivity.
Qed.

End CycleLifeAccounting.

Section CycleLifeRun.
Import CycleLife.

Lemma run_loop_passes (a : Architecture) (n_cycles : Z)
    (T_celsius C_rate DoD : R) (rng : nat -> R) (st : LoopState) :
  (1 <= n_cycles)%Z ->
  run_loop a n_cycles T_celsius C_rate DoD rng = Ok st ->
  exists k : nat,
    (1 <= k <= Z.to_nat n_cycles)%nat
    /\ List.length (capacity_log st) = k
    /\ Forall (fun c => 0.70 <= c) (tl (capacity_log st))
    /\ ((k < Z.to_nat n_cycles)%nat -> capacity st < 0.70)
    /\ (exists l, locals st = Some l /\ n_var l = (Z.of_nat k - 1)%Z)
    /\ capacity st <= Rmax 0 (0.985 - 0.02 * IZR (dendrite_events st))
    /\ (0 <= dendrite_events st <= Z.of_nat k)%Z
    /\ map cycle (history st)
       = filter (fun c => (c mod 50 =? 0)%Z) (map Z.of_nat (seq 0 k)).
Proof.
  intros Hn Hrun. unfold run_loop in Hrun.
  destruct (for_range_accounting a T_celsius C_rate DoD rng
              (Z.to_nat n_cycles) 0 initial_state st) as
    (k & new & Hk & Hnew & Hlen & Htl & Hstop & Hzero & Hpos & Hev & Hh);
    [lia | cbn; lia | exact Hrun |].
  cbn [capacity_log dendrite_events history initial_state map app] in *.
  rewrite app_nil_r in Hnew. subst new.
  assert (Hk1 : (0 < k)%nat).
  { destruct k; [| lia]. destruct (Hzero eq_refl) as [_ H0]. lia. }
  destruct (Hpos Hk1) as [(l & Hl & Hnl) Hceil].
  exists k. repeat split; try assumption; try lia;
    try (exists l; split; [exact Hl | lia]).
Qed.

(** X15: a run of the loop with n_cycles >= 1 makes between 1 and
    n_cycles passes; every pass but the last ended with capacity at
    least 0.70, and if fewer than n_cycles passes were made the last one
    ended below 0.70 (the end-of-life break); the number of dendrite
    events lies between 0 and the number of passes. *)
Theorem run_loop_accounting (a : Architecture) (n_cycles : Z)
    (T_celsius C_rate DoD : R) (rng : nat -> R) (st : LoopState) :
  (1 <= n_cycles)%Z ->
  run_loop a n_cycles T_celsius C_rate DoD rng = Ok st ->
  let passes := List.length (capacity_log st) in
  (1 <= passes <= Z.to_nat n_cycles)%nat
  /\ Forall (fun c => 0.70 <= c) (tl (capacity_log st))
  /\ ((passes < Z.to_nat n_cycles)%nat -> capacity st < 0.70)
  /\ (0 <= dendrite_events st <= Z.of_nat passes)%Z.
Proof.
  intros Hn Hrun.
  destruct (run_loop_passes a n_cycles T_celsius C_rate DoD rng st Hn Hrun)
    as (k & Hk & Hlen & Htl & Hstop & _ & _ & Hev & _).
  cbn zeta. rewrite Hlen. repeat split; try assumption; lia.
Qed.

Lemma run_loop_accounting_witness :
  exists st,
    run_loop GENESIS 2000 25.0 0.33 0.80 (fun _ => 0.5) = Ok st
    /\ (1 <= List.length (capacity_log st) <= 2000)%nat
    /\ Forall (fun c => 0.70 <= c) (tl (capacity_log st)).
Proof.
  destruct (for_range_total GENESIS 25.0 0.33 0.80 (fun _ => 0.5)
              (Z.to_nat 2000)) with (n := 0%Z) (st := initial_state)
    as [st Hst]; [cbn; lra | lra | lra | lia |].
  exists st. split; [exact Hst |].
  destruct (run_loop_accounting GENESIS 2000 25.0 0.33 0.80 (fun _ => 0.5)
              st) as (H1 & H2 & _); [lia | exact Hst |].
  split; [| exact H2].
  change (Z.to_nat 2000) with 2000%nat in H1. exact H1.
Defined.

(** X16: after any pass [capacity] is at most 0.985 - 0.02 x the number of
    dendrite events (or 0 when that is negative): the initial flaw alone
    costs 1.5 %, and with 15 events or more the capacity is below the
    end-of-life level 0.70. *)
Theorem capacity_ceiling (a : Architecture) (n_cycles : Z)
    (T_celsius C_rate DoD : R) (rng : nat -> R) (st : LoopState) :
  (1 <= n_cycles)%Z ->
  run_loop a n_cycles T_celsius C_rate DoD rng = Ok st ->
  capacity st <= Rmax 0 (0.985 - 0.02 * IZR (dendrite_events st))
  /\ capacity st <= 0.985
  /\ ((15 <= dendrite_events st)%Z -> capacity st < 0.70).
Proof.
  intros Hn Hrun.
  destruct (run_loop_passes a n_cycles T_celsius C_rate DoD rng st Hn Hrun)
    as (k & _ & _ & _ & _ & _ & Hceil & Hev & _).
  assert (0 <= IZR (dendrite_events st)) by (apply IZR_le; lia).
  split; [exact Hceil |]. split.
  - eapply Rle_trans; [exact Hceil |]. apply Rmax_lub; lra.
  - intros H15. apply IZR_le in H15.
    eapply Rle_lt_trans; [exact Hceil |].
    apply Rmax_lub_lt; lra.
Qed.

Lemma capacity_ceiling_witness :
  exists st,
    run_loop BASELINE 2000 25.0 0.33 0.80 (fun _ => 0.5) = Ok st
    /\ capacity st <= 0.985.
Proof.
  destruct (for_range_total BASELINE 25.0 0.33 0.80 (fun _ => 0.5)
              (Z.to_nat 2000)) with (n := 0%Z) (st := initial_state)
    as [st Hst]; [cbn; lra | lra | lra | lia |].
  exists st. split; [exact Hst |].
  apply (capacity_ceiling BASELINE 2000 25.0 0.33 0.80 (fun _ => 0.5) st);
    [lia | exact Hst].
Defined.

(** X17: the dictionary [run_cycle_life] returns for n_cycles >= 1 is
    consistent: between 1 and n_cycles cycles were tested, the dendrite
    count lies between 0 and the cycles tested, the history has exactly
    one row for each tested cycle number divisible by 50, in increasing
    order, and cycles_to_80_pct is either n_cycles or the cycle number of
    one of those rows. *)
Theorem run_cycle_life_result (a : Architecture) (n_cycles : Z)
    (T_celsius C_rate DoD : R) (rng : nat -> R) (r : CycleLifeResult) :
  (1 <= n_cycles)%Z ->
  run_cycle_life a n_cycles T_celsius C_rate DoD rng = Ok r ->
  (1 <= r_n_cycles_tested r <= n_cycles)%Z
  /\ (0 <= r_total_dendrites r <= r_n_cycles_tested r)%Z
  /\ map cycle (r_history r)
     = filter (fun c => (c mod 50 =? 0)%Z)
              (map Z.of_nat (seq 0 (Z.to_nat (r_n_cycles_tested r))))
  /\ (r_cycles_to_80_pct r = n_cycles
      \/ ((r_cycles_to_80_pct r) mod 50 = 0
          /\ 0 <= r_cycles_to_80_pct r < r_n_cycles_tested r)%Z).
Proof.
  intros Hn. unfold run_cycle_life.
  destruct (truediv 1 C_rate) as [q |]; [| discriminate]. cbn [bind].
  destruct (run_loop a n_cycles T_celsius C_rate DoD rng) as [st |] eqn:Hrun;
    [| discriminate].
  cbn [bind cycling_stress_amplitude_MPa dendrite_barrier_MPa].
  destruct (run_loop_passes a n_cycles T_celsius C_rate DoD rng st Hn Hrun)
    as (k & Hk & _ & _ & _ & (l & Hl & Hnl) & _ & Hev & Hh).
  rewrite Hl. intros H. injection H as <-.
  cbn [r_n_cycles_tested r_total_dendrites r_history r_cycles_to_80_pct].
  rewrite Hnl. replace (Z.of_nat k - 1 + 1)%Z with (Z.of_nat k) by lia.
  rewrite Nat2Z.id. repeat split; try lia; try assumption.
  destruct (find _ (history st)) as [entry |] eqn:Hfind; [| now left].
  right. apply find_some in Hfind. destruct Hfind as [Hin _].
  apply (in_map cycle) in Hin. rewrite Hh in Hin.
  apply filter_In in Hin. destruct Hin as [Hin Hmod].
  apply in_map_iff in Hin. destruct Hin as (i & Ei & Hi).
  apply in_seq in Hi. apply Z.eqb_eq in Hmod.
  rewrite <- Ei in *. split; [exact Hmod | lia].
Qed.

Lemma run_cycle_life_total (a : Architecture) (n_cycles : Z)
    (T_celsius C_rate DoD : R) (rng : nat -> R) :
  0 <= stress_concentration_factor a -> 0 < C_rate ->
  T_celsius + 273.15 <> 0 -> (1 <= n_cycles)%Z ->
  exists r, run_cycle_life a n_cycles T_celsius C_rate DoD rng = Ok r.
Proof.
  intros Hk HC HT Hn. unfold run_cycle_life.
  rewrite truediv_ok by lra. cbn [bind].
  destruct (for_range_total a T_celsius C_rate DoD rng (Z.to_nat n_cycles)
              Hk HC HT 0 initial_state) as [st Hst]; [lia |].
  change (for_range a T_celsius C_rate DoD rng (Z.to_nat n_cycles) 0
            initial_state)
    with (run_loop a n_cycles T_celsius C_rate DoD rng) in Hst.
  rewrite Hst.
  cbn [bind cycling_stress_amplitude_MPa dendrite_barrier_MPa].
  destruct (run_loop_passes a n_cycles T_celsius C_rate DoD rng st Hn Hst)
    as (k & _ & _ & _ & _ & (l & Hl & _) & _).
  rewrite Hl. eauto.
Qed.

Lemma run_cycle_life_result_witness :
  exists r,
    run_cycle_life GENESIS 2000 25.0 0.33 0.80 (fun _ => 0.5) = Ok r
    /\ (1 <= r_n_cycles_tested r <= 2000)%Z
    /\ (0 <= r_total_dendrites r <= r_n_cycles_tested r)%Z.
Proof.
  destruct (run_cycle_life_total GENESIS 2000 25.0 0.33 0.80 (fun _ => 0.5))
    as [r Hr]; [cbn; lra | lra | lra | lia |].
  exists r. split; [exact Hr |].
  destruct (run_cycle_life_result GENESIS 2000 25.0 0.33 0.80
              (fun _ => 0.5) r) as (H1 & H2 & _); [lia | exact Hr |].
  split; assumption.
Defined.

(** X18: [run_cycle_life] cannot return without a pass of the loop: with
    C_rate = 0 the banner already raises ZeroDivisionError, and with
    n_cycles <= 0 the loop variable is never bound, so building the result
    raises UnboundLocalError. *)
Theorem run_cycle_life_without_cycles (a : Architecture) (n_cycles : Z)
    (T_celsius C_rate DoD : R) (rng : nat -> R) :
  (C_rate = 0 ->
   run_cycle_life a n_cycles T_celsius C_rate DoD rng
   = Raise ZeroDivisionError)
  /\ (C_rate <> 0 -> (n_cycles <= 0)%Z ->
      run_cycle_life a n_cycles T_celsius C_rate DoD rng
      = Raise UnboundLocalError).
Proof.
  split.
  - intros ->. unfold run_cycle_life, truediv.
    destruct (Req_dec_T 0 0); [reflexivity | lra].
  - intros HC Hn. unfold run_cycle_life.
    rewrite truediv_ok by assumption. cbn [bind].
    unfold run_loop.
    replace (Z.to_nat n_cycles) with 0%nat by lia.
    reflexivity.
Qed.

Lemma run_cycle_life_without_cycles_witness :
  run_cycle_life GENESIS 0 25.0 0.33 0.80 (fun _ => 0.5)
  = Raise UnboundLocalError
  /\ run_cycle_life GENESIS 2000 25.0 0 0.80 (fun _ => 0.5)
     = Raise ZeroDivisionError.
Proof.
  split.
  - apply (run_cycle_life_without_cycles GENESIS 0 25.0 0.33 0.80); [lra | lia].
  - apply (run_cycle_life_without_cycles GENESIS 2000 25.0 0 0.80).
    reflexivity.
Defined.

End CycleLifeRun.

(** ** The SEI and fatigue models as functions of their inputs *)

Section DegradationShape.
Import CycleLife.

(** X19: the SEI thickness grows as the square root of the number of
    cycles: whenever the first cycle can be computed, the thickness after
    cycle n is the first-cycle thickness times sqrt(n + 1). *)
Theorem sei_growth_parabolic (a : Architecture) (n : Z)
    (T_celsius C_rate s0 : R) :
  (0 <= n)%Z ->
  sei_growth_per_cycle a 0 T_celsius C_rate = Ok s0 ->
  sei_growth_per_cycle a n T_celsius C_rate = Ok (s0 * sqrt (IZR (n + 1))).
Proof.
  intros Hn. destruct (sei_shape a T_celsius C_rate) as [rate Hs].
  rewrite !Hs. destruct rate as [q |]; [| discriminate]. cbn [bind].
  unfold np_sqrt. change (IZR (0 + 1)) with 1. rewrite Rmult_1_r.
  destruct (Rle_dec 0 q) as [Hq |]; [| discriminate]. cbn [bind].
  intros H. injection H as <-.
  assert (Hm : 1 <= IZR (n + 1)) by (apply IZR_le; lia).
  destruct (Rle_dec 0 (q * IZR (n + 1))) as [| Hneg]; [| exfalso; nra].
  cbn [bind]. f_equal. rewrite sqrt_mult by lra. ring.
Qed.

Lemma sei_growth_parabolic_witness :
  exists s0,
    sei_growth_per_cycle GENESIS 0 25.0 0.33 = Ok s0
    /\ sei_growth_per_cycle GENESIS 3 25.0 0.33 = Ok (s0 * sqrt (IZR (3 + 1))).
Proof.
  destruct (sei_total GENESIS 25.0 0.33 0) as [s0 Hs0];
    [cbn; lra | lra | lra | lia |].
  exists s0. split; [exact Hs0 |].
  apply (sei_growth_parabolic GENESIS 3 25.0 0.33 s0); [lia | exact Hs0].
Defined.

Lemma float_pow_mono (x y e p1 p2 : R) :
  0 <= x <= y -> 0 < e ->
  float_pow x e = Ok p1 -> float_pow y e = Ok p2 -> 0 <= p1 <= p2.
Proof.
  intros [Hx Hxy] He H1 H2.
  pose proof (float_pow_nonneg _ _ _ Hx H1) as Hp1.
  assert (Hp2 : 0 <= p2) by (apply (float_pow_nonneg y e); [lra | exact H2]).
  split; [exact Hp1 |].
  unfold float_pow in H1, H2.
  destruct (Rlt_dec 0 x) as [Hx0 |].
  - destruct (Rlt_dec 0 y); [| lra].
    injection H1 as <-. injection H2 as <-.
    apply Rle_Rpower_l; lra.
  - destruct (Req_dec_T x 0); [| lra].
    destruct (Rlt_dec 0 e); [| lra]. injection H1 as <-. exact Hp2.
Qed.

(** The thickness, written out, on the physical domain. *)
Lemma sei_value (a : Architecture) (n : Z) (T_celsius C_rate : R) :
  0 <= stress_concentration_factor a -> 0 < C_rate ->
  -273.15 < T_celsius -> (0 <= n)%Z ->
  exists p,
    float_pow (2.0 * stress_concentration_factor a / 5.0) 1.5 = Ok p
    /\ sei_growth_per_cycle a n T_celsius C_rate
       = Ok (sqrt (2 * (8e-22
                        * exp (- (0.35) / K_B_EV
                               * (1 / (T_celsius + 273.15) - 1 / 298.15))
                        * (1.0 + p))
                   * (3600 / C_rate * 2 * IZR (n + 1))) * 1e9).
Proof.
  intros Hk HC HT Hn.
  destruct (float_pow_total (2.0 * stress_concentration_factor a / 5.0) 1.5)
    as [p Hp]; [lra | lra |].
  exists p. split; [exact Hp |].
  unfold sei_growth_per_cycle.
  rewrite truediv_ok by lra. cbn [bind].
  rewrite truediv_ok by lra.
  cbn [bind cycling_stress_amplitude_MPa]. rewrite Hp. cbn [bind].
  assert (Hp0 : 0 <= p) by (apply float_pow_nonneg in Hp; lra).
  unfold np_sqrt.
  match goal with |- context [Rle_dec 0 ?x] =>
    destruct (Rle_dec 0 x) as [| Hneg]; [reflexivity | exfalso; apply Hneg]
  end.
  assert (0 < 3600 / C_rate) by (apply Rdiv_lt_0_compat; lra).
  assert (1 <= IZR (n + 1)) by (apply IZR_le; lia).
  match goal with |- context [exp ?x] => pose proof (exp_pos x) end.
  repeat apply Rmult_le_pos; lra.
Qed.

(** X20: on the physical domain the SEI thickness never decreases when
    the stress concentration factor rises, when the temperature rises, or
    when the C-rate drops (longer cycles). *)
Theorem sei_growth_monotone (a1 a2 : Architecture) (n : Z)
    (T1 T2 C1 C2 : R) :
  0 <= stress_concentration_factor a1 <= stress_concentration_factor a2 ->
  -273.15 < T1 <= T2 -> 0 < C2 <= C1 -> (0 <= n)%Z ->
  exists s1 s2,
    sei_growth_per_cycle a1 n T1 C1 = Ok s1
    /\ sei_growth_per_cycle a2 n T2 C2 = Ok s2
    /\ 0 <= s1 <= s2.
Proof.
  intros [Hk1 Hk12] [HT1 HT12] [HC2 HC21] Hn.
  destruct (sei_value a1 n T1 C1) as (p1 & Hp1 & ->); try lra; try lia.
  destruct (sei_value a2 n T2 C2) as (p2 & Hp2 & ->); try lra; try lia.
  do 2 eexists. split; [reflexivity |]. split; [reflexivity |].
  assert (Hp : 0 <= p1 <= p2).
  { apply (float_pow_mono (2.0 * stress_concentration_factor a1 / 5.0)
             (2.0 * stress_concentration_factor a2 / 5.0) 1.5);
      [lra | lra | exact Hp1 | exact Hp2]. }
  set (e1 := exp _). set (e2 := exp _).
  assert (He1 : 0 < e1) by apply exp_pos.
  assert (He12 : e1 <= e2).
  { apply exp_le_mono.
    assert (/ (T2 + 273.15) <= / (T1 + 273.15))
      by (apply Rinv_le_contravar; lra).
    unfold K_B_EV, Rdiv. nra. }
  assert (Hm : 1 <= IZR (n + 1)) by (apply IZR_le; lia).
  assert (Hc : 0 < 3600 / C1 <= 3600 / C2).
  { split; [apply Rdiv_lt_0_compat; lra |].
    unfold Rdiv. apply Rmult_le_compat_l; [lra |].
    apply Rinv_le_contravar; lra. }
  assert (Hd : 0 <= 8e-22 * e1 * (1.0 + p1) <= 8e-22 * e2 * (1.0 + p2))
    by (split; nra).
  assert (Ht : 0 <= 3600 / C1 * 2 * IZR (n + 1)
               <= 3600 / C2 * 2 * IZR (n + 1)) by (split; nra).
  split.
  - apply Rmult_le_pos; [apply sqrt_pos | lra].
  - apply Rmult_le_compat_r; [lra |]. apply sqrt_le_1_alt.
    set (d1 := 8e-22 * e1 * (1.0 + p1)) in *.
    set (d2 := 8e-22 * e2 * (1.0 + p2)) in *.
    set (t1 := 3600 / C1 * 2 * IZR (n + 1)) in *.
    set (t2 := 3600 / C2 * 2 * IZR (n + 1)) in *.
    nra.
Qed.

Lemma sei_growth_monotone_witness :
  exists s1 s2,
    sei_growth_per_cycle GENESIS 999 25.0 0.33 = Ok s1
    /\ sei_growth_per_cycle BASELINE 999 25.0 0.33 = Ok s2
    /\ 0 <= s1 <= s2.
Proof.
  apply (sei_growth_monotone GENESIS BASELINE 999 25.0 25.0 0.33 0.33);
    cbn [stress_concentration_factor GENESIS BASELINE]; try lra; lia.
Defined.

(** X21: the fatigue damage does not depend on the temperature and lies
    between 0.05 (the initial flaw) and 1.  When the stress intensity
    range reaches the fracture toughness the damage is 1 from the first
    cycle on; when it is not positive (zero depth of discharge, for one)
    the damage stays at 0.05. *)
Theorem fatigue_regimes (a : Architecture) (n : Z) (T T' DoD : R) :
  (0 <= n)%Z ->
  exists f,
    fatigue_damage_per_cycle a n T DoD = Ok f
    /\ fatigue_damage_per_cycle a n T' DoD = Ok f
    /\ 0.05 <= f <= 1
    /\ (1 <= 2.0 * stress_concentration_factor a * DoD
             * stress_concentration_factor a * sqrt (PI * 5e-6) ->
        f = 1)
    /\ (2.0 * stress_concentration_factor a * DoD
        * stress_concentration_factor a * sqrt (PI * 5e-6) <= 0 ->
        f = 0.05).
Proof.
  intros Hn.
  destruct (fatigue_total a T DoD n) as [f Hf].
  exists f. split; [exact Hf |]. split; [exact Hf |].
  split.
  { split.
    - apply (fatigue_at_least_initial a T DoD n f Hn Hf).
    - apply (fatigue_bounds a T DoD n f Hn Hf). }
  assert (Hm : 1 <= IZR (n + 1)) by (apply IZR_le; lia).
  unfold fatigue_damage_per_cycle in Hf.
  cbn [cycling_stress_amplitude_MPa] in Hf.
  set (dK := 2.0 * stress_concentration_factor a * DoD
             * stress_concentration_factor a * sqrt (PI * 5e-6)) in *.
  unfold Rgtb, Rgeb in Hf. split; intros HdK.
  - assert (E1 : Rltb dK 1.0 = false) by (apply Rltb_false; lra).
    assert (E2 : Rleb 1.0 dK = true) by (apply Rleb_true; lra).
    rewrite E1, andb_false_r, E2 in Hf. cbn [bind] in Hf.
    injection Hf as <-.
    rewrite Rmin_right; [lra |].
    apply Rmult_le_reg_r with 100e-6; [lra |].
    unfold Rdiv. rewrite Rmult_assoc, Rinv_l, Rmult_1_r by lra. nra.
  - assert (E1 : Rltb 0 dK = false) by (apply Rltb_false; lra).
    assert (E2 : Rleb 1.0 dK = false) by (apply Rleb_false; lra).
    rewrite E1, E2 in Hf. cbn [andb bind] in Hf.
    injection Hf as <-.
    rewrite Rmin_left; [lra |].
    apply Rmult_le_reg_r with 100e-6; [lra |].
    unfold Rdiv. rewrite Rmult_assoc, Rinv_l, Rmult_1_r by lra. lra.
Qed.

Lemma fatigue_regimes_witness :
  exists f,
    fatigue_damage_per_cycle BASELINE 10 25.0 0 = Ok f
    /\ fatigue_damage_per_cycle BASELINE 10 80.0 0 = Ok f
    /\ f = 0.05.
Proof.
  destruct (fatigue_regimes BASELINE 10 25.0 80.0 0) as
    (f & H1 & H2 & _ & _ & Hlow); [lia |].
  exists f. repeat split; try assumption.
  apply Hlow. cbn [stress_concentration_factor BASELINE]. lra.
Defined.

(** X29: for an architecture of positive stiffness and a current density
    that is not negative, the nucleation probability never decreases when
    the temperature rises and never exceeds the base probability; at
    exactly -273.15 degrees Celsius the Boltzmann exponent divides by zero
    and the function raises ZeroDivisionError. *)
Theorem nucleation_temperature (a : Architecture) (T1 T2 cd : R) :
  0 < K_constraint_GPa a -> 0 <= cd ->
  dendrite_nucleation_probability a (-273.15) cd = Raise ZeroDivisionError
  /\ (-273.15 < T1 <= T2 ->
      exists p1 p2,
        dendrite_nucleation_probability a T1 cd = Ok p1
        /\ dendrite_nucleation_probability a T2 cd = Ok p2
        /\ 0 <= p1 <= p2 /\ p2 <= 0.001 * (cd / 0.33)).
Proof.
  intros HK Hcd. destruct (barrier_eV_sign a) as (Hpos & _ & _).
  specialize (Hpos HK). split.
  - unfold dendrite_nucleation_probability. cbn [dendrite_barrier_MPa].
    change (0.5 * K_constraint_GPa a * 1000 * 0.05 ^ 2 * 1e6 * 13.0e-6
            / 6.022e23 / 1.602e-19) with (barrier_eV a).
    unfold Rgtb. replace (Rltb 0 (barrier_eV a)) with true
      by (symmetry; now apply Rltb_true).
    unfold truediv.
    destruct (Req_dec_T (K_B_EV * (-273.15 + 273.15)) 0) as [_ | Hn];
      [reflexivity | exfalso; apply Hn; lra].
  - intros [HT1 HT12].
    rewrite !nucleation_probability_value by lra.
    do 2 eexists. split; [reflexivity |]. split; [reflexivity |].
    fold (P0 cd). assert (HP0 : 0 <= P0 cd) by (unfold P0; lra).
    set (b := barrier_eV a) in *.
    assert (Hk1 : 0 < K_B_EV * (T1 + 273.15)) by (unfold K_B_EV; lra).
    assert (Hk2 : K_B_EV * (T1 + 273.15) <= K_B_EV * (T2 + 273.15))
      by (unfold K_B_EV; lra).
    set (k1 := K_B_EV * (T1 + 273.15)) in *.
    set (k2 := K_B_EV * (T2 + 273.15)) in *.
    assert (Hi : 0 < / k2 <= / k1).
    { split; [apply Rinv_0_lt_compat; lra |].
      apply Rinv_le_contravar; assumption. }
    assert (He : exp (- b / k1) <= exp (- b / k2)).
    { apply exp_le_mono. unfold Rdiv. nra. }
    assert (H1 : exp (- b / k2) <= 1).
    { apply exp_nonpos_le_1. unfold Rdiv. nra. }
    pose proof (exp_pos (- b / k1)) as H0.
    repeat split; nra.
Qed.

Lemma nucleation_temperature_witness :
  dendrite_nucleation_probability GENESIS (-273.15) 1.0
  = Raise ZeroDivisionError.
Proof.
  destruct (nucleation_temperature GENESIS 25.0 60.0 1.0) as [H _];
    [cbn [K_constraint_GPa GENESIS]; lra | lra | exact H].
Defined.

End DegradationShape.

(** ** The verification suite: loading, errors and redundancy *)

Section VerificationExtras.
Import Verification.

Lemma filter_partition_length {A : Type} (f : A -> bool) (l : list A) :
  (List.length (filter f l) + List.length (filter (fun x => negb (f x)) l)
   = List.length l)%nat.
Proof.
  induction l as [| x l IH]; [reflexivity |].
  cbn [filter]. destruct (f x); cbn [negb List.length]; lia.
Qed.

Lemma combine_fst_snd {A B : Type} (l : list A) :
  forall l' : list B,
    List.length l = List.length l' ->
    map fst (combine l l') = l /\ map snd (combine l l') = l'.
Proof.
  induction l as [| x l IH]; intros [| y l'] H; cbn [List.length] in H;
    try discriminate; [split; reflexivity |].
  cbn [combine map fst snd].
  destruct (IH l') as [H1 H2]; [lia |]. now rewrite H1, H2.
Qed.

(** X22: in every report the passed and the failed checks add up to the
    total, the results appear unchanged and in order, and they are
    numbered 1, 2, ... *)
Theorem report_counts (results : list VerificationResult) :
  let report := generate_verification_report results in
  (passed_checks report + failed_checks report = total_checks report)%nat
  /\ map snd (entries report) = results
  /\ map fst (entries report) = seq 1 (List.length results)
  /\ (failed_checks report = 0%nat
      <-> forall r, In r results -> passed r = true).
Proof.
  cbn zeta. unfold generate_verification_report.
  cbn [passed_checks failed_checks total_checks entries].
  pose proof (filter_partition_length passed results) as Hp.
  repeat split.
  - exact Hp.
  - apply combine_fst_snd. now rewrite length_seq.
  - apply combine_fst_snd. now rewrite length_seq.
  - intros H0. apply count_equals_total. apply Nat.eqb_eq. lia.
  - intros Hall. apply count_equals_total in Hall.
    apply Nat.eqb_eq in Hall. lia.
Qed.

(** The rows the loader keeps, in order. *)
Lemma read_rows_spec (rows : list csv_row) :
  forall cycles retention cycles' retention',
    read_rows rows cycles retention = Ok (cycles', retention') ->
    List.length cycles = List.length retention ->
    List.length cycles' = List.length retention'
    /\ combine cycles' retention'
       = combine cycles retention
         ++ flat_map (fun row => match row with
                                 | DataRow c r => [(c, r)]
                                 | _ => []
                                 end) rows
    /\ Forall (fun row => match row with BadRow _ => False | _ => True end)
              rows.
Proof.
  induction rows as [| row rows IH];
    intros cycles retention cycles' retention'; cbn [read_rows flat_map].
  - intros H Hlen. injection H as <- <-. rewrite app_nil_r. auto.
  - destruct row as [| c r | e].
    + intros H Hlen. destruct (IH _ _ _ _ H Hlen) as (H1 & H2 & H3).
      repeat split; try assumption. constructor; [exact I | exact H3].
    + intros H Hlen.
      destruct (IH _ _ _ _ H) as (H1 & H2 & H3).
      { rewrite !length_app. cbn [List.length]. lia. }
      repeat split; try assumption.
      * rewrite H2.
        assert (E : combine (cycles ++ [c]) (retention ++ [r])
                    = combine cycles retention ++ [(c, r)]).
        { clear - Hlen. revert retention Hlen.
          induction cycles as [| x cycles IHc]; intros [| y retention] Hlen;
            cbn [List.length] in Hlen; try discriminate; [reflexivity |].
          cbn [app combine]. f_equal. apply IHc. lia. }
        rewrite E, <- app_assoc. reflexivity.
      * constructor; [exact I | exact H3].
    + discriminate.
Qed.

(** A pass of the loop does to the lists what the parsed row says. *)
Lemma read_row_parse (int_of : string -> result Z)
    (float_of : string -> result R) (row : list string)
    (cycles : list Z) (retention : list R) :
  read_row int_of float_of row cycles retention
  = match parse_row int_of float_of row with
    | SkippedRow => Ok (cycles, retention)
    | DataRow c r => Ok (cycles ++ [c], retention ++ [r])
    | BadRow e => Raise e
    end.
Proof.
  unfold read_row, parse_row. destruct (skip_row row); [reflexivity |].
  destruct (index row 0) as [row_0 | e]; cbn [bind]; [| reflexivity].
  destruct (int_of row_0) as [c | e]; cbn [bind]; [| reflexivity].
  destruct (index row 2) as [row_2 | e]; cbn [bind]; [| reflexivity].
  destruct (float_of row_2) as [r | e]; reflexivity.
Qed.

Lemma read_csv_read_rows (int_of : string -> result Z)
    (float_of : string -> result R) (reader : list (list string)) :
  forall cycles retention,
    read_csv int_of float_of reader cycles retention
    = read_rows (map (parse_row int_of float_of) reader) cycles retention.
Proof.
  induction reader as [| row reader IH]; intros cycles retention;
    cbn [read_csv map read_rows]; [reflexivity |].
  rewrite read_row_parse.
  destruct (parse_row int_of float_of row); cbn [bind fst snd];
    [apply IH | apply IH | reflexivity].
Qed.

(** What a row that is not skipped turns into. *)
Lemma parse_row_cases (int_of : string -> result Z)
    (float_of : string -> result R) (row : list string) :
  (skip_row row = true /\ parse_row int_of float_of row = SkippedRow)
  \/ (skip_row row = false
      /\ exists row_0,
           nth_error row 0 = Some row_0
           /\ ((exists e,
                  int_of row_0 = Raise e
                  /\ parse_row int_of float_of row = BadRow e)
               \/ (exists c,
                     int_of row_0 = Ok c
                     /\ nth_error row 2 = None
                     /\ parse_row int_of float_of row = BadRow IndexError)
               \/ (exists c row_2 e,
                     int_of row_0 = Ok c
                     /\ nth_error row 2 = Some row_2
                     /\ float_of row_2 = Raise e
                     /\ parse_row int_of float_of row = BadRow e)
               \/ (exists c row_2 r,
                     int_of row_0 = Ok c
                     /\ nth_error row 2 = Some row_2
                     /\ float_of row_2 = Ok r
                     /\ parse_row int_of float_of row = DataRow c r))).
Proof.
  unfold parse_row. destruct (skip_row row) eqn:Es; [left; auto |].
  right. split; [reflexivity |].
  destruct row as [| row_0 row']; [discriminate |].
  exists row_0. split; [reflexivity |].
  assert (E0 : index (row_0 :: row') 0 = Ok row_0) by reflexivity.
  rewrite E0. cbn [bind].
  destruct (int_of row_0) as [c | e]; [| left; eauto].
  right. destruct (nth_error (row_0 :: row') 2) as [row_2 |] eqn:E2.
  - assert (Ei : index (row_0 :: row') 2 = Ok row_2)
      by (unfold index; now rewrite E2).
    rewrite Ei. cbn [bind]. right.
    destruct (float_of row_2) as [r | e] eqn:Ef; [right | left];
      eauto 8.
  - assert (Ei : index (row_0 :: row') 2 = Raise IndexError)
      by (unfold index; now rewrite E2).
    rewrite Ei. cbn [bind]. left. eauto.
Qed.

(** X23: whatever [int] and [float] do on strings, when the cycling
    table loads the two arrays have the same length and hold, pairwise
    and in file order, [int(row[0])] and [float(row[2])] of exactly the
    rows that are not empty and whose first cell neither starts with '#'
    nor is 'cycle'.  When the rows before a row load and that row is not
    skipped, the load fails at it with the exception of [int(row[0])],
    else with IndexError when it has fewer than three cells, else with
    the exception of [float(row[2])].  On the rows so parsed the loader
    of the suite's model returns the same. *)
Theorem load_cycling_data_rows (int_of : string -> result Z)
    (float_of : string -> result R) (reader : list (list string)) :
  (forall cycles retention,
     load_cycling_data_csv int_of float_of (Some reader)
     = Ok (cycles, retention) ->
     List.length cycles = List.length retention
     /\ Forall2 (fun row cr =>
                   exists row_0 row_2,
                     nth_error row 0 = Some row_0
                     /\ nth_error row 2 = Some row_2
                     /\ int_of row_0 = Ok (fst cr)
                     /\ float_of row_2 = Ok (snd cr))
                (filter (fun row => negb (skip_row row)) reader)
                (combine cycles retention))
  /\ (forall before row after row_0 loaded,
        reader = before ++ row :: after ->
        load_cycling_data_csv int_of float_of (Some before) = Ok loaded ->
        skip_row row = false ->
        nth_error row 0 = Some row_0 ->
        (forall e,
           int_of row_0 = Raise e ->
           load_cycling_data_csv int_of float_of (Some reader) = Raise e)
        /\ (forall c,
              int_of row_0 = Ok c -> nth_error row 2 = None ->
              load_cycling_data_csv int_of float_of (Some reader)
              = Raise IndexError)
        /\ (forall c row_2 e,
              int_of row_0 = Ok c -> nth_error row 2 = Some row_2 ->
              float_of row_2 = Raise e ->
              load_cycling_data_csv int_of float_of (Some reader)
              = Raise e))
  /\ (forall d c,
        load_cycling_data_csv int_of float_of (Some reader)
        = load_cycling_data
            {| dendrite_suppression_results_json := d;
               conductivity_results_json := c;
               zero_pressure_cycling_csv :=
                 Some (map (parse_row int_of float_of) reader) |}).
Proof.
  unfold load_cycling_data_csv, load_cycling_data.
  cbn [open_read bind zero_pressure_cycling_csv].
  split; [| split].
  - intros cycles retention H. rewrite read_csv_read_rows in H.
    destruct (read_rows_spec _ [] [] cycles retention H eq_refl)
      as (Hlen & Hc & Hgood).
    split; [exact Hlen |]. rewrite Hc. cbn [combine app].
    clear H Hc Hlen cycles retention.
    induction reader as [| row reader IH]; cbn [map filter flat_map];
      [constructor |].
    inversion Hgood as [| ? ? Hrow Hrest]; subst.
    destruct (parse_row_cases int_of float_of row)
      as [[Es Ep] | (Es & row_0 & H0 & Hcase)]; rewrite Es; cbn [negb].
    + rewrite Ep. cbn [app]. apply IH, Hrest.
    + destruct Hcase as [(e & _ & Ep) | [(c & _ & _ & Ep)
        | [(c & row_2 & e & _ & _ & _ & Ep)
        | (c & row_2 & r & Hi & H2 & Hf & Ep)]]];
        rewrite Ep in *; try contradiction.
      cbn [app]. constructor; [| apply IH, Hrest].
      exists row_0, row_2. cbn [fst snd]. auto.
  - intros before row after row_0 loaded -> Hbefore Es H0.
    assert (Hstep : forall e,
              parse_row int_of float_of row = BadRow e ->
              read_csv int_of float_of (before ++ row :: after) [] []
              = Raise e).
    { intros e Ep. revert Hbefore. generalize (@nil Z) (@nil R).
      clear - Ep. induction before as [| b before IH]; intros cs rs;
        cbn [app read_csv].
      - intros _. rewrite read_row_parse, Ep. reflexivity.
      - destruct (read_row int_of float_of b cs rs) as [[cs' rs'] |];
          cbn [bind fst snd]; [apply IH | discriminate]. }
    destruct (parse_row_cases int_of float_of row)
      as [[Es' _] | (_ & row_0' & H0' & Hcase)]; [congruence |].
    assert (row_0' = row_0) by congruence. subst row_0'.
    split; [| split].
    + intros e Hi. apply Hstep.
      destruct Hcase as [(e' & Hi' & Ep) | [(c & Hi' & _)
        | [(c & ? & ? & Hi' & _) | (c & ? & ? & Hi' & _)]]];
        congruence.
    + intros c Hi H2. apply Hstep.
      destruct Hcase as [(e' & Hi' & _) | [(c' & _ & _ & Ep)
        | [(c' & ? & ? & _ & H2' & _) | (c' & ? & ? & _ & H2' & _)]]];
        congruence.
    + intros c row_2 e Hi H2 Hf. apply Hstep.
      destruct Hcase as [(e' & Hi' & _) | [(c' & _ & H2' & _)
        | [(c' & row_2' & e' & _ & H2' & Hf' & Ep)
        | (c' & row_2' & r & _ & H2' & Hf' & _)]]];
        congruence.
  - intros d c. apply read_csv_read_rows.
Qed.

Lemma load_cycling_data_rows_witness :
  load_cycling_data_csv sample_int_of sample_float_of (Some sample_reader)
  = Ok ([0; 1000]%Z, [100.0; 96.2])
  /\ Forall2 (fun row cr =>
                exists row_0 row_2,
                  nth_error row 0 = Some row_0
                  /\ nth_error row 2 = Some row_2
                  /\ sample_int_of row_0 = Ok (fst cr)
                  /\ sample_float_of row_2 = Ok (snd cr))
             [ ["0"; "1.00"; "100.0"]; ["1000"; "0.96"; "96.2"] ]
             [ (0%Z, 100.0); (1000%Z, 96.2) ].
Proof.
  split; [reflexivity |].
  destruct (load_cycling_data_rows sample_int_of sample_float_of
              sample_reader) as [Hok _].
  destruct (Hok [0; 1000]%Z [100.0; 96.2] eq_refl) as [_ H].
  exact H.
Defined.

(** [np.argmin] on an integer array returns the first position of a least
    element. *)
Lemma argmin_from_spec (a : list Z) :
  forall (best_i : nat) (best : Z) (i : nat),
    (argmin_from best_i best i a = best_i
     /\ Forall (fun x => (best <= x)%Z) a)
    \/ (exists k v,
          argmin_from best_i best i a = (i + k)%nat
          /\ nth_error a k = Some v
          /\ (v < best)%Z
          /\ Forall (fun x => (v <= x)%Z) a
          /\ forall j x, (j < k)%nat -> nth_error a j = Some x -> (v < x)%Z).
Proof.
  induction a as [| x a IH]; intros best_i best i; cbn [argmin_from].
  - left. split; [reflexivity | constructor].
  - destruct (x <? best)%Z eqn:E.
    + apply Z.ltb_lt in E. right.
      destruct (IH i x (S i))
        as [[Hr Hall] | (k & v & Hr & Hk & Hv & Hall & Hbefore)].
      * exists 0%nat, x. rewrite Hr, Nat.add_0_r.
        split; [reflexivity |]. split; [reflexivity |].
        split; [exact E |]. split.
        -- constructor; [lia | assumption].
        -- intros j y Hj. lia.
      * exists (S k), v. rewrite Hr.
        split; [lia |]. split; [exact Hk |]. split; [lia |]. split.
        -- constructor; [lia | assumption].
        -- intros [| j] y Hj Hy; cbn [nth_error] in Hy.
           ++ injection Hy as <-. assumption.
           ++ apply (Hbefore j); [lia | assumption].
    + apply Z.ltb_ge in E.
      destruct (IH best_i best (S i))
        as [[Hr Hall] | (k & v & Hr & Hk & Hv & Hall & Hbefore)].
      * left. split; [assumption | constructor; assumption].
      * right. exists (S k), v. rewrite Hr.
        split; [lia |]. split; [exact Hk |]. split; [exact Hv |]. split.
        -- constructor; [lia | assumption].
        -- intros [| j] y Hj Hy; cbn [nth_error] in Hy.
           ++ injection Hy as <-. lia.
           ++ apply (Hbefore j); [lia | assumption].
Qed.

Lemma np_argmin_spec (a : list Z) :
  a <> [] ->
  exists i v,
    np_argmin a = Ok i
    /\ nth_error a i = Some v
    /\ Forall (fun x => (v <= x)%Z) a
    /\ forall j x, (j < i)%nat -> nth_error a j = Some x -> (v < x)%Z.
Proof.
  destruct a as [| x a]; [congruence |]. intros _. cbn [np_argmin].
  destruct (argmin_from_spec a 0 x 1)
    as [[Hr Hall] | (k & v & Hr & Hk & Hv & Hall & Hbefore)].
  - exists 0%nat, x. rewrite Hr.
    split; [reflexivity |]. split; [reflexivity |]. split.
    + constructor; [lia | assumption].
    + intros j y Hj. lia.
  - exists (S k), v. rewrite Hr.
    split; [reflexivity |]. split; [exact Hk |]. split.
    + constructor; [lia | assumption].
    + intros [| j] y Hj Hy; cbn [nth_error] in Hy.
      * injection Hy as <-. assumption.
      * apply (Hbefore j); [lia | assumption].
Qed.

(** [a.max()] is an element of the array that bounds all of them. *)
Lemma fold_left_max_spec (l : list Z) :
  forall x,
    (fold_left Z.max l x = x \/ In (fold_left Z.max l x) l)
    /\ (x <= fold_left Z.max l x)%Z
    /\ Forall (fun y => (y <= fold_left Z.max l x)%Z) l.
Proof.
  induction l as [| y l IH]; intros x; cbn [fold_left In].
  - split; [now left |]. split; [lia | constructor].
  - destruct (IH (Z.max x y)) as (H1 & H2 & H3).
    split; [| split; [lia | constructor; [lia | exact H3]]].
    destruct H1 as [H1 | H1]; [| now right; right].
    rewrite H1.
    destruct (Z.max_spec x y) as [[_ ->] | [_ ->]];
      [right; now left | now left].
Qed.

Lemma np_max_spec (a : list Z) :
  a <> [] ->
  exists m,
    np_max a = Ok m /\ In m a /\ Forall (fun x => (x <= m)%Z) a.
Proof.
  destruct a as [| x a]; [congruence |]. intros _. cbn [np_max].
  destruct (fold_left_max_spec a x) as (H1 & H2 & H3).
  eexists. split; [reflexivity |]. split.
  - destruct H1 as [-> | H1]; [now left | now right].
  - constructor; assumption.
Qed.

(** The test on [np.diff]: no step of the array rises by more than the
    bound. *)
Lemma np_diff_bounded (b : R) (a : list R) :
  forallb (fun d => Rleb d b) (np_diff a) = true
  <-> forall k x y,
        nth_error a k = Some x -> nth_error a (S k) = Some y -> y - x <= b.
Proof.
  induction a as [| x a IH].
  - split; [| reflexivity]. intros _ [| k] u v H; discriminate.
  - destruct a as [| y a].
    + split; [| reflexivity].
      intros _ [| k] u v H1 H2; cbn [nth_error] in H2; [discriminate |].
      destruct k; discriminate.
    + change (np_diff (x :: y :: a)) with ((y - x) :: np_diff (y :: a)).
      cbn [forallb]. rewrite andb_true_iff, IH, Rleb_true. split.
      * intros [H0 H] [| k] u v H1 H2.
        -- cbn [nth_error] in H1, H2.
           injection H1 as <-. injection H2 as <-. exact H0.
        -- apply (H k); assumption.
      * intros H. split.
        -- apply (H 0%nat); reflexivity.
        -- intros k u v H1 H2. apply (H (S k)); assumption.
Qed.

(** What [verify_dendrite_suppression] does on every input. *)
Lemma verify_dendrite_suppression_cases (d : DendriteData) :
  ((max_deflection_nm (genesis_case_results d) = 0
    \/ improvement_metrics_dendrite_suppression_factor d = 0) ->
   verify_dendrite_suppression d = Raise ZeroDivisionError)
  /\ (max_deflection_nm (genesis_case_results d) <> 0 ->
      improvement_metrics_dendrite_suppression_factor d <> 0 ->
      exists r1 r2 r3,
        verify_dendrite_suppression d = Ok [r1; r2; r3]
        /\ map name [r1; r2; r3]
           = [ "Dendrite Suppression Factor"; "Penetration Reduction";
               "Strain Energy Trap Threshold" ]
        /\ passed r3 = true).
Proof.
  unfold verify_dendrite_suppression, truediv.
  destruct (Req_dec_T (max_deflection_nm (genesis_case_results d)) 0)
    as [Hg | Hg]; cbn [bind].
  - split; [reflexivity | congruence].
  - destruct (Req_dec_T (improvement_metrics_dendrite_suppression_factor d) 0)
      as [Hc | Hc]; cbn [bind].
    + split; [reflexivity | congruence].
    + split; [intros [H | H]; contradiction |]. intros _ _.
      cbn [app]. do 3 eexists. split; [reflexivity |].
      split; [reflexivity |]. cbn [passed]. apply Rltb_true.
      unfold FARADAY, LI_MOLAR_VOLUME.
      apply Rmult_lt_reg_r with 370.0; [lra |].
      unfold Rdiv at 1. rewrite Rmult_assoc, Rinv_l, Rmult_1_r by lra.
      apply Rabs_lt_intro. lra.
Qed.

(** What [verify_ionic_conductivity] does on every input. *)
Lemma verify_ionic_conductivity_cases (c : ConductivityData) :
  ((simulation_parameters_volume_nm3 c = 0
    \/ results_ionic_conductivity_temperature_K c = 0
    \/ results_ionic_conductivity_value c = 0) ->
   verify_ionic_conductivity c = Raise ZeroDivisionError)
  /\ (simulation_parameters_volume_nm3 c <> 0 ->
      results_ionic_conductivity_temperature_K c <> 0 ->
      results_ionic_conductivity_value c <> 0 ->
      exists r1 r2 r3,
        verify_ionic_conductivity c = Ok [r1; r2; r3]
        /\ map name [r1; r2; r3]
           = [ "Ionic Conductivity (Nernst-Einstein)";
               "Diffusion Coefficient (Physical Range)";
               "MSD Linear Fit Quality (R²)" ]).
Proof.
  unfold verify_ionic_conductivity, truediv.
  destruct (Req_dec_T (simulation_parameters_volume_nm3 c * 1e-27) 0)
    as [Hv | Hv]; cbn [bind].
  { assert (simulation_parameters_volume_nm3 c = 0) by lra.
    split; [reflexivity | congruence]. }
  destruct (Req_dec_T
              (BOLTZMANN * results_ionic_conductivity_temperature_K c) 0)
    as [Ht | Ht]; cbn [bind].
  { assert (results_ionic_conductivity_temperature_K c = 0)
      by (unfold BOLTZMANN in Ht; lra).
    split; [reflexivity | congruence]. }
  destruct (Req_dec_T (results_ionic_conductivity_value c) 0)
    as [Hc | Hc]; cbn [bind].
  { split; [reflexivity | congruence]. }
  split.
  - intros [H | [H | H]].
    + rewrite H in Hv. lra.
    + rewrite H in Ht. lra.
    + contradiction.
  - intros _ _ _. cbn [app]. do 3 eexists. split; reflexivity.
Qed.

(** What [verify_cycle_life] does on arrays of one length. *)
Lemma verify_cycle_life_cases (cycles : list Z) (retention : list R) :
  (cycles = [] -> verify_cycle_life cycles retention = Raise ValueError)
  /\ (cycles <> [] ->
      List.length cycles = List.length retention ->
      exists m i c ret,
        In m cycles
        /\ Forall (fun x => (x <= m)%Z) cycles
        /\ nth_error cycles i = Some c
        /\ nth_error retention i = Some ret
        /\ Forall (fun c' => (Z.abs (c - 1000) <= Z.abs (c' - 1000))%Z)
                  cycles
        /\ (forall j c',
              (j < i)%nat -> nth_error cycles j = Some c' ->
              (Z.abs (c - 1000) < Z.abs (c' - 1000))%Z)
        /\ verify_cycle_life cycles retention
           = Ok [ {| name := "Maximum Cycle Count";
                     expected_value := 1000.0;
                     calculated_value := IZR m;
                     tolerance_percent := 0.1;
                     unit := "cycles";
                     passed := (m >=? 1000)%Z;
                     notes := [ Text "Target: ≥1000 cycles demonstrated" ]
                  |};
                  {| name := "Capacity Retention at 1000 Cycles";
                     expected_value := 95.0;
                     calculated_value := ret;
                     tolerance_percent := 1.0;
                     unit := "%";
                     passed := Rgeb ret 95.0;
                     notes :=
                       [ Text "Target: ≥95% retention at 1000 cycles" ]
                  |};
                  {| name := "Monotonic Degradation";
                     expected_value := 1.0;
                     calculated_value :=
                       if forallb (fun d => Rleb d 0.1) (np_diff retention)
                       then 1.0 else 0.0;
                     tolerance_percent := 0.0;
                     unit := "(bool)";
                     passed :=
                       forallb (fun d => Rleb d 0.1) (np_diff retention);
                     notes :=
                       [ Text "No anomalous capacity gains detected" ]
                  |};
                  {| name := "Capacity Fade Rate";
                     expected_value := 0.5;
                     calculated_value := (100.0 - ret) / (1000 / 100);
                     tolerance_percent := 50.0;
                     unit := "% / 100 cycles";
                     passed := Rltb ((100.0 - ret) / (1000 / 100)) 1.0;
                     notes :=
                       [ Text "Low fade rate indicates stable architecture" ]
                  |} ]).
Proof.
  split; [intros ->; reflexivity |].
  intros Hne Hlen. unfold verify_cycle_life.
  destruct (np_max_spec cycles Hne) as (m & -> & Hm & Hmax).
  cbn [bind].
  destruct (np_argmin_spec (map (fun c => Z.abs (c - 1000)) cycles))
    as (i & v & -> & Hi & Hall & Hbefore).
  { destruct cycles; [congruence | discriminate]. }
  cbn [bind]. rewrite nth_error_map in Hi.
  destruct (nth_error cycles i) as [c |] eqn:Ec; [| discriminate].
  cbn [option_map] in Hi. injection Hi as <-.
  assert (Hlt : (i < List.length retention)%nat).
  { rewrite <- Hlen. apply nth_error_Some. congruence. }
  destruct (nth_error retention i) as [ret |] eqn:Er;
    [| apply nth_error_None in Er; lia].
  unfold index. rewrite Er. cbn [bind app].
  exists m, i, c, ret.
  split; [exact Hm |]. split; [exact Hmax |]. split; [exact Ec |].
  split; [exact Er |]. split.
  { rewrite Forall_map in Hall. exact Hall. }
  split; [| reflexivity].
  intros j c' Hj Hc'. apply (Hbefore j); [exact Hj |].
  rewrite nth_error_map, Hc'. reflexivity.
Qed.

Lemma verify_critical_pressure_shape :
  exists p1 p2,
    verify_critical_pressure = Ok [p1; p2]
    /\ map name [p1; p2]
       = [ "Critical Pressure Threshold"; "Stress Concentration Factor" ]
    /\ passed p1 = true /\ passed p2 = true.
Proof.
  destruct critical_pressure_passes as (rs & E & H).
  unfold verify_critical_pressure in *. cbn [app] in *.
  injection E as <-.
  do 2 eexists. split; [reflexivity |]. split; [reflexivity |].
  split; apply H; cbn [In]; auto.
Qed.

Lemma load_data_files_inv (fs : Files) (d : DendriteData)
    (c : ConductivityData) (cycles : list Z) (retention : list R) :
  load_data_files fs = Ok (d, c, (cycles, retention)) ->
  load_cycling_data fs = Ok (cycles, retention)
  /\ List.length cycles = List.length retention.
Proof.
  unfold load_data_files.
  destruct (load_dendrite_data fs) as [d' |]; [| discriminate].
  destruct (load_conductivity_data fs) as [c' |]; [| discriminate].
  destruct (load_cycling_data fs) as [[cy re] |] eqn:E; [| discriminate].
  cbn [bind]. intros H. injection H as _ _ <- <-.
  split; [reflexivity |].
  unfold load_cycling_data in E.
  destruct (zero_pressure_cycling_csv fs) as [rows |]; [| discriminate].
  cbn [open_read bind] in E.
  now destruct (read_rows_spec rows [] [] cy re E eq_refl) as (H & _).
Qed.

(** The three ways a run on loaded data can end. *)
Lemma run_cases (fs : Files) (d : DendriteData) (c : ConductivityData)
    (cycles : list Z) (retention : list R) :
  load_data_files fs = Ok (d, c, (cycles, retention)) ->
  (zero_divisor d c ->
   run_full_verification true fs = Raise ZeroDivisionError)
  /\ (~ zero_divisor d c -> cycles = [] ->
      run_full_verification true fs = Raise ValueError)
  /\ (~ zero_divisor d c -> cycles <> [] ->
      exists d1 d2 d3 c1 c2 c3 l1 l2 l3 l4 p1 p2 all_passed,
        run_full_verification true fs
        = Ok ([d1; d2; d3; c1; c2; c3; l1; l2; l3; l4; p1; p2], all_passed)
        /\ map name [d1; d2; d3; c1; c2; c3; l1; l2; l3; l4; p1; p2]
           = [ "Dendrite Suppression Factor"; "Penetration Reduction";
               "Strain Energy Trap Threshold";
               "Ionic Conductivity (Nernst-Einstein)";
               "Diffusion Coefficient (Physical Range)";
               "MSD Linear Fit Quality (R²)";
               "Maximum Cycle Count"; "Capacity Retention at 1000 Cycles";
               "Monotonic Degradation"; "Capacity Fade Rate";
               "Critical Pressure Threshold";
               "Stress Concentration Factor" ]
        /\ passed d3 = true /\ passed p1 = true /\ passed p2 = true).
Proof.
  intros Hload. destruct (load_data_files_inv _ _ _ _ _ Hload) as [_ Hlen].
  unfold run_full_verification. rewrite Hload. unfold zero_divisor.
  destruct (verify_dendrite_suppression_cases d) as [Hd0 Hd1].
  destruct (verify_ionic_conductivity_cases c) as [Hc0 Hc1].
  destruct (verify_cycle_life_cases cycles retention) as [Hl0 Hl1].
  destruct (Req_dec_T (max_deflection_nm (genesis_case_results d)) 0)
    as [Hg | Hg].
  { rewrite Hd0 by now left. cbn [bind].
    split; [reflexivity |]. split; intros H; exfalso; apply H; now left. }
  destruct (Req_dec_T (improvement_metrics_dendrite_suppression_factor d) 0)
    as [Hc | Hc].
  { rewrite Hd0 by now right. cbn [bind].
    split; [reflexivity |].
    split; intros H; exfalso; apply H; right; now left. }
  destruct (Hd1 Hg Hc) as (d1 & d2 & d3 & -> & Hdn & Hd3). cbn [bind].
  destruct (Req_dec_T (simulation_parameters_volume_nm3 c) 0) as [Hv | Hv].
  { rewrite Hc0 by now left. cbn [bind].
    split; [reflexivity |].
    split; intros H; exfalso; apply H; right; right; now left. }
  destruct (Req_dec_T (results_ionic_conductivity_temperature_K c) 0)
    as [Ht | Ht].
  { rewrite Hc0 by (right; now left). cbn [bind].
    split; [reflexivity |].
    split; intros H; exfalso; apply H; right; right; right; now left. }
  destruct (Req_dec_T (results_ionic_conductivity_value c) 0) as [Hs | Hs].
  { rewrite Hc0 by (right; now right). cbn [bind].
    split; [reflexivity |].
    split; intros H; exfalso; apply H; right; right; right; now right. }
  destruct (Hc1 Hv Ht Hs) as (c1 & c2 & c3 & -> & Hcn). cbn [bind].
  split; [intros [H | [H | [H | [H | H]]]]; contradiction |].
  split.
  - intros _ E. rewrite (Hl0 E). reflexivity.
  - intros _ Hne.
    destruct (Hl1 Hne Hlen) as (m & i & cy & ret & _ & _ & _ & _ & _ & _ & ->).
    destruct verify_critical_pressure_shape
      as (p1 & p2 & -> & Hpn & Hp1 & Hp2).
    cbn [bind app].
    do 13 eexists. split; [reflexivity |].
    cbn [map name] in *.
    injection Hdn as -> -> ->. injection Hcn as -> -> ->.
    injection Hpn as -> ->.
    split; [reflexivity |]. auto.
Qed.

(** X24: when the three files load, the run can still end in two other
    ways than by a report.  A zero among the five divisors read from the
    JSON files (the genesis deflection, the claimed suppression factor, the
    cell volume, the temperature, the claimed conductivity) ends it with an
    uncaught ZeroDivisionError; otherwise a cycling table without a data
    row ends it with an uncaught ValueError; otherwise the script exits
    with a report of exactly twelve checks, in a fixed order. *)
Theorem suite_error_modes (fs : Files) (d : DendriteData)
    (c : ConductivityData) (cycles : list Z) (retention : list R) :
  load_data_files fs = Ok (d, c, (cycles, retention)) ->
  (zero_divisor d c -> main fs = Uncaught ZeroDivisionError)
  /\ (~ zero_divisor d c -> cycles = [] -> main fs = Uncaught ValueError)
  /\ (~ zero_divisor d c -> cycles <> [] ->
      exists status report,
        main fs = Exit status report
        /\ total_checks report = 12%nat
        /\ map (fun e => name (snd e)) (entries report)
           = [ "Dendrite Suppression Factor"; "Penetration Reduction";
               "Strain Energy Trap Threshold";
               "Ionic Conductivity (Nernst-Einstein)";
               "Diffusion Coefficient (Physical Range)";
               "MSD Linear Fit Quality (R²)";
               "Maximum Cycle Count"; "Capacity Retention at 1000 Cycles";
               "Monotonic Degradation"; "Capacity Fade Rate";
               "Critical Pressure Threshold";
               "Stress Concentration Factor" ]).
Proof.
  intros Hload. destruct (run_cases _ _ _ _ _ Hload) as (H0 & H1 & H2).
  unfold main. split; [| split].
  - intros Hz. now rewrite (H0 Hz).
  - intros Hz He. now rewrite (H1 Hz He).
  - intros Hz Hne.
    destruct (H2 Hz Hne)
      as (d1 & d2 & d3 & c1 & c2 & c3 & l1 & l2 & l3 & l4 & p1 & p2 & ap
          & -> & Hn & _).
    do 2 eexists. split; [reflexivity |]. split; [reflexivity |].
    cbn [generate_verification_report entries List.length seq combine map
         snd].
    exact Hn.
Qed.

Lemma suite_error_modes_witness :
  load_data_files sample_files
  = Ok (sample_dendrite, sample_conductivity,
        (sample_cycles, sample_retention))
  /\ exists status report,
       main sample_files = Exit status report
       /\ total_checks report = 12%nat.
Proof.
  split; [reflexivity |].
  destruct (suite_error_modes sample_files sample_dendrite
              sample_conductivity sample_cycles sample_retention eq_refl)
    as (_ & _ & H).
  destruct H as (status & report & Hm & Ht & _).
  - unfold zero_divisor, sample_dendrite, sample_conductivity.
    cbn [max_deflection_nm genesis_case_results
         improvement_metrics_dendrite_suppression_factor
         simulation_parameters_volume_nm3
         results_ionic_conductivity_temperature_K
         results_ionic_conductivity_value].
    intros [H | [H | [H | [H | H]]]]; lra.
  - discriminate.
  - exists status, report. split; assumption.
Defined.

(** X25: on a cycling table that is not empty, the check "Capacity
    Retention at 1000 Cycles" reports the retention of the first row whose
    cycle number is nearest to 1000, however far from 1000 that is, and
    passes exactly when that retention is at least 95; "Maximum Cycle
    Count" passes exactly when some cycle number reaches 1000; "Monotonic
    Degradation" passes exactly when no step from a row to the next gains
    more than 0.1; "Capacity Fade Rate" passes exactly when the same
    retention exceeds 90, so it passes whenever the retention check
    does. *)
Theorem cycle_life_checks (cycles : list Z) (retention : list R) :
  cycles <> [] -> List.length cycles = List.length retention ->
  exists r1 r2 r3 r4 i c ret,
    verify_cycle_life cycles retention = Ok [r1; r2; r3; r4]
    /\ nth_error cycles i = Some c
    /\ nth_error retention i = Some ret
    /\ Forall (fun c' => (Z.abs (c - 1000) <= Z.abs (c' - 1000))%Z) cycles
    /\ (forall j c',
          (j < i)%nat -> nth_error cycles j = Some c' ->
          (Z.abs (c - 1000) < Z.abs (c' - 1000))%Z)
    /\ calculated_value r2 = ret
    /\ (passed r1 = true <-> Exists (fun c' => (1000 <= c')%Z) cycles)
    /\ (passed r2 = true <-> 95 <= ret)
    /\ (passed r3 = true
        <-> forall k x y,
              nth_error retention k = Some x ->
              nth_error retention (S k) = Some y -> y - x <= 0.1)
    /\ (passed r4 = true <-> 90 < ret)
    /\ (passed r2 = true -> passed r4 = true).
Proof.
  intros Hne Hlen.
  destruct (verify_cycle_life_cases cycles retention) as [_ H].
  destruct (H Hne Hlen)
    as (m & i & c & ret & Hm & Hmax & Hc & Hr & Hnear & Hfirst & ->).
  do 4 eexists. exists i, c, ret.
  split; [reflexivity |]. cbn [passed calculated_value].
  split; [exact Hc |]. split; [exact Hr |]. split; [exact Hnear |].
  split; [exact Hfirst |]. split; [reflexivity |].
  assert (H2 : Rgeb ret 95.0 = true <-> 95 <= ret).
  { unfold Rgeb. rewrite Rleb_true. split; lra. }
  assert (H4 : Rltb ((100.0 - ret) / (1000 / 100)) 1.0 = true <-> 90 < ret).
  { rewrite Rltb_true. split; lra. }
  split; [| split; [exact H2 | split; [apply np_diff_bounded |
    split; [exact H4 |]]]].
  - rewrite Z.geb_le. split.
    + intros Hge. apply Exists_exists. exists m. split; assumption.
    + intros Hex. apply Exists_exists in Hex. destruct Hex as (x & Hx & Hge).
      rewrite Forall_forall in Hmax. specialize (Hmax x Hx). lia.
  - intros Hp. apply H4. apply H2 in Hp. lra.
Qed.

Lemma cycle_life_checks_witness :
  exists r1 r2 r3 r4,
    verify_cycle_life [0; 50]%Z [100.0; 99.0] = Ok [r1; r2; r3; r4]
    /\ calculated_value r2 = 99.0
    /\ passed r1 = false /\ passed r2 = true.
Proof.
  destruct (cycle_life_checks [0; 50]%Z [100.0; 99.0])
    as (r1 & r2 & r3 & r4 & i & c & ret & Hv & Hc & Hr & Hnear & Hfirst
        & Hcalc & H1 & H2 & _);
    [discriminate | reflexivity |].
  assert (Hi : i = 1%nat).
  { destruct i as [| [| i]]; [| reflexivity |].
    - cbn [nth_error] in Hc. injection Hc as <-.
      inversion Hnear as [| ? ? _ Hrest]. inversion Hrest as [| ? ? H50 _].
      cbn in H50. lia.
    - cbn [nth_error] in Hc. destruct i; discriminate. }
  subst i. cbn [nth_error] in Hr. injection Hr as <-.
  exists r1, r2, r3, r4. split; [exact Hv |]. split; [exact Hcalc |].
  split.
  - destruct (passed r1); [| reflexivity].
    destruct H1 as [H1 _]. specialize (H1 eq_refl).
    apply Exists_exists in H1. destruct H1 as (x & [<- | [<- | []]] & Hx); lia.
  - apply H2. lra.
Defined.

(** X26: three of the twelve checks do not read the data: whatever the
    files hold, whenever the run returns, the checks named "Strain Energy
    Trap Threshold", "Critical Pressure Threshold" and "Stress
    Concentration Factor" have passed. *)
Theorem constant_checks_pass (fs : Files) (rs : list VerificationResult)
    (all_passed : bool) :
  run_full_verification true fs = Ok (rs, all_passed) ->
  forall r,
    In r rs ->
    name r = "Strain Energy Trap Threshold"
    \/ name r = "Critical Pressure Threshold"
    \/ name r = "Stress Concentration Factor" ->
    passed r = true.
Proof.
  intros Hrun.
  destruct (load_data_files fs) as [[[d c] [cycles retention]] | e] eqn:Hload.
  2:{ rewrite (run_after_failed_load fs e Hload) in Hrun.
      injection Hrun as <- _. intros r []. }
  destruct (run_cases _ _ _ _ _ Hload) as (H0 & H1 & H2).
  assert (Hz : ~ zero_divisor d c).
  { intros Hz. rewrite (H0 Hz) in Hrun. discriminate. }
  assert (Hne : cycles <> []).
  { intros He. rewrite (H1 Hz He) in Hrun. discriminate. }
  destruct (H2 Hz Hne)
    as (d1 & d2 & d3 & c1 & c2 & c3 & l1 & l2 & l3 & l4 & p1 & p2 & ap
        & E & Hn & Hd3 & Hp1 & Hp2).
  rewrite E in Hrun. injection Hrun as <- _.
  cbn [map] in Hn.
  injection Hn as N1 N2 N3 N4 N5 N6 N7 N8 N9 N10 N11 N12.
  intros r Hin Hname. cbn [In] in Hin.
  repeat (destruct Hin as [<- | Hin]; [| ]);
    try assumption; try contradiction;
    try (rewrite ?N1, ?N2, ?N4, ?N5, ?N6, ?N7, ?N8, ?N9, ?N10 in Hname;
         destruct Hname as [H | [H | H]]; discriminate H).
Qed.

Lemma constant_checks_pass_witness :
  exists rs,
    run_full_verification true sample_files = Ok (rs, true)
    /\ forall r, In r rs ->
         name r = "Stress Concentration Factor" -> passed r = true.
Proof.
  destruct sample_run as (rs & Hrun & _).
  exists rs. split; [exact Hrun |].
  intros r Hin Hname.
  apply (constant_checks_pass sample_files rs true Hrun r Hin).
  right. right. exact Hname.
Defined.

End VerificationExtras.

(** ** The curves of the two plotting scripts *)

Section PlotShapes.

Lemma pow_3_5_nonneg (x : R) : 0 <= pow_3_5 x.
Proof.
  unfold pow_3_5. destruct (Req_dec_T x 0); [lra |].
  unfold Rpower. left. apply exp_pos.
Qed.

Lemma pow_3_5_mono (x y : R) : 0 <= x <= y -> pow_3_5 x <= pow_3_5 y.
Proof.
  intros [Hx Hxy]. unfold pow_3_5.
  destruct (Req_dec_T x 0), (Req_dec_T y 0); try lra.
  - unfold Rpower. left. apply exp_pos.
  - apply Rle_Rpower_l; lra.
Qed.

Lemma weibull_percent_range (sigma : R) : 0 <= weibull_percent sigma <= 100.
Proof.
  unfold weibull_percent.
  pose proof (pow_3_5_nonneg (Rmax (sigma - 15) 0 / 25)) as Hw.
  set (w := pow_3_5 _) in *.
  pose proof (exp_pos (- w)) as H0.
  pose proof (exp_nonpos_le_1 (- w)) as H1.
  split; [assert (exp (- w) <= 1) by (apply H1; lra) |]; lra.
Qed.

Lemma weibull_percent_mono (s1 s2 : R) :
  s1 <= s2 -> weibull_percent s1 <= weibull_percent s2.
Proof.
  intros H. unfold weibull_percent.
  assert (Hm : 0 <= Rmax (s1 - 15) 0 / 25 <= Rmax (s2 - 15) 0 / 25).
  { unfold Rmax. destruct (Rle_dec (s1 - 15) 0), (Rle_dec (s2 - 15) 0); lra. }
  pose proof (pow_3_5_mono _ _ Hm) as Hw.
  set (w1 := pow_3_5 (Rmax (s1 - 15) 0 / 25)) in *.
  set (w2 := pow_3_5 (Rmax (s2 - 15) 0 / 25)) in *.
  assert (exp (- w2) <= exp (- w1)) by (apply exp_le_mono; lra).
  lra.
Qed.

(** X27: on every pressure array the two scripts draw the same failure
    curve; each value is a percentage in [0, 100]; it is 0 at every
    pressure up to the threshold of 15 MPa; and a higher pressure never
    has a lower failure probability. *)
Theorem failure_probability_shape (pressure : list R) :
  exists probs,
    Plots.failure_prob_of pressure = Ok probs
    /\ Figures.failure_prob_of pressure = Ok probs
    /\ Forall2 (fun p w => 0 <= w <= 100 /\ (p <= 15 -> w = 0))
               pressure probs
    /\ forall i j p1 p2 w1 w2,
         nth_error pressure i = Some p1 -> nth_error pressure j = Some p2 ->
         nth_error probs i = Some w1 -> nth_error probs j = Some w2 ->
         p1 <= p2 -> w1 <= w2.
Proof.
  exists (map weibull_percent pressure).
  split; [apply plots_curve |]. split; [apply figures_curve |]. split.
  - induction pressure as [| p l IH]; cbn [map]; constructor; [| exact IH].
    split; [apply weibull_percent_range | apply weibull_percent_below].
  - intros i j p1 p2 w1 w2 H1 H2 Hw1 Hw2 Hle.
    rewrite nth_error_map, H1 in Hw1. rewrite nth_error_map, H2 in Hw2.
    cbn [option_map] in Hw1, Hw2. injection Hw1 as <-. injection Hw2 as <-.
    now apply weibull_percent_mono.
Qed.

(** *** The creep-rate band *)

Lemma float_pow_positive_base (p e : R) :
  0 < p -> float_pow p e = Ok (Rpower p e).
Proof.
  intros H. unfold float_pow. destruct (Rlt_dec 0 p); [reflexivity | lra].
Qed.

Lemma Rpower_ge_1 (p y : R) : 1 <= p -> 0 <= y -> 1 <= Rpower p y.
Proof.
  intros Hp Hy. rewrite <- (Rpower_O p) by lra. now apply Rle_Rpower.
Qed.

Lemma combine_map_same {A B C : Type} (f : A -> B) (g : A -> C)
    (l : list A) :
  combine (map f l) (map g l) = map (fun x => (f x, g x)) l.
Proof.
  induction l as [| x l IH]; [reflexivity |].
  cbn [map combine]. now rewrite IH.
Qed.

(** The rates at one pressure of at least 1 MPa. *)
Lemma creep_point (p : R) :
  1 <= p ->
  let l := 1e-9 * Rpower p 3 in
  let h := 1e-8 * Rpower p 4.5 in
  0 < l /\ 10 * l <= h /\ l < sqrt (l * h) < h
  /\ sqrt (l * h) * sqrt (l * h) = l * h.
Proof.
  intros Hp. cbn zeta.
  assert (Ha : 0 < Rpower p 3) by (unfold Rpower; apply exp_pos).
  assert (Hab : Rpower p 3 <= Rpower p 4.5) by (apply Rle_Rpower; lra).
  set (a := Rpower p 3) in *. set (b := Rpower p 4.5) in *.
  assert (Hl : 0 < 1e-9 * a) by lra.
  assert (Hlh : 10 * (1e-9 * a) <= 1e-8 * b) by lra.
  set (l := 1e-9 * a) in *. set (h := 1e-8 * b) in *.
  assert (Hpos : 0 <= l * h) by nra.
  split; [exact Hl |]. split; [exact Hlh |]. split; [| now apply sqrt_sqrt].
  split.
  - rewrite <- (sqrt_square l) at 1 by lra. apply sqrt_lt_1_alt. nra.
  - rewrite <- (sqrt_square h) at 2 by lra. apply sqrt_lt_1_alt. nra.
Qed.

Lemma creep_rates_value (pressure : list R) :
  Forall (fun p => 1 <= p) pressure ->
  Plots.creep_rates_of pressure
  = Ok (map (fun p => 1e-9 * Rpower p 3) pressure,
        map (fun p => 1e-8 * Rpower p 4.5) pressure)
  /\ Figures.creep_rates_of pressure
     = Ok (map (fun p => 1e-9 * Rpower p 3) pressure,
           map (fun p => 1e-8 * Rpower p 4.5) pressure,
           map (fun p => sqrt (1e-9 * Rpower p 3 * (1e-8 * Rpower p 4.5)))
               pressure).
Proof.
  intros Hall. rewrite Forall_forall in Hall.
  assert (Hpow : forall e p, In p pressure -> float_pow p e = Ok (Rpower p e)).
  { intros e p Hp. apply float_pow_positive_base. specialize (Hall p Hp). lra. }
  split.
  - unfold Plots.creep_rates_of.
    rewrite (mapM_pointwise _ (fun p => Rpower p 3)) by (apply Hpow).
    cbn [bind].
    rewrite (mapM_pointwise _ (fun p => Rpower p 4.5)) by (apply Hpow).
    cbn [bind]. now rewrite !map_map.
  - unfold Figures.creep_rates_of.
    rewrite (mapM_pointwise _ (fun p => Rpower p 3.0)) by (apply Hpow).
    cbn [bind].
    rewrite (mapM_pointwise _ (fun p => Rpower p 4.5)) by (apply Hpow).
    cbn [bind]. rewrite !map_map, combine_map_same, map_map. cbn [fst snd].
    rewrite (mapM_pointwise _ sqrt).
    2:{ intros x Hx. apply in_map_iff in Hx. destruct Hx as (p & <- & Hp).
        unfold np_sqrt.
        destruct (creep_point p (Hall p Hp)) as (H1 & H2 & _).
        replace 3.0 with 3 by lra.
        destruct (Rle_dec 0 (1e-9 * Rpower p 3 * (1e-8 * Rpower p 4.5)));
          [reflexivity | nra]. }
    cbn [bind]. rewrite map_map. replace 3.0 with 3 by lra. reflexivity.
Qed.

Lemma np_logspace_ge_1 (stop : R) (num : nat) :
  0 <= stop -> (2 <= num)%nat ->
  exists ps,
    np_logspace 0 stop num = Ok ps
    /\ List.length ps = num
    /\ Forall (fun p => 1 <= p) ps.
Proof.
  intros Hs Hn. unfold np_logspace.
  rewrite (mapM_pointwise _ (fun y => Rpower 10.0 y))
    by (intros y _; apply float_pow_positive_base; lra).
  eexists. split; [reflexivity |].
  split; [now rewrite length_map, np_linspace_length |].
  apply Forall_map. unfold np_linspace. apply Forall_map.
  apply Forall_forall. intros i _.
  apply Rpower_ge_1; [lra |].
  assert (Hd : 0 < INR (num - 1)) by (apply lt_0_INR; lia).
  pose proof (pos_INR i) as Hi.
  assert (0 <= (stop - 0) / INR (num - 1)).
  { apply Rmult_le_pos; [lra |]. left. now apply Rinv_0_lt_compat. }
  nra.
Qed.

(** X28: at pressures of at least 1 MPa the two scripts compute the same
    low and high creep rates, one per pressure; the low rate is positive,
    the high rate is at least ten times the low one, and the middle curve
    of generate_all_figures.py lies strictly between them, its square being
    their product.  The pressures the two scripts use (100 and 200 points
    of a logarithmic scale from 1 MPa) all qualify, so neither raises. *)
Theorem creep_band_ordered (pressure : list R) :
  (Forall (fun p => 1 <= p) pressure ->
   exists lows highs mids,
     Plots.creep_rates_of pressure = Ok (lows, highs)
     /\ Figures.creep_rates_of pressure = Ok (lows, highs, mids)
     /\ List.length lows = List.length pressure
     /\ List.length highs = List.length pressure
     /\ List.length mids = List.length pressure
     /\ forall i l h m,
          nth_error lows i = Some l -> nth_error highs i = Some h ->
          nth_error mids i = Some m ->
          0 < l /\ 10 * l <= h /\ l < m < h /\ m * m = l * h)
  /\ (exists ps rates,
        Plots.plot_creep_rate = Ok (ps, rates)
        /\ List.length ps = 100%nat /\ Forall (fun p => 1 <= p) ps)
  /\ (exists ps rates,
        Figures.generate_creep_rate_curve = Ok (ps, rates)
        /\ List.length ps = 200%nat /\ Forall (fun p => 1 <= p) ps).
Proof.
  split; [| split].
  - intros Hall. destruct (creep_rates_value pressure Hall) as [HP HF].
    do 3 eexists. split; [exact HP |]. split; [exact HF |].
    rewrite !length_map. do 3 (split; [reflexivity |]).
    intros i l h m Hl Hh Hm. rewrite nth_error_map in Hl, Hh, Hm.
    destruct (nth_error pressure i) as [p |] eqn:Ep; [| discriminate].
    cbn [option_map] in Hl, Hh, Hm.
    injection Hl as <-. injection Hh as <-. injection Hm as <-.
    apply creep_point. rewrite Forall_forall in Hall. apply Hall.
    now apply nth_error_In with i.
  - unfold Plots.plot_creep_rate.
    destruct (np_logspace_ge_1 2.5 100) as (ps & -> & Hlen & Hall);
      [lra | lia |].
    cbn [bind]. destruct (creep_rates_value ps Hall) as [-> _]. cbn [bind].
    do 2 eexists. split; [reflexivity |]. split; assumption.
  - unfold Figures.generate_creep_rate_curve.
    destruct (np_logspace_ge_1 2.5 200) as (ps & -> & Hlen & Hall);
      [lra | lia |].
    cbn [bind]. destruct (creep_rates_value ps Hall) as [_ ->]. cbn [bind].
    do 2 eexists. split; [reflexivity |]. split; assumption.
Qed.

Lemma creep_band_ordered_witness :
  exists lows highs mids,
    Figures.creep_rates_of [1; 25; 300] = Ok (lows, highs, mids)
    /\ List.length mids = 3%nat.
Proof.
  destruct (creep_band_ordered [1; 25; 300]) as [H _].
  destruct H as (lows & highs & mids & _ & HF & _ & _ & Hm & _).
  - repeat constructor; lra.
  - exists lows, highs, mids. split; [exact HF | exact Hm].
Defined.

End PlotShapes.
